(** * BMW FRM repair tool: D-Flash analysis and D-Flash to EEPROM conversion

    A shallow embedding of the two implementations the repository ships:

    - [FrmConverter]: the class of [client/src/services/frm-converter.ts]
      (typed arrays, [DataView], [TextDecoder]);
    - [Server]: the helper functions of [server/routes.ts] as bundled in
      [dist/index.js] (Node [Buffer]s).

    Byte buffers are lists of bytes, indices and integer-valued JavaScript
    numbers are [Z] (every integer that occurs is far below 2^53, so the
    double arithmetic of the source is exact on them), the two percentage
    computations are kept in IEEE binary64 ([PrimFloat]), and a [throw] is a
    value of the error monad [result]. *)

From Stdlib Require Import ZArith Lia List String Ascii DecimalString.
From Stdlib Require Import Strings.Byte.
From Stdlib Require Import PrimFloat FloatOps SpecFloat Uint63.
From stdpp Require Import base tactics option list list_numbers sorting gmap.

Open Scope Z_scope.

(** ** The JavaScript runtime pieces the sources use *)

Module Js.

(** Thrown values: the two error classes that can arise. The text of an
    engine-raised [RangeError] is engine-defined; the model keeps a
    representative text. *)
Inductive thrown : Type :=
| RangeError (message : string)
| Error (message : string).

Definition message (e : thrown) : string :=
  match e with RangeError m => m | Error m => m end.

(** Outcome of a call that may throw. *)
Inductive result (A : Type) : Type :=
| Ok (a : A)
| Throw (e : thrown).
Arguments Ok {A} a.
Arguments Throw {A} e.

(** Sequencing stops at the first throw; [x ← c; k] is stdpp's notation
    for it. *)
#[global] Instance result_bind : MBind result := fun A B k c =>
  match c with Ok a => k a | Throw e => Throw e end.

(** Strings are sequences of UTF-16 code units. *)
Abbreviation jsstring := (list Z) (only parsing).

Definition code (a : ascii) : Z := Z.of_N (N_of_ascii a).

(** A string literal of the source. *)
Definition lit (s : string) : jsstring := code <$> list_ascii_of_string s.

(** Truthiness of a string: only the empty string is falsy. *)
Definition truthy_string (s : jsstring) : bool :=
  match s with [] => false | _ => true end.

(** [s.substring(a, b)] and [s.charAt(i)], for non-negative arguments. *)
Definition substring (s : jsstring) (a b : Z) : jsstring :=
  take (Z.to_nat (b - a)) (drop (Z.to_nat a) s).

Definition charAt (s : jsstring) (i : Z) : jsstring :=
  take 1 (drop (Z.to_nat i) s).

(** Decimal rendering of an integer-valued number in a template string
    or by [JSON.stringify]. *)
Definition dec (z : Z) : string := NilZero.string_of_int (Z.to_int z).

(** Byte buffers: [Uint8Array] and [Buffer]. *)
Abbreviation bytes := (list byte) (only parsing).

#[global] Instance byte_eq_decision : EqDecision byte := Byte.byte_eq_dec.

Definition u8 (b : byte) : Z := Z.of_N (Byte.to_N b).

(** Storing a number into a byte cell keeps its low 8 bits. *)
Definition to_u8 (z : Z) : byte :=
  default x00 (Byte.of_N (Z.to_N (z mod 256))).

Definition len {A} (a : list A) : Z := Z.of_nat (length a).

(** [a[i]]: [undefined] ([None]) outside the array. *)
Definition get (a : bytes) (i : Z) : option byte :=
  if i <? 0 then None else a !! Z.to_nat i.

(** [a[i] || d]: [undefined] and [0] are falsy. *)
Definition get_or (a : bytes) (i d : Z) : Z :=
  match get a i with
  | Some b => if u8 b =? 0 then d else u8 b
  | None => d
  end.

(** [a.slice(s, e)] and [a.subarray(s, e)] for non-negative [s], [e]:
    both ends are clamped to the length. Nothing in the sources writes
    through a subarray, so the view is modelled by its contents. *)
Definition slice {A} (a : list A) (s e : Z) : list A :=
  take (Z.to_nat (e - s)) (drop (Z.to_nat s) a).

Definition every {A} (p : A -> bool) (a : list A) : bool := forallb p a.

(** [new Uint8Array(n)] followed by [fill(v)]; [Buffer.alloc(n)] zero-fills. *)
Definition filled (n : Z) (v : byte) : bytes := replicate (Z.to_nat n) v.

(** Overwrite [a] from index [off] on with [src]; the callers below check
    that it fits. *)
Definition write_at (a : bytes) (off : Z) (src : bytes) : bytes :=
  take (Z.to_nat off) a ++ src ++ drop (Z.to_nat off + length src) a.

(** [target.set(src, off)] throws when the source does not fit. *)
Definition Uint8Array_set (target src : bytes) (off : Z) : result bytes :=
  if off + len src <=? len target then Ok (write_at target off src)
  else Throw (RangeError "offset is out of bounds").

(** 32-bit conversions. *)
Definition ToUint32 (z : Z) : Z := z mod 2 ^ 32.
Definition ToInt32 (z : Z) : Z := (z + 2 ^ 31) mod 2 ^ 32 - 2 ^ 31.

(** [x & y] on integer-valued numbers: both operands go through [ToInt32]
    and the result is a signed 32-bit integer. *)
Definition bitand (x y : Z) : Z := Z.land (ToInt32 x) (ToInt32 y).

Definition le_bytes (v : Z) : bytes :=
  [to_u8 v; to_u8 (v / 2 ^ 8); to_u8 (v / 2 ^ 16); to_u8 (v / 2 ^ 24)].

Definition le_value (b0 b1 b2 b3 : byte) : Z :=
  u8 b0 + 2 ^ 8 * u8 b1 + 2 ^ 16 * u8 b2 + 2 ^ 24 * u8 b3.

(** [new DataView(a.buffer, off, 4).getUint32(0, littleEndian)] for an
    array that starts at offset 0 of its buffer; the constructor throws
    when the four bytes are not all inside the buffer. *)
Definition DataView_getUint32 (a : bytes) (off : Z) (littleEndian : bool)
  : result Z :=
  match slice a off (off + 4) with
  | [b0; b1; b2; b3] =>
      Ok (if littleEndian then le_value b0 b1 b2 b3 else le_value b3 b2 b1 b0)
  | _ => Throw (RangeError "Start offset is outside the bounds of the buffer")
  end.

(** [new DataView(a.buffer).setUint32(off, v, true)]: the value is taken
    modulo 2^32. *)
Definition DataView_setUint32_LE (a : bytes) (off v : Z) : result bytes :=
  if (0 <=? off) && (off + 4 <=? len a)
  then Ok (write_at a off (le_bytes (ToUint32 v)))
  else Throw (RangeError "Offset is outside the bounds of the DataView").

(** [buf.readUInt32LE(off)] of Node. *)
Definition readUInt32LE (a : bytes) (off : Z) : result Z :=
  match slice a off (off + 4) with
  | [b0; b1; b2; b3] => Ok (le_value b0 b1 b2 b3)
  | _ => Throw (RangeError "The value of offset is out of range")
  end.

(** [buf.writeUInt32LE(v, off)] of Node: the value is range-checked first,
    then the offset. *)
Definition writeUInt32LE (a : bytes) (v off : Z) : result bytes :=
  if (v <? 0) || (2 ^ 32 - 1 <? v)
  then Throw (RangeError "The value of value is out of range")
  else if (0 <=? off) && (off + 4 <=? len a)
  then Ok (write_at a off (le_bytes v))
  else Throw (RangeError "The value of offset is out of range").

(** The [windows-1252] index: what the encoding label ['ascii'] selects in
    [TextDecoder]. Bytes below 0x80 and from 0xA0 on decode to the code
    point of the same number. *)
Definition windows1252_high : list Z :=
  [0x20AC; 0x0081; 0x201A; 0x0192; 0x201E; 0x2026; 0x2020; 0x2021;
   0x02C6; 0x2030; 0x0160; 0x2039; 0x0152; 0x008D; 0x017D; 0x008F;
   0x0090; 0x2018; 0x2019; 0x201C; 0x201D; 0x2022; 0x2013; 0x2014;
   0x02DC; 0x2122; 0x0161; 0x203A; 0x0153; 0x009D; 0x017E; 0x0178].

Definition windows1252 (b : byte) : Z :=
  let c := u8 b in
  if (0x80 <=? c) && (c <? 0xA0)
  then default c (windows1252_high !! Z.to_nat (c - 0x80))
  else c.

(** [new TextDecoder('ascii').decode(a)]. *)
Definition TextDecoder_ascii (a : bytes) : jsstring := windows1252 <$> a.

(** UTF-8 encoding of one code unit of the Basic Multilingual Plane
    (no surrogate arises from [windows1252]). *)
Definition utf8 (c : Z) : bytes :=
  if c <? 0x80 then [to_u8 c]
  else if c <? 0x800 then [to_u8 (0xC0 + c / 64); to_u8 (0x80 + c mod 64)]
  else [to_u8 (0xE0 + c / 4096); to_u8 (0x80 + (c / 64) mod 64);
        to_u8 (0x80 + c mod 64)].

(** [new TextEncoder().encode(s)] and [Buffer.from(s)]. *)
Definition TextEncoder_encode (s : jsstring) : bytes := s ≫= utf8.

(** [buf.toString('ascii')] of Node clears the top bit of every byte. *)
Definition toString_ascii (a : bytes) : jsstring :=
  (fun b => Z.land (u8 b) 0x7F) <$> a.

(** [buf.write(s, off, 'ascii')] of Node stores the low byte of every code
    unit and stops at the end of the buffer. *)
Definition Buffer_write_ascii (a : bytes) (s : jsstring) (off : Z) : bytes :=
  write_at a off (take (Z.to_nat (len a - off)) (to_u8 <$> s)).

(** [src.copy(target, targetStart, 0, sourceEnd)]: copies what fits. *)
Definition Buffer_copy (src target : bytes) (targetStart sourceEnd : Z)
  : bytes :=
  write_at target targetStart
    (take (Z.to_nat (len target - targetStart)) (slice src 0 sourceEnd)).

(** [hay.includes(pat)] on strings and on buffers: [pat] occurs as a
    contiguous run. *)
Fixpoint starts_with {A} `{EqDecision A} (pat hay : list A) : bool :=
  match pat, hay with
  | [], _ => true
  | _ :: _, [] => false
  | p :: pat', h :: hay' => bool_decide (p = h) && starts_with pat' hay'
  end.

Fixpoint includes {A} `{EqDecision A} (hay pat : list A) : bool :=
  starts_with pat hay ||
  match hay with
  | [] => false
  | _ :: hay' => includes hay' pat
  end.

(** The regular expression [/^[A-HJ-NPR-Z0-9]{17}$/]. *)
Definition vin_class (c : Z) : bool :=
  ((0x41 <=? c) && (c <=? 0x48)) ||      (* A-H *)
  ((0x4A <=? c) && (c <=? 0x4E)) ||      (* J-N *)
  (c =? 0x50) ||                         (* P   *)
  ((0x52 <=? c) && (c <=? 0x5A)) ||      (* R-Z *)
  ((0x30 <=? c) && (c <=? 0x39)).        (* 0-9 *)

Definition vin_regex_test (s : jsstring) : bool :=
  bool_decide (length s = 17%nat) && forallb vin_class s.

(** Numbers kept as binary64: construction from an integer, and
    [Math.round], which returns the integer nearest to its argument, the
    larger one on a tie; non-finite arguments and zeros come back
    unchanged. *)
Definition number := float.

Definition of_Z (z : Z) : number :=
  if z <? 0 then PrimFloat.opp (PrimFloat.of_uint63 (Uint63.of_Z (- z)))
  else PrimFloat.of_uint63 (Uint63.of_Z z).

Definition Math_round (x : number) : number :=
  match Prim2SF x with
  | S754_finite s m e =>
      if 0 <=? e then x
      else
        let d := 2 ^ (- e) in
        let n := ((if s then - (2 * Z.pos m) else 2 * Z.pos m) + d) / (2 * d) in
        if (n =? 0) && s then neg_zero else of_Z n
  | _ => x
  end.

(** The first iteration of a loop over [offsets] whose body returns. *)
Fixpoint first_some {X A} (body : X -> option A) (offsets : list X)
  : option A :=
  match offsets with
  | [] => None
  | o :: rest =>
      match body o with
      | Some a => Some a
      | None => first_some body rest
      end
  end.

(** The same for a body that may throw. *)
Fixpoint first_someM {A} (body : Z -> result (option A)) (offsets : list Z)
  : result (option A) :=
  match offsets with
  | [] => Ok None
  | o :: rest =>
      r ← body o;
      match r with
      | Some a => Ok (Some a)
      | None => first_someM body rest
      end
  end.

(** The values [lo, lo + step, ...] below [hi] that the loop
    [for (o = lo; o < hi; o += step)] visits, for a positive [step]. *)
Definition range (lo hi step : Z) : list Z :=
  (fun k => lo + step * k) <$> seqZ 0 ((hi - lo + step - 1) / step).

End Js.

(** ** The client-side converter ([frm-converter.ts]) *)

Module FrmConverter.
Import Js.

Record VehicleData := {
  vin : option jsstring;
  mileage : option Z;
  model : option string
}.

Record ConversionResult := {
  success : bool;
  eepromData : option bytes;
  error : option string;
  vehicleData : option VehicleData
}.

Record CorruptionReport := {
  corruptionLevel : number;
  recoverableSectors : Z;
  totalSectors : Z
}.

Definition EEPROM_SIZE : Z := 4096.
Definition DFLASH_SIZE : Z := 32768.

(** [(offset, length)] of each pattern. *)
Definition VIN_PATTERNS : list (Z * Z) :=
  [(0x1000, 17); (0x1500, 17); (0x2000, 17)].

Definition MILEAGE_OFFSETS : list Z := [0x2100; 0x2200; 0x2300; 0x2400].

(** Body of the loop of [extractVIN]. *)
Definition vin_at (dflashData : bytes) (pattern : Z * Z) : option jsstring :=
  let vinBytes := slice dflashData pattern.1 (pattern.1 + pattern.2) in
  let vin := TextDecoder_ascii vinBytes in
  if vin_regex_test vin then Some vin else None.

Definition extractVIN (dflashData : bytes) : option jsstring :=
  first_some (vin_at dflashData) VIN_PATTERNS.

Definition plausible (v : Z) : bool := (0 <? v) && (v <? 1000000).

(** Body of the loop of [extractMileage]: little-endian first, then
    big-endian. *)
Definition mileage_at (dflashData : bytes) (offset : Z) : result (option Z) :=
  if offset + 4 <=? len dflashData then
    mileageLE ← DataView_getUint32 dflashData offset true;
    mileageBE ← DataView_getUint32 dflashData offset false;
    if plausible mileageLE then Ok (Some mileageLE)
    else if plausible mileageBE then Ok (Some mileageBE)
    else Ok None
  else Ok None.

Definition extractMileage (dflashData : bytes) : result (option Z) :=
  first_someM (mileage_at dflashData) MILEAGE_OFFSETS.

Definition modelMap : gmap jsstring string :=
  list_to_map
    [(lit "WBA", "BMW 3 Series"%string);
     (lit "WBY", "BMW X3"%string);
     (lit "5UX", "BMW X3 (US)"%string);
     (lit "WBX", "BMW X1"%string);
     (lit "WBS", "BMW M Series"%string);
     (lit "4US", "BMW (US Market)"%string)].

(** [modelMap[wmi] || 'BMW (Unknown Model)']: every entry of the table is
    a non-empty string, hence truthy. *)
Definition extractModel (dflashData : bytes) : option string :=
  match extractVIN dflashData with
  | Some vin =>
      if truthy_string vin then
        let wmi := substring vin 0 3 in
        Some (default "BMW (Unknown Model)"%string (modelMap !! wmi))
      else None
  | None => None
  end.

Definition extractVehicleData (dflashData : bytes) : result VehicleData :=
  let v := extractVIN dflashData in
  m ← extractMileage dflashData;
  Ok {| vin := v; mileage := m; model := extractModel dflashData |}.

Definition header : bytes :=
  [xaa; x55; xff; x00;   (* Magic bytes *)
   x01; x00; x00; x00;   (* Version *)
   x00; x10; x00; x00;   (* Data offset *)
   x00; x00; x00; x00].  (* Reserved *)

Definition writeEEPROMHeader (eepromData : bytes) : result bytes :=
  Uint8Array_set eepromData header 0.

(** [if (vehicleData.vin)] skips the empty string, [if
    (vehicleData.mileage)] skips 0. *)
Definition writeVehicleData (eepromData : bytes) (vehicleData : VehicleData)
  : result bytes :=
  e ← match vin vehicleData with
      | Some v =>
          if truthy_string v
          then Uint8Array_set eepromData (TextEncoder_encode v) 0x10
          else Ok eepromData
      | None => Ok eepromData
      end;
  match mileage vehicleData with
  | Some m => if m =? 0 then Ok e else DataView_setUint32_LE e 0x30 m
  | None => Ok e
  end.

Definition writeConfigurationData (eepromData dflashData : bytes)
  : result bytes :=
  let configOffset := 0x100 in
  let configData :=
    [to_u8 (get_or dflashData 0x500 0x00);
     to_u8 (get_or dflashData 0x501 0x00);
     to_u8 (get_or dflashData 0x502 0x1E);
     to_u8 (get_or dflashData 0x503 0x00)] in
  Uint8Array_set eepromData configData configOffset.

(** One turn of the checksum loop; an index outside the array reads
    [undefined], the sum becomes [NaN] and [NaN & 0xFFFFFFFF] is 0. *)
Definition checksum_step (eepromData : bytes) (checksum i : Z) : Z :=
  match get eepromData i with
  | Some b => bitand (checksum + u8 b) 0xFFFFFFFF
  | None => 0
  end.

Definition calculateChecksums (eepromData : bytes) : result bytes :=
  let checksum :=
    fold_left (checksum_step eepromData) (seqZ 0 (EEPROM_SIZE - 4)) 0 in
  DataView_setUint32_LE eepromData (EEPROM_SIZE - 4) checksum.

Definition size_error (actual : Z) : string :=
  ("Invalid D-Flash size. Expected " ++ dec DFLASH_SIZE ++ " bytes, got "
     ++ dec actual ++ " bytes")%string.

Definition convertDFlashToEEPROM (dflashData : bytes) : ConversionResult :=
  if negb (len dflashData =? DFLASH_SIZE) then
    {| success := false; eepromData := None;
       error := Some (size_error (len dflashData)); vehicleData := None |}
  else
    match
      (let eepromData := filled EEPROM_SIZE xff in
       vehicleData ← extractVehicleData dflashData;
       e ← writeEEPROMHeader eepromData;
       e ← writeVehicleData e vehicleData;
       e ← writeConfigurationData e dflashData;
       e ← calculateChecksums e;
       Ok (e, vehicleData))
    with
    | Ok (e, vd) =>
        {| success := true; eepromData := Some e; error := None;
           vehicleData := Some vd |}
    | Throw err =>
        {| success := false; eepromData := None;
           error := Some (message err); vehicleData := None |}
    end.

Definition signatures : list (jsstring * string) :=
  [(lit "XEQ384", "FRM3 XEQ384"%string);
   (lit "XET512", "FRM3 XET512"%string);
   (lit "FRM2", "FRM2"%string)].

Definition detectFRMType (dflashData : bytes) : string :=
  let dataString := TextDecoder_ascii dflashData in
  default "FRM3 Unknown"%string
    (first_some
       (fun sig : jsstring * string =>
          if includes dataString sig.1 then Some sig.2 else None)
       signatures).

(** A sector holds meaningful data when it is neither all 0x00 nor all
    0xFF. *)
Definition sector_recoverable (dflashData : bytes) (sectorSize sector : Z)
  : bool :=
  let start := sector * sectorSize in
  let end_ := Z.min (start + sectorSize) (len dflashData) in
  let sectorData := slice dflashData start end_ in
  let allZeros := every (fun b => bool_decide (b = x00)) sectorData in
  let allOnes := every (fun b => bool_decide (b = xff)) sectorData in
  negb allZeros && negb allOnes.

Definition analyzeDFlashCorruption (dflashData : bytes) : CorruptionReport :=
  let sectorSize := 1024 in
  let totalSectors := len dflashData / sectorSize in
  let recoverableSectors :=
    fold_left
      (fun recoverable sector =>
         if sector_recoverable dflashData sectorSize sector
         then recoverable + 1 else recoverable)
      (seqZ 0 totalSectors) 0 in
  let corruptionLevel :=
    Math_round
      (PrimFloat.mul
         (PrimFloat.div (of_Z recoverableSectors) (of_Z totalSectors))
         (of_Z 100)) in
  {| corruptionLevel := corruptionLevel;
     recoverableSectors := recoverableSectors;
     totalSectors := totalSectors |}.

End FrmConverter.

(** ** The server-side helpers ([server/routes.ts], bundled in [dist/index.js]) *)

Module Server.
Import Js.

Record ConversionResult := {
  success : bool;
  eepromData : option bytes;
  error : option string
}.

Record ConfigurationData := {
  xenonHeadlights : bool;
  angelEyes : bool;
  autoWipers : bool;
  comfortAccess : bool;
  followMeHome : Z
}.

Record VehicleData := {
  vin : option jsstring;
  model : option string;
  year : option Z;
  mileage : option Z
}.

(** What [analyzeCorruption] returns. *)
Record CorruptionAnalysis := {
  corruptionLevel : number;
  recoverableSectors : Z
}.

(** What [analyzeDFlash] returns; in the source [frmType] is a further
    field of the [vehicleData] object. *)
Record Analysis := {
  analysis_corruptionLevel : number;
  analysis_recoverableSectors : Z;
  totalSectors : Z;
  vehicleData : VehicleData;
  frmType : string;
  configurationData : ConfigurationData
}.

(** [Buffer.from(s, "ascii")] and [Buffer.from(s)] of a string. *)
Definition Buffer_from_ascii (s : jsstring) : bytes := to_u8 <$> s.
Definition Buffer_from (s : jsstring) : bytes := TextEncoder_encode s.

(** [signature2] is computed and never read. *)
Definition detectFrmType (data : bytes) : string :=
  let signature1 := slice data 256 272 in
  let signature2 := slice data 512 528 in
  if includes signature1 (Buffer_from_ascii (lit "XEQ384")) then "FRM3 XEQ384"
  else if includes signature1 (Buffer_from_ascii (lit "XET512")) then "FRM3 XET512"
  else if len data =? 32768 then "FRM3 Unknown"
  else "FRM2".

(** Body of the loop of [extractVin]. *)
Definition vin_at (data : bytes) (offset : Z) : option jsstring :=
  let potential := toString_ascii (slice data offset (offset + 17)) in
  if vin_regex_test potential then Some potential else None.

Definition extractVin (data : bytes) : option jsstring :=
  first_some (vin_at data) (range 4096 8192 16).

Definition extractModel (data : bytes) : option string :=
  match extractVin data with
  | Some vin =>
      if truthy_string vin then
        let wmi := substring vin 0 3 in
        let vds := substring vin 3 8 in
        if bool_decide (wmi = lit "WBA") then Some "BMW 3 Series"%string
        else if bool_decide (wmi = lit "WBY") then Some "BMW X3"%string
        else if bool_decide (wmi = lit "5UX") then Some "BMW X3 US"%string
        else None
      else None
  | None => None
  end.

Definition yearMap : gmap jsstring Z :=
  list_to_map
    [(lit "1", 2001); (lit "2", 2002); (lit "3", 2003); (lit "4", 2004);
     (lit "5", 2005); (lit "6", 2006); (lit "7", 2007); (lit "8", 2008);
     (lit "9", 2009); (lit "A", 2010); (lit "B", 2011); (lit "C", 2012);
     (lit "D", 2013); (lit "E", 2014); (lit "F", 2015)].

(** [yearMap[yearChar] || null]: every entry of the table is non-zero,
    hence truthy. *)
Definition extractYear (data : bytes) : option Z :=
  match extractVin data with
  | Some vin =>
      if truthy_string vin then
        let yearChar := charAt vin 9 in
        yearMap !! yearChar
      else None
  | None => None
  end.

Definition plausible (v : Z) : bool := (0 <? v) && (v <? 1000000).

(** Body of the loop of [extractMileage]. *)
Definition mileage_at (data : bytes) (offset : Z) : result (option Z) :=
  value ← readUInt32LE data offset;
  if plausible value then Ok (Some value) else Ok None.

Definition extractMileage (data : bytes) : result (option Z) :=
  first_someM (mileage_at data) (range 8192 12288 4).

Definition extractVehicleData (data : bytes) (frmType : string)
  : result VehicleData :=
  let v := extractVin data in
  let mo := extractModel data in
  let y := extractYear data in
  m ← extractMileage data;
  Ok {| vin := v; model := mo; year := y; mileage := m |}.

(** [data[i] & mask]: an index outside the buffer reads [undefined],
    which [&] turns into 0. *)
Definition bits (data : bytes) (i mask : Z) : Z :=
  match get data i with
  | Some b => bitand (u8 b) mask
  | None => 0
  end.

Definition extractConfigurationData (data : bytes) : ConfigurationData :=
  {| xenonHeadlights := negb (bits data 1280 1 =? 0);
     angelEyes := negb (bits data 1280 2 =? 0);
     autoWipers := negb (bits data 1281 1 =? 0);
     comfortAccess := negb (bits data 1281 2 =? 0);
     followMeHome := get_or data 1282 0 |}.

Definition extractConfigurationFromDFlash (data : bytes) : ConfigurationData :=
  extractConfigurationData data.

(** [JSON.stringify] of a configuration object: the keys in insertion
    order, no white space. *)
Definition dq : string := String "034"%char EmptyString.

Definition json_bool (k : string) (b : bool) : string :=
  (dq ++ k ++ dq ++ ":" ++ (if b then "true" else "false"))%string.

Definition JSON_stringify (config : ConfigurationData) : jsstring :=
  lit ("{" ++ json_bool "xenonHeadlights" (xenonHeadlights config)
       ++ "," ++ json_bool "angelEyes" (angelEyes config)
       ++ "," ++ json_bool "autoWipers" (autoWipers config)
       ++ "," ++ json_bool "comfortAccess" (comfortAccess config)
       ++ "," ++ dq ++ "followMeHome" ++ dq ++ ":"
       ++ dec (followMeHome config) ++ "}")%string.

(** One turn of the sector loop of [analyzeCorruption], on the pair
    [(corruptedBytes, recoverableSectors)]. *)
Definition sector_step (data : bytes) (acc : Z * Z) (sector : Z) : Z * Z :=
  let start := sector * 1024 in
  let end_ := start + 1024 in
  let sectorData := slice data start end_ in
  let allFF := every (fun b => bool_decide (b = xff)) sectorData in
  let all00 := every (fun b => bool_decide (b = x00)) sectorData in
  if allFF || all00 then (acc.1 + 1024, acc.2) else (acc.1, acc.2 + 1).

Definition analyzeCorruption (data : bytes) : CorruptionAnalysis :=
  let acc := fold_left (sector_step data) (seqZ 0 32) (0, 0) in
  let corruptedBytes := acc.1 in
  let recoverableSectors := acc.2 in
  let corruptionLevel :=
    PrimFloat.mul (PrimFloat.div (of_Z corruptedBytes) (of_Z (len data)))
      (of_Z 100) in
  {| corruptionLevel := Math_round (PrimFloat.sub (of_Z 100) corruptionLevel);
     recoverableSectors := recoverableSectors |}.

(** The loop index stays inside the buffer, so the read is never
    [undefined]. *)
Definition checksum_step (eepromData : bytes) (checksum i : Z) : Z :=
  match get eepromData i with
  | Some b => checksum + u8 b
  | None => checksum
  end.

Definition calculateEepromChecksums (eepromData : bytes) : result bytes :=
  let checksum :=
    fold_left (checksum_step eepromData) (seqZ 0 (len eepromData - 4)) 0 in
  writeUInt32LE eepromData (bitand checksum 4294967295) (len eepromData - 4).

Definition convertDFlashToEEPROM (dflashData : bytes) : ConversionResult :=
  match
    (let eepromData := filled 4096 x00 in
     let vin := extractVin dflashData in
     let eepromData :=
       match vin with
       | Some v =>
           if truthy_string v then Buffer_write_ascii eepromData v 16
           else eepromData
       | None => eepromData
       end in
     mileage ← extractMileage dflashData;
     eepromData ← match mileage with
                  | Some m => writeUInt32LE eepromData m 48
                  | None => Ok eepromData
                  end;
     let config := extractConfigurationFromDFlash dflashData in
     let configBuffer := Buffer_from (JSON_stringify config) in
     let eepromData :=
       Buffer_copy configBuffer eepromData 256
         (Z.min (len configBuffer) 1024) in
     calculateEepromChecksums eepromData)
  with
  | Ok e => {| success := true; eepromData := Some e; error := None |}
  | Throw err =>
      {| success := false; eepromData := None;
         error := Some (if String.eqb (message err) ""
                        then "Failed to convert D-Flash to EEPROM"%string
                        else message err) |}
  end.

Definition analyzeDFlash (data : bytes) : result Analysis :=
  match
    (let frmType := detectFrmType data in
     vehicleData ← extractVehicleData data frmType;
     let corruptionAnalysis := analyzeCorruption data in
     Ok {| analysis_corruptionLevel := corruptionLevel corruptionAnalysis;
           analysis_recoverableSectors := recoverableSectors corruptionAnalysis;
           totalSectors := 32;
           vehicleData := vehicleData;
           frmType := frmType;
           configurationData := extractConfigurationData data |})
  with
  | Ok a => Ok a
  | Throw _ => Throw (Error "Failed to analyze D-Flash data")
  end.

End Server.

(** ** The notions of the specification *)

Module Spec.
Import Js.

(** Sum of the bytes of a buffer, as unsigned integers. *)
Definition sum_bytes (l : bytes) : Z := foldr (fun b s => u8 b + s) 0 l.

(** The additive checksum of a target image: the bytes at offsets
    [0, 4092), summed modulo 2^32. *)
Definition additive_checksum (e : bytes) : Z :=
  sum_bytes (slice e 0 4092) mod 2 ^ 32.

(** The little-endian and big-endian unsigned 32-bit integers at offset
    [o] (0 when fewer than four bytes are there). *)
Definition uint32_le (a : bytes) (o : Z) : Z :=
  match slice a o (o + 4) with
  | [b0; b1; b2; b3] => le_value b0 b1 b2 b3
  | _ => 0
  end.

Definition uint32_be (a : bytes) (o : Z) : Z :=
  match slice a o (o + 4) with
  | [b0; b1; b2; b3] => le_value b3 b2 b1 b0
  | _ => 0
  end.

(** The value stored in the final four bytes of a target image. *)
Definition stored_checksum (e : bytes) : Z := uint32_le e 4092.

(** The identifier alphabet: A-H, J-N, P, R-Z and the digits. *)
Definition alphabet : jsstring := lit "ABCDEFGHJKLMNPRSTUVWXYZ0123456789".

(** An identifier code: 17 characters of the alphabet. *)
Definition identifier (s : jsstring) : Prop :=
  length s = 17%nat /\ Forall (fun c => c ∈ alphabet) s.

(** A plausible odometer value. *)
Definition plausible (v : Z) : Prop := 0 < v < 1000000.

(** Sector [k] of a source image, and its classification. *)
Definition sector (d : bytes) (k : Z) : bytes :=
  slice d (1024 * k) (1024 * k + 1024).

Definition blank (s : bytes) : bool :=
  forallb (fun b => bool_decide (b = x00)) s
  || forallb (fun b => bool_decide (b = xff)) s.

Definition meaningful_sectors (d : bytes) : Z :=
  len (List.filter (fun k => negb (blank (sector d k))) (seqZ 0 32)).

(** [round(100 * r / total)] for [0 <= r] and [0 < total]: the nearest
    integer, a tie going up. *)
Definition percent (r total : Z) : Z := (200 * r + total) / (2 * total).

(** The image of 32768 bytes all equal to [b]. *)
Definition uniform (b : byte) : bytes := replicate (Z.to_nat 32768) b.
End Spec.

(** ** The target images as compositions of writes

    [client_image] and [server_image] spell out the buffer each
    [convertDFlashToEEPROM] returns for a source of 32768 bytes, given
    the identifier and the odometer value that were extracted; the lemmas
    [client_convert_image] and [server_convert_image] below prove that. *)

Module Image.
Import Js.

Definition with_checksum (e : bytes) : bytes :=
  write_at e 4092 (le_bytes (Spec.additive_checksum e)).

(** The identifier at 0x10 and the odometer value at 0x30, each only
    when present. *)
Definition with_vehicle (e : bytes) (v : option jsstring) (m : option Z)
  : bytes :=
  let e := match v with
           | Some s => write_at e 0x10 (to_u8 <$> s)
           | None => e
           end in
  match m with
  | Some x => write_at e 0x30 (le_bytes x)
  | None => e
  end.

(** The client's configuration block: four bytes. *)
Definition client_config (d : bytes) : bytes :=
  [to_u8 (get_or d 0x500 0x00); to_u8 (get_or d 0x501 0x00);
   to_u8 (get_or d 0x502 0x1E); to_u8 (get_or d 0x503 0x00)].

Definition client_fields (v : option jsstring) (m : option Z) (d : bytes)
  : bytes :=
  write_at
    (with_vehicle (write_at (filled 4096 xff) 0 FrmConverter.header) v m)
    0x100 (client_config d).

Definition client_image (v : option jsstring) (m : option Z) (d : bytes)
  : bytes :=
  with_checksum (client_fields v m d).

(** The server's configuration block: the bytes of the JSON text that
    [copy] transfers, at most 1024 of them. *)
Definition server_config (d : bytes) : bytes :=
  let configBuffer :=
    Server.Buffer_from
      (Server.JSON_stringify (Server.extractConfigurationFromDFlash d)) in
  take (Z.to_nat (4096 - 256))
    (slice configBuffer 0 (Z.min (len configBuffer) 1024)).

Definition server_fields (v : option jsstring) (m : option Z) (d : bytes)
  : bytes :=
  write_at (with_vehicle (filled 4096 x00) v m) 0x100 (server_config d).

Definition server_image (v : option jsstring) (m : option Z) (d : bytes)
  : bytes :=
  with_checksum (server_fields v m d).
End Image.

(** ** The scans, offset by offset

    The candidate each extractor examines at an offset, the offsets it
    visits, and its loop body as a function of the candidate. *)

Module Scan.
Import Js.

Definition client_candidate (d : bytes) (off : Z) : jsstring :=
  TextDecoder_ascii (slice d off (off + 17)).

Definition server_candidate (d : bytes) (off : Z) : jsstring :=
  toString_ascii (slice d off (off + 17)).

Definition client_vin_offsets : list Z := FrmConverter.VIN_PATTERNS.*1.
Definition server_vin_offsets : list Z := range 4096 8192 16.
Definition server_mileage_offsets : list Z := range 8192 12288 4.

Definition accept (candidate : Z -> jsstring) (off : Z) : option jsstring :=
  if vin_regex_test (candidate off) then Some (candidate off) else None.

(** The two signature windows and the markers looked for in them. *)
Definition window1 (d : bytes) : bytes := slice d 256 272.
Definition window2 (d : bytes) : bytes := slice d 512 528.
Definition XEQ384 : bytes := Server.Buffer_from_ascii (lit "XEQ384").
Definition XET512 : bytes := Server.Buffer_from_ascii (lit "XET512").
Definition FRM2 : bytes := Server.Buffer_from_ascii (lit "FRM2").

Definition has_marker (w : bytes) : bool :=
  includes w XEQ384 || includes w XET512.

(** The odometer loop bodies on the decoded values. *)
Definition server_mileage (d : bytes) (off : Z) : option Z :=
  if Server.plausible (Spec.uint32_le d off)
  then Some (Spec.uint32_le d off) else None.

Definition client_mileage (d : bytes) (off : Z) : option Z :=
  if FrmConverter.plausible (Spec.uint32_le d off)
  then Some (Spec.uint32_le d off)
  else if FrmConverter.plausible (Spec.uint32_be d off)
  then Some (Spec.uint32_be d off)
  else None.
End Scan.

(** ** Sample images *)

Module Sample.
Import Js.

Definition ascii_bytes (s : string) : bytes := to_u8 <$> lit s.

(** An erased image holding the identifier of the specification's
    example at offset 0x1000. *)
Definition vin_image : bytes :=
  write_at (Spec.uniform xff) 0x1000 (ascii_bytes "WBA12345678901234").

(** One sector of 0x42 bytes: not a source image. *)
Definition one_sector : bytes := replicate 1024 x42.

(** 12288 zero bytes: not a source image either. *)
Definition zero_12k : bytes := replicate (Z.to_nat 12288) x00.

(** The same identifier one byte further, at 0x1001. *)
Definition shifted_vin_image : bytes :=
  write_at (Spec.uniform xff) 0x1001 (ascii_bytes "WBA12345678901234").
(** An erased image with 123456 stored big-endian at 0x2100: read
    little-endian, the four bytes give 1088553216. *)
Definition be_mileage_image : bytes :=
  write_at (Spec.uniform xff) 0x2100 [x00; x01; xe2; x40].

(** An erased image with 123456 stored little-endian at 0x2100. *)
Definition le_mileage_image : bytes :=
  write_at (Spec.uniform xff) 0x2100 (le_bytes 123456).
(** An erased image holding at 0x1000 an identifier whose prefix WBX is
    in the client's table and not among the server's three. *)
Definition x1_vin_image : bytes :=
  write_at (Spec.uniform xff) 0x1000 (ascii_bytes "WBX12345678901234").

(** An erased image with the marker XEQ384 at offset 0, outside both
    signature windows. *)
Definition marker_at_start : bytes :=
  write_at (Spec.uniform xff) 0 (ascii_bytes "XEQ384").

(** An erased image with the marker XEQ384 at offset 0x200, the start of
    the second signature window. *)
Definition marker_in_second_window : bytes :=
  write_at (Spec.uniform xff) 0x200 (ascii_bytes "XEQ384").

(** An erased image with the marker XET512 at offset 0x100, the start of
    the first signature window. *)
Definition marker_in_first_window : bytes :=
  write_at (Spec.uniform xff) 0x100 (ascii_bytes "XET512").

(** An erased image with seventeen bytes 0xC1 at 0x1000: 0xC1 is the
    code of [A] with the top bit set, and no character of the
    alphabet. *)
Definition top_bit_image : bytes :=
  write_at (Spec.uniform xff) 0x1000 (replicate 17 xc1).

(** The identifier at 0x1001, where no scan looks, and seventeen bytes
    0xC1 at 0x1100, where the server's scan does. *)
Definition shifted_vin_top_bit_image : bytes :=
  write_at shifted_vin_image 0x1100 (replicate 17 xc1).
End Sample.

(** ** Further runtime pieces: text, number parsing and [Map] *)

Module Text.
Import Js.

(** White space and line terminators: what [trim] strips, what [\s]
    matches in a regular expression and what [parseInt] skips. *)
Definition is_space (c : Z) : bool :=
  ((0x09 <=? c) && (c <=? 0x0D)) || (c =? 0x20) || (c =? 0xA0)
  || (c =? 0x1680) || ((0x2000 <=? c) && (c <=? 0x200A))
  || (c =? 0x2028) || (c =? 0x2029) || (c =? 0x202F) || (c =? 0x205F)
  || (c =? 0x3000) || (c =? 0xFEFF).

Fixpoint drop_while {A} (p : A -> bool) (l : list A) : list A :=
  match l with
  | [] => []
  | x :: l' => if p x then drop_while p l' else l
  end.

Definition trim (s : jsstring) : jsstring :=
  reverse (drop_while is_space (reverse (drop_while is_space s))).

Definition startsWith (s prefix : jsstring) : bool := starts_with prefix s.

Definition endsWith (s suffix : jsstring) : bool :=
  starts_with (reverse suffix) (reverse s).

(** [s.split(sep)] for a separator of one code unit. *)
Fixpoint split (sep : Z) (s : jsstring) : list jsstring :=
  match s with
  | [] => [[]]
  | c :: s' =>
      if c =? sep then [] :: split sep s'
      else match split sep s' with
           | l :: ls => (c :: l) :: ls
           | [] => [[c]]
           end
  end.

Definition hex_digit (c : Z) : option Z :=
  if (0x30 <=? c) && (c <=? 0x39) then Some (c - 0x30)
  else if (0x41 <=? c) && (c <=? 0x46) then Some (c - 0x41 + 10)
  else if (0x61 <=? c) && (c <=? 0x66) then Some (c - 0x61 + 10)
  else None.

(** The value of the longest prefix of hexadecimal digits, [None] when
    there is no digit. *)
Fixpoint hex_prefix (s : jsstring) (acc : option Z) : option Z :=
  match s with
  | [] => acc
  | c :: s' =>
      match hex_digit c with
      | Some d => hex_prefix s' (Some (16 * default 0 acc + d))
      | None => acc
      end
  end.

(** [parseInt(s, 16)]: leading white space, a sign and a [0x] prefix are
    skipped, the digits that follow are read and the rest is ignored;
    [NaN] is [None]. The numbers read here have two digits, so no
    rounding to a double occurs. *)
Definition parseInt16 (s : jsstring) : option Z :=
  let s := drop_while is_space s in
  let sign := match s with
              | c :: _ => if c =? 0x2D then -1 else 1
              | [] => 1
              end in
  let s := match s with
           | c :: s' => if (c =? 0x2D) || (c =? 0x2B) then s' else s
           | [] => s
           end in
  let s := match s with
           | z :: x :: s' =>
               if (z =? 0x30) && ((x =? 0x78) || (x =? 0x58)) then s' else s
           | _ => s
           end in
  (fun v => sign * v) <$> hex_prefix s None.

(** Case folding of a regular expression with the flag [i] and without
    the flag [u]: a code unit is compared through its upper case, and a
    unit outside ASCII is never folded onto an ASCII one. On the ASCII
    letters of a pattern this is [upper]. *)
Definition upper (c : Z) : Z :=
  if (0x61 <=? c) && (c <=? 0x7A) then c - 0x20 else c.

(** [toLowerCase] on ASCII. The full case mapping of Unicode is not
    modelled: a function whose source calls [s.toLowerCase()] takes the
    mapping as an argument, and [lowers_ascii] is what the theorems ask
    of it. *)
Definition lower (c : Z) : Z :=
  if (0x41 <=? c) && (c <=? 0x5A) then c + 0x20 else c.

Definition is_ascii (s : jsstring) : Prop := Forall (fun c => 0 <= c < 128) s.

Definition lowers_ascii (toLowerCase : jsstring -> jsstring) : Prop :=
  forall s, is_ascii s -> toLowerCase s = lower <$> s.

End Text.

(** A [Map] keyed by strings: its entries in insertion order. [set] on a
    key that is present replaces the value in place. *)
Module JsMap.
Import Js.

Abbreviation Map V := (list (jsstring * V)) (only parsing).

Fixpoint get {V} (m : Map V) (k : jsstring) : option V :=
  match m with
  | [] => None
  | (k', v) :: m' => if bool_decide (k' = k) then Some v else get m' k
  end.

Fixpoint set {V} (m : Map V) (k : jsstring) (v : V) : Map V :=
  match m with
  | [] => [(k, v)]
  | (k', v') :: m' =>
      if bool_decide (k' = k) then (k', v) :: m' else (k', v') :: set m' k v
  end.

Definition values {V} (m : Map V) : list V := m.*2.

End JsMap.

(** ** The record types of [shared/schema.ts] *)

Module Schema.
Import Js.

Module User.
Record t := {
  id : jsstring;
  username : jsstring;
  password : jsstring
}.
End User.

Module InsertUser.
Record t := {
  username : jsstring;
  password : jsstring
}.
End InsertUser.

(** A row of [frm_repairs]; [None] is [null]. [createdAt] is a time in
    milliseconds. *)
Module FrmRepair.
Record t := {
  id : jsstring;
  filename : jsstring;
  fileSize : Z;
  frmType : string;
  vin : option jsstring;
  mileage : option Z;
  repairStatus : string;
  analysisData : option jsstring;
  originalData : option bytes;
  repairedData : option bytes;
  createdAt : option Z
}.
End FrmRepair.

(** The insert object, with every key present as the one caller passes
    it. *)
Module InsertFrmRepair.
Record t := {
  filename : jsstring;
  fileSize : Z;
  frmType : string;
  repairStatus : string;
  originalData : option bytes;
  repairedData : option bytes;
  analysisData : option jsstring;
  vin : option jsstring;
  mileage : option Z
}.
End InsertFrmRepair.

(** [Partial<FrmRepair>]: [None] is a key that the object does not
    have. *)
Module PartialFrmRepair.
Record t := {
  id : option jsstring;
  filename : option jsstring;
  fileSize : option Z;
  frmType : option string;
  vin : option (option jsstring);
  mileage : option (option Z);
  repairStatus : option string;
  analysisData : option (option jsstring);
  originalData : option (option bytes);
  repairedData : option (option bytes);
  createdAt : option (option Z)
}.

(** The object with no key. *)
Definition empty : t :=
  {| id := None; filename := None; fileSize := None; frmType := None;
     vin := None; mileage := None; repairStatus := None;
     analysisData := None; originalData := None; repairedData := None;
     createdAt := None |}.
End PartialFrmRepair.

End Schema.

(** ** The in-memory store ([server/storage.ts]) *)

Module Storage.
Import Js Schema.

Record MemStorage := {
  users : JsMap.Map User.t;
  frmRepairs : JsMap.Map FrmRepair.t
}.

(** [new MemStorage()]. *)
Definition new : MemStorage := {| users := []; frmRepairs := [] |}.

Definition getUser (this : MemStorage) (id : jsstring) : option User.t :=
  JsMap.get (users this) id.

Definition getUserByUsername (this : MemStorage) (username : jsstring)
  : option User.t :=
  List.find (fun user => bool_decide (User.username user = username))
    (JsMap.values (users this)).

(** [randomUUID()] and [new Date()] are inputs: what the runtime draws
    is passed as [uuid] and [now]. *)
Definition createUser (this : MemStorage) (uuid : jsstring)
    (insertUser : InsertUser.t) : MemStorage * User.t :=
  let id := uuid in
  let user := {| User.id := id;
                 User.username := InsertUser.username insertUser;
                 User.password := InsertUser.password insertUser |} in
  ({| users := JsMap.set (users this) id user;
      frmRepairs := frmRepairs this |}, user).

Definition getFrmRepair (this : MemStorage) (id : jsstring)
  : option FrmRepair.t :=
  JsMap.get (frmRepairs this) id.

Definition createFrmRepair (this : MemStorage) (uuid : jsstring) (now : Z)
    (insertRepair : InsertFrmRepair.t) : MemStorage * FrmRepair.t :=
  let id := uuid in
  let repair :=
    {| FrmRepair.id := id;
       FrmRepair.filename := InsertFrmRepair.filename insertRepair;
       FrmRepair.fileSize := InsertFrmRepair.fileSize insertRepair;
       FrmRepair.frmType := InsertFrmRepair.frmType insertRepair;
       FrmRepair.vin := InsertFrmRepair.vin insertRepair;
       FrmRepair.mileage := InsertFrmRepair.mileage insertRepair;
       FrmRepair.repairStatus := InsertFrmRepair.repairStatus insertRepair;
       FrmRepair.analysisData := InsertFrmRepair.analysisData insertRepair;
       FrmRepair.originalData := InsertFrmRepair.originalData insertRepair;
       FrmRepair.repairedData := InsertFrmRepair.repairedData insertRepair;
       FrmRepair.createdAt := Some now |} in
  ({| users := users this;
      frmRepairs := JsMap.set (frmRepairs this) id repair |}, repair).

(** [{ ...existing, ...updates }]: a key of [updates] wins. *)
Definition spread (existing : FrmRepair.t) (updates : PartialFrmRepair.t)
  : FrmRepair.t :=
  {| FrmRepair.id :=
       default (FrmRepair.id existing) (PartialFrmRepair.id updates);
     FrmRepair.filename :=
       default (FrmRepair.filename existing)
         (PartialFrmRepair.filename updates);
     FrmRepair.fileSize :=
       default (FrmRepair.fileSize existing)
         (PartialFrmRepair.fileSize updates);
     FrmRepair.frmType :=
       default (FrmRepair.frmType existing)
         (PartialFrmRepair.frmType updates);
     FrmRepair.vin :=
       default (FrmRepair.vin existing) (PartialFrmRepair.vin updates);
     FrmRepair.mileage :=
       default (FrmRepair.mileage existing)
         (PartialFrmRepair.mileage updates);
     FrmRepair.repairStatus :=
       default (FrmRepair.repairStatus existing)
         (PartialFrmRepair.repairStatus updates);
     FrmRepair.analysisData :=
       default (FrmRepair.analysisData existing)
         (PartialFrmRepair.analysisData updates);
     FrmRepair.originalData :=
       default (FrmRepair.originalData existing)
         (PartialFrmRepair.originalData updates);
     FrmRepair.repairedData :=
       default (FrmRepair.repairedData existing)
         (PartialFrmRepair.repairedData updates);
     FrmRepair.createdAt :=
       default (FrmRepair.createdAt existing)
         (PartialFrmRepair.createdAt updates) |}.

Definition updateFrmRepair (this : MemStorage) (id : jsstring)
    (updates : PartialFrmRepair.t) : MemStorage * option FrmRepair.t :=
  match JsMap.get (frmRepairs this) id with
  | None => (this, None)
  | Some existing =>
      let updated := spread existing updates in
      ({| users := users this;
          frmRepairs := JsMap.set (frmRepairs this) id updated |},
       Some updated)
  end.

(** The invariant of the repairs: one entry per identifier, each under
    the identifier it carries. *)
Definition well_keyed (this : MemStorage) : Prop :=
  NoDup (frmRepairs this).*1
  /\ forall k r, (k, r) ∈ frmRepairs this -> FrmRepair.id r = k.

Definition getFrmRepairsByStatus (this : MemStorage) (status : string)
  : list FrmRepair.t :=
  List.filter (fun repair => bool_decide (FrmRepair.repairStatus repair = status))
    (JsMap.values (frmRepairs this)).

End Storage.

(** ** The request handlers ([server/routes.ts])

    A handler takes the store and the request and returns the store and
    the response; the identifier and the time that [createFrmRepair]
    draws are inputs. Console output is not modelled. The status route
    ([GET /api/frm/:id]) parses the stored JSON text back and is left
    out. *)

Module Routes.
Import Js Schema.

(** The file part of an upload request, which is [req.file] once the
    upload middleware has let it pass: its name and its bytes. *)
Record File := {
  originalname : jsstring;
  buffer : bytes
}.

Inductive body : Type :=
| error_json (error : option string)
| message_json (message : string)
| upload_json (repairId : jsstring) (analysis : Server.Analysis)
| convert_json (message : string) (eepromSize : Z)
| attachment (contentDisposition : jsstring) (contentLength : Z)
    (data : bytes).

Record response := {
  status : Z;
  content : body
}.

Definition allowedExtensions : list jsstring :=
  [lit ".bin"; lit ".hex"; lit ".eep"].

(** The [fileFilter] of the upload middleware: [cb(null, true)] is
    [Ok], [cb(new Error(...))] is [Throw]. *)
Definition fileFilter (toLowerCase : jsstring -> jsstring) (file : File)
  : result unit :=
  let hasValidExtension :=
    existsb (fun ext => Text.endsWith (toLowerCase (originalname file)) ext)
      allowedExtensions in
  if hasValidExtension then Ok tt
  else Throw (Error
    "Invalid file type. Only .bin, .hex, and .eep files are allowed.").

(** [JSON.stringify] of a number that [Math.round] returned: an integer
    is written in decimal, [-0] as [0], and [NaN] and the infinities as
    [null]. *)
Definition JSON_number (x : number) : string :=
  match Prim2SF x with
  | S754_zero _ => "0"
  | S754_finite s m e =>
      dec ((if s then -1 else 1) * Z.shiftl (Z.pos m) e)
  | _ => "null"
  end.

Definition json_key (k : string) : jsstring :=
  lit (Server.dq ++ k ++ Server.dq ++ ":")%string.

(** A string between quotes; no string that reaches it needs an
    escape. *)
Definition json_string (s : jsstring) : jsstring :=
  lit Server.dq ++ s ++ lit Server.dq.

Definition json_nullable {A} (f : A -> jsstring) (o : option A) : jsstring :=
  match o with
  | Some a => f a
  | None => lit "null"
  end.

(** [JSON.stringify(analysis)]: the keys in insertion order, with
    [frmType] last in [vehicleData]. *)
Definition JSON_stringify (analysis : Server.Analysis) : jsstring :=
  let v := Server.vehicleData analysis in
  lit "{" ++ json_key "corruptionLevel"
  ++ lit (JSON_number (Server.analysis_corruptionLevel analysis))
  ++ lit "," ++ json_key "recoverableSectors"
  ++ lit (dec (Server.analysis_recoverableSectors analysis))
  ++ lit "," ++ json_key "totalSectors"
  ++ lit (dec (Server.totalSectors analysis))
  ++ lit "," ++ json_key "vehicleData" ++ lit "{"
  ++ json_key "vin" ++ json_nullable json_string (Server.vin v)
  ++ lit "," ++ json_key "model"
  ++ json_nullable (fun s => json_string (lit s)) (Server.model v)
  ++ lit "," ++ json_key "year"
  ++ json_nullable (fun y => lit (dec y)) (Server.year v)
  ++ lit "," ++ json_key "mileage"
  ++ json_nullable (fun m => lit (dec m)) (Server.mileage v)
  ++ lit "," ++ json_key "frmType"
  ++ json_string (lit (Server.frmType analysis)) ++ lit "}"
  ++ lit "," ++ json_key "configurationData"
  ++ Server.JSON_stringify (Server.configurationData analysis)
  ++ lit "}".

Definition size_error (actual : Z) : string :=
  ("Invalid file size. Expected 32KB D-Flash dump, got " ++ dec actual
     ++ " bytes")%string.

(** [error.message || fallback]. *)
Definition message_or (e : thrown) (fallback : string) : string :=
  if String.eqb (message e) "" then fallback else message e.

(** The limit [fileSize] of the upload middleware. *)
Definition fileSize : Z := 64 * 1024.

(** The size test of [multer] is its parser's: it lets a file below the
    limit pass and refuses a file above it, and what it does with a
    file of exactly [fileSize] bytes depends on the version of the
    parser. [over_limit] stands for that test. *)
Definition limits_fileSize (over_limit : Z -> bool) : Prop :=
  forall size,
    (size < fileSize -> over_limit size = false)
    /\ (fileSize < size -> over_limit size = true).

(** [upload.single("file")]: a request without a file part goes on
    without [req.file]; a file part is first shown to [fileFilter] and
    then read up to the limit, and either can fail, with the filter's
    error or with the [MulterError] for [LIMIT_FILE_SIZE] (an [Error]
    whose message is the one below). *)
Definition upload_single (toLowerCase : jsstring -> jsstring)
    (over_limit : Z -> bool) (part : option File) : result (option File) :=
  match part with
  | None => Ok None
  | Some file =>
      _ ← fileFilter toLowerCase file;
      if over_limit (len (buffer file)) then Throw (Error "File too large")
      else Ok (Some file)
  end.

(** The error-handling middleware of [server/index.ts], for an error
    that carries neither [status] nor [statusCode]:
    [res.status(500).json({ message })]. *)
Definition error_middleware (err : thrown) : response :=
  {| status := 500;
     content := message_json (message_or err "Internal Server Error") |}.

(** The handler of [POST /api/frm/upload], given [req.file]. *)
Definition upload_handler (storage : Storage.MemStorage) (uuid : jsstring)
    (now : Z) (file : option File) : Storage.MemStorage * response :=
  match file with
  | None =>
      (storage,
       {| status := 400; content := error_json (Some "No file uploaded"%string) |})
  | Some file =>
      let fileBuffer := buffer file in
      if negb (len fileBuffer =? 32768) then
        (storage,
         {| status := 400;
            content := error_json (Some (size_error (len fileBuffer))) |})
      else
        let repairData :=
          {| InsertFrmRepair.filename := originalname file;
             InsertFrmRepair.fileSize := len fileBuffer;
             InsertFrmRepair.frmType := "Unknown";
             InsertFrmRepair.repairStatus := "analyzing";
             InsertFrmRepair.originalData := Some fileBuffer;
             InsertFrmRepair.repairedData := None;
             InsertFrmRepair.analysisData := None;
             InsertFrmRepair.vin := None;
             InsertFrmRepair.mileage := None |} in
        let (storage, repair) :=
          Storage.createFrmRepair storage uuid now repairData in
        match Server.analyzeDFlash fileBuffer with
        | Throw e =>
            (storage,
             {| status := 500;
                content :=
                  error_json (Some (message_or e "Failed to process file")) |})
        | Ok analysis =>
            let v := Server.vehicleData analysis in
            let updates :=
              {| PartialFrmRepair.id := None;
                 PartialFrmRepair.filename := None;
                 PartialFrmRepair.fileSize := None;
                 PartialFrmRepair.frmType := Some (Server.frmType analysis);
                 PartialFrmRepair.vin :=
                   Some (match Server.vin v with
                         | Some s => if truthy_string s then Some s else None
                         | None => None
                         end);
                 PartialFrmRepair.mileage :=
                   Some (match Server.mileage v with
                         | Some m => if m =? 0 then None else Some m
                         | None => None
                         end);
                 PartialFrmRepair.repairStatus :=
                   Some (if PrimFloat.ltb (of_Z 95)
                              (Server.analysis_corruptionLevel analysis)
                         then "failed" else "analyzed")%string;
                 PartialFrmRepair.analysisData :=
                   Some (Some (JSON_stringify analysis));
                 PartialFrmRepair.originalData := None;
                 PartialFrmRepair.repairedData := None;
                 PartialFrmRepair.createdAt := None |} in
            let (storage, updatedRepair) :=
              Storage.updateFrmRepair storage (FrmRepair.id repair) updates in
            (storage,
             {| status := 200;
                content := upload_json (FrmRepair.id repair) analysis |})
        end
  end.

(** [POST /api/frm/upload]: the upload middleware, then the handler;
    an error of the middleware goes to the error-handling middleware and
    the handler does not run. *)
Definition upload (toLowerCase : jsstring -> jsstring)
    (over_limit : Z -> bool) (storage : Storage.MemStorage) (uuid : jsstring)
    (now : Z) (part : option File) : Storage.MemStorage * response :=
  match upload_single toLowerCase over_limit part with
  | Throw err => (storage, error_middleware err)
  | Ok file => upload_handler storage uuid now file
  end.

Definition set_status (s : string) : PartialFrmRepair.t :=
  {| PartialFrmRepair.id := None;
     PartialFrmRepair.filename := None;
     PartialFrmRepair.fileSize := None;
     PartialFrmRepair.frmType := None;
     PartialFrmRepair.vin := None;
     PartialFrmRepair.mileage := None;
     PartialFrmRepair.repairStatus := Some s;
     PartialFrmRepair.analysisData := None;
     PartialFrmRepair.originalData := None;
     PartialFrmRepair.repairedData := None;
     PartialFrmRepair.createdAt := None |}.

(** The updates [{ repairedData, repairStatus: "completed" }]. *)
Definition set_repaired (e : option bytes) : PartialFrmRepair.t :=
  {| PartialFrmRepair.id := None;
     PartialFrmRepair.filename := None;
     PartialFrmRepair.fileSize := None;
     PartialFrmRepair.frmType := None;
     PartialFrmRepair.vin := None;
     PartialFrmRepair.mileage := None;
     PartialFrmRepair.repairStatus := Some "completed"%string;
     PartialFrmRepair.analysisData := None;
     PartialFrmRepair.originalData := None;
     PartialFrmRepair.repairedData := Some e;
     PartialFrmRepair.createdAt := None |}.

(** [Buffer.from(buffer)] copies the bytes. *)
Definition Buffer_from_buffer (b : bytes) : bytes := b.

(** [POST /api/frm/:id/convert]. When a successful result carries no
    image, reading its length throws after the store was updated; the
    text of that error is the engine's. *)
Definition convert (storage : Storage.MemStorage) (id : jsstring)
  : Storage.MemStorage * response :=
  match Storage.getFrmRepair storage id with
  | None =>
      (storage,
       {| status := 404; content := error_json (Some "Repair not found"%string) |})
  | Some repair =>
      match FrmRepair.originalData repair with
      | None =>
          (storage,
           {| status := 400;
              content :=
                error_json
                  (Some "No original data available for conversion"%string) |})
      | Some originalData =>
          let conversionResult :=
            Server.convertDFlashToEEPROM (Buffer_from_buffer originalData) in
          if negb (Server.success conversionResult) then
            let (storage, _) :=
              Storage.updateFrmRepair storage id (set_status "failed") in
            (storage,
             {| status := 400;
                content := error_json (Server.error conversionResult) |})
          else
            let (storage, _) :=
              Storage.updateFrmRepair storage id
                (set_repaired (Server.eepromData conversionResult)) in
            match Server.eepromData conversionResult with
            | Some eepromData =>
                (storage,
                 {| status := 200;
                    content :=
                      convert_json "Conversion completed successfully"
                        (len eepromData) |})
            | None =>
                (storage,
                 {| status := 500;
                    content :=
                      error_json
                        (Some "Cannot read properties of undefined (reading 'length')"%string) |})
            end
      end
  end.

(** [filename.replace(/\.(bin|hex|eep)$/i, "_repaired.bin")]: the
    pattern is anchored at the end of the name, so it can only match the
    last four code units. *)
Definition extension_matches (t : jsstring) : bool :=
  match t with
  | [d; a; b; c] =>
      (d =? 0x2E)
      && existsb (fun e => bool_decide (Text.upper <$> [a; b; c] = e))
           [lit "BIN"; lit "HEX"; lit "EEP"]
  | _ => false
  end.

Definition replace_extension (filename : jsstring) : jsstring :=
  let n := length filename in
  if extension_matches (drop (n - 4) filename)
  then take (n - 4) filename ++ lit "_repaired.bin"
  else filename.

(** [res.setHeader] of Node throws when a header value holds a code
    unit outside tab, 0x20-0x7E and 0x80-0xFF. *)
Definition valid_header_value (s : jsstring) : bool :=
  forallb (fun c => (c =? 0x09) || ((0x20 <=? c) && (c <=? 0x7E))
                    || ((0x80 <=? c) && (c <=? 0xFF))) s.

Definition invalid_header (name : string) : string :=
  ("Invalid character in header content [" ++ Server.dq ++ name
     ++ Server.dq ++ "]")%string.

(** [GET /api/frm/:id/download]; the store is only read. *)
Definition download (storage : Storage.MemStorage) (id : jsstring)
  : response :=
  match Storage.getFrmRepair storage id with
  | None =>
      {| status := 404;
         content := error_json (Some "Repaired file not found"%string) |}
  | Some repair =>
      match FrmRepair.repairedData repair with
      | None =>
          {| status := 404;
             content := error_json (Some "Repaired file not found"%string) |}
      | Some repairedData =>
          let filename := replace_extension (FrmRepair.filename repair) in
          let disposition :=
            lit ("attachment; filename=" ++ Server.dq) ++ filename
            ++ lit Server.dq in
          if valid_header_value disposition then
            {| status := 200;
               content :=
                 attachment disposition (len repairedData)
                   (Buffer_from_buffer repairedData) |}
          else
            {| status := 500;
               content :=
                 error_json (Some (invalid_header "Content-Disposition")) |}
      end
  end.

End Routes.

(** ** The file helpers of the client ([client/src/lib/file-utils.ts]) *)

Module FileUtils.
Import Js.

(** The two properties of a browser [File] that are read. *)
Record File := {
  name : jsstring;
  size : Z
}.

Record Validation := {
  isValid : bool;
  error : option string
}.

Definition validExtensions : list jsstring :=
  [lit ".bin"; lit ".hex"; lit ".eep"].

Definition validateFRMFile (toLowerCase : jsstring -> jsstring) (file : File)
  : Validation :=
  let hasValidExtension :=
    existsb (fun ext => Text.endsWith (toLowerCase (name file)) ext)
      validExtensions in
  if negb hasValidExtension then
    {| isValid := false;
       error := Some "Invalid file extension. Only .bin, .hex, and .eep files are supported."%string |}
  else if (size file <? 30000) || (64000 <? size file) then
    {| isValid := false;
       error := Some ("Invalid file size. Expected ~32KB D-Flash dump, got "
                        ++ dec (size file) ++ " bytes.")%string |}
  else {| isValid := true; error := None |}.

(** The numbers one line of the file contributes; [None] is [NaN]. A
    [NaN] byte count runs the inner loop zero times. *)
Definition line_data (line : jsstring) : list (option Z) :=
  if len line <? 11 then []
  else
    let byteCount := Text.parseInt16 (substring line 1 3) in
    let recordType := Text.parseInt16 (substring line 7 9) in
    if bool_decide (recordType = Some 0) then
      i ← seqZ 0 (default 0 byteCount);
      let bytePos := 9 + i * 2 in
      if bytePos + 1 <? len line
      then [Text.parseInt16 (substring line bytePos (bytePos + 2))]
      else []
    else [].

(** [new Uint8Array(data)] stores [NaN] as 0 and any other number
    modulo 256. *)
Definition parseHexFile (hexContent : jsstring) : bytes :=
  let lines :=
    List.filter (fun line => Text.startsWith (Text.trim line) (lit ":"))
      (Text.split 0x0A hexContent) in
  let data := lines ≫= line_data in
  (fun x => to_u8 (default 0 x)) <$> data.

(** The class [[:\r\n0-9A-Fa-f\s]]. *)
Definition hex_text (c : Z) : bool :=
  (c =? 0x3A) || (c =? 0x0D) || (c =? 0x0A)
  || ((0x30 <=? c) && (c <=? 0x39)) || ((0x41 <=? c) && (c <=? 0x46))
  || ((0x61 <=? c) && (c <=? 0x66)) || Text.is_space c.

Definition detectFileFormat (data : bytes) : string :=
  let textContent := TextDecoder_ascii (slice data 0 100) in
  if Text.startsWith textContent (lit ":")
     && (negb (bool_decide (textContent = [])) && forallb hex_text textContent)
  then "hex"
  else
    let printableChars :=
      List.filter (fun code => (32 <=? code) && (code <=? 126)) textContent in
    if PrimFloat.ltb (of_Z (len printableChars))
         (PrimFloat.mul (of_Z (len textContent)) 0x1.6666666666666p-1%float)
    then "binary"
    else "unknown".

Definition validateVIN (vin : jsstring) : bool := vin_regex_test vin.

Definition yearMap : gmap jsstring Z :=
  list_to_map
    [(lit "1", 2001); (lit "2", 2002); (lit "3", 2003); (lit "4", 2004);
     (lit "5", 2005); (lit "6", 2006); (lit "7", 2007); (lit "8", 2008);
     (lit "9", 2009); (lit "A", 2010); (lit "B", 2011); (lit "C", 2012);
     (lit "D", 2013); (lit "E", 2014); (lit "F", 2015); (lit "G", 2016);
     (lit "H", 2017); (lit "J", 2018); (lit "K", 2019); (lit "L", 2020);
     (lit "M", 2021); (lit "N", 2022); (lit "P", 2023); (lit "R", 2024);
     (lit "S", 2025)].

(** [yearMap[yearChar] || null]: every entry of the table is non-zero,
    hence truthy. *)
Definition getYearFromVIN (vin : jsstring) : option Z :=
  if negb (validateVIN vin) then None
  else
    let yearChar := charAt vin 9 in
    yearMap !! yearChar.

End FileUtils.

(** ** The upload form ([client/src/components/file-upload.tsx]) *)

Module FileUpload.
Import Js.

(** What [handleFile] does with a file: a toast and nothing else, or
    the upload request. *)
Inductive outcome : Type :=
| toast (title description : string)
| mutate (file : FileUtils.File).

Definition handleFile (toLowerCase : jsstring -> jsstring)
    (file : FileUtils.File) : outcome :=
  let validExtensions := [lit ".bin"; lit ".hex"; lit ".eep"] in
  let hasValidExtension :=
    existsb (fun ext => Text.endsWith (toLowerCase (FileUtils.name file)) ext)
      validExtensions in
  if negb hasValidExtension then
    toast "Invalid file type" "Only .bin, .hex, and .eep files are supported"
  else if 64 * 1024 <? FileUtils.size file then
    toast "File too large" "Maximum file size is 64KB"
  else mutate file.

End FileUpload.

(** ** The analysis card ([client/src/components/analysis-results.tsx]) *)

Module AnalysisResults.
Import Js.

Definition eepromStatus (analysis : Server.Analysis) : string :=
  if PrimFloat.ltb (Server.analysis_corruptionLevel analysis) (of_Z 50)
  then "corrupted" else "readable".

Definition dflashStatus (analysis : Server.Analysis) : string :=
  if 20 <? Server.analysis_recoverableSectors analysis
  then "readable" else "partial".

Definition integrityStatus (analysis : Server.Analysis) : string :=
  if PrimFloat.ltb (of_Z 70) (Server.analysis_corruptionLevel analysis)
  then "readable" else "partial".

(** The two conditional blocks of the card: the button that starts the
    conversion, and the notice that repair is not possible. *)
Definition convertButton (analysis : Server.Analysis) : bool :=
  PrimFloat.ltb (of_Z 50) (Server.analysis_corruptionLevel analysis).

Definition repairNotPossible (analysis : Server.Analysis) : bool :=
  PrimFloat.leb (Server.analysis_corruptionLevel analysis) (of_Z 50).

End AnalysisResults.

(** ** Intel HEX text, for stating what the parser reads *)

Module IntelHex.
Import Js.

Definition hex_char (d : Z) : Z :=
  if d <? 10 then 0x30 + d else 0x41 + (d - 10).

(** Two and four upper-case hexadecimal digits. *)
Definition hex2 (v : Z) : jsstring :=
  [hex_char (v / 16 mod 16); hex_char (v mod 16)].

Definition hex4 (v : Z) : jsstring := hex2 (v / 256) ++ hex2 v.

(** A record: its type, its load address, its data, the check byte the
    file gives, and whether the line ends in a carriage return. *)
Record record := {
  kind : Z;
  address : Z;
  payload : bytes;
  check : Z;
  cr : bool
}.

(** The line [:LLAAAATTDD...CC]. *)
Definition line (r : record) : jsstring :=
  [0x3A] ++ hex2 (len (payload r)) ++ hex4 (address r) ++ hex2 (kind r)
  ++ (payload r ≫= fun b => hex2 (u8 b)) ++ hex2 (check r)
  ++ (if cr r then [0x0D] else []).

(** The lines of a file, each followed by a line feed. *)
Definition file (rs : list record) : jsstring :=
  rs ≫= fun r => line r ++ [0x0A].

(** The data a file holds: the payloads of its data records, in
    order. *)
Definition data (rs : list record) : bytes :=
  rs ≫= fun r => if kind r =? 0 then payload r else [].

Definition well_formed (r : record) : Prop :=
  0 <= kind r < 256 /\ len (payload r) < 256.

(** The characters of a line: colon, carriage return, digits and the
    letters [A] to [F]. *)
Definition is_text (c : Z) : bool :=
  (c =? 0x3A) || (c =? 0x0D)
  || ((0x30 <=? c) && (c <=? 0x39)) || ((0x41 <=? c) && (c <=? 0x46)).

End IntelHex.

(** ** Tables checked by evaluation *)

Module Tables.
Import Js.

(** The JSON text of a configuration is ASCII and between 97 and 103
    characters long. *)
Definition json_shape (config : Server.ConfigurationData) : bool :=
  let json := Server.JSON_stringify config in
  forallb (fun c => (0 <=? c) && (c <? 128)) json
  && (97 <=? len json) && (len json <=? 103).

(** A test of position and byte that holds along a buffer, counting the
    positions from [i]. *)
Fixpoint all_from (P : Z -> byte -> bool) (i : Z) (d : bytes) : bool :=
  match d with
  | [] => true
  | b :: d => P i b && all_from P (i + 1) d
  end.

End Tables.

(** * Properties of the runtime pieces *)

Import Js.

Lemma u8_range (b : byte) : 0 <= u8 b <= 255.
Proof. unfold u8. pose proof (Byte.to_N_bounded b). lia. Qed.

Lemma to_u8_u8 (b : byte) : to_u8 (u8 b) = b.
Proof.
  unfold to_u8. rewrite Z.mod_small by (pose proof (u8_range b); lia).
  unfold u8. by rewrite N2Z.id, Byte.of_to_N.
Qed.

Lemma u8_to_u8 (z : Z) : u8 (to_u8 z) = z mod 256.
Proof.
  unfold to_u8, u8. pose proof (Z.mod_pos_bound z 256 ltac:(lia)) as Hm.
  destruct (Byte.of_N (Z.to_N (z mod 256))) as [b|] eqn:E; simpl.
  - apply Byte.to_of_N in E. rewrite E. lia.
  - apply Byte.of_N_None_iff in E. lia.
Qed.

Lemma le_value_le_bytes (v : Z) :
  0 <= v < 2 ^ 32 ->
  le_value (to_u8 v) (to_u8 (v / 2 ^ 8)) (to_u8 (v / 2 ^ 16))
    (to_u8 (v / 2 ^ 24)) = v.
Proof.
  intros Hv. unfold le_value. rewrite !u8_to_u8.
  change (2 ^ 8) with 256. change (2 ^ 16) with 65536.
  change (2 ^ 24) with 16777216. change (2 ^ 32) with 4294967296 in Hv.
  Z.div_mod_to_equations. lia.
Qed.

Lemma ToInt32_mod (z : Z) : ToInt32 z mod 2 ^ 32 = z mod 2 ^ 32.
Proof.
  unfold ToInt32. change (2 ^ 32) with 4294967296.
  change (2 ^ 31) with 2147483648.
  Z.div_mod_to_equations. lia.
Qed.

Lemma ToInt32_small (z : Z) : - 2 ^ 31 <= z < 2 ^ 31 -> ToInt32 z = z.
Proof.
  intros Hz. unfold ToInt32. rewrite Z.mod_small; lia.
Qed.

(** [x & 0xFFFFFFFF] is [ToInt32 x]: the mask is -1 as a signed 32-bit
    integer. *)
Lemma bitand_mask (x : Z) : bitand x 0xFFFFFFFF = ToInt32 x.
Proof.
  unfold bitand. replace (ToInt32 0xFFFFFFFF) with (-1) by reflexivity.
  apply Z.land_m1_r.
Qed.

Section Buffers.
Context {A : Type}.
Implicit Types a src : list A.

Lemma length_slice a (s e : Z) :
  0 <= s -> s <= e -> e <= len a -> length (slice a s e) = Z.to_nat (e - s).
Proof.
  unfold slice, len. intros. rewrite length_take, length_drop. lia.
Qed.

Lemma lookup_slice a (s e : Z) (i : nat) :
  (i < Z.to_nat (e - s))%nat ->
  slice a s e !! i = a !! (Z.to_nat s + i)%nat.
Proof.
  intros Hi. unfold slice. by rewrite lookup_take_lt, lookup_drop.
Qed.

Lemma lookup_slice_ge a (s e : Z) (i : nat) :
  (Z.to_nat (e - s) <= i)%nat -> slice a s e !! i = None.
Proof. intros Hi. unfold slice. by rewrite lookup_take_ge. Qed.
End Buffers.

Lemma length_write_at (a : bytes) (off : Z) (src : bytes) :
  0 <= off -> off + len src <= len a ->
  length (write_at a off src) = length a.
Proof.
  unfold write_at, len. intros.
  rewrite !length_app, length_take, length_drop. lia.
Qed.

Lemma len_write_at (a : bytes) (off : Z) (src : bytes) :
  0 <= off -> off + len src <= len a -> len (write_at a off src) = len a.
Proof. intros. unfold len at 1 2. by rewrite length_write_at. Qed.

Lemma lookup_write_at (a : bytes) (off : Z) (src : bytes) (i : nat) :
  0 <= off -> off + len src <= len a ->
  write_at a off src !! i =
    if decide (Z.to_nat off <= i < Z.to_nat off + length src)%nat
    then src !! (i - Z.to_nat off)%nat else a !! i.
Proof.
  unfold write_at, len. intros Hoff Hfit.
  assert (length (take (Z.to_nat off) a) = Z.to_nat off) as Htk
    by (rewrite length_take; lia).
  destruct (decide (i < Z.to_nat off)%nat) as [Hlt|Hge].
  - rewrite lookup_app_l by lia. rewrite lookup_take_lt by lia.
    case_decide; [lia|done].
  - rewrite lookup_app_r by lia. rewrite Htk.
    destruct (decide (i - Z.to_nat off < length src)%nat) as [Hin|Hout].
    + rewrite lookup_app_l by lia. case_decide; [done|lia].
    + rewrite lookup_app_r by lia. rewrite lookup_drop.
      case_decide; [lia|]. f_equal. lia.
Qed.

Lemma slice_write_at_same (a : bytes) (off : Z) (src : bytes) :
  0 <= off -> off + len src <= len a ->
  slice (write_at a off src) off (off + len src) = src.
Proof.
  intros Hoff Hfit. apply list_eq. intros i.
  destruct (decide (i < length src)%nat) as [Hi|Hi].
  - rewrite lookup_slice by (unfold len; lia).
    rewrite lookup_write_at by done.
    case_decide; [f_equal; lia|lia].
  - rewrite lookup_slice_ge by (unfold len; lia).
    symmetry. apply lookup_ge_None. lia.
Qed.

Lemma slice_write_at_other (a : bytes) (off : Z) (src : bytes) (s e : Z) :
  0 <= off -> off + len src <= len a -> 0 <= s ->
  e <= off \/ off + len src <= s ->
  slice (write_at a off src) s e = slice a s e.
Proof.
  intros Hoff Hfit Hs Hdisj. apply list_eq. intros i.
  destruct (decide (i < Z.to_nat (e - s))%nat) as [Hi|Hi].
  - rewrite !lookup_slice by done. rewrite lookup_write_at by done.
    case_decide; [unfold len in *; lia|done].
  - by rewrite !lookup_slice_ge by lia.
Qed.

(** * Loops that return at the first match *)

Section FirstSome.
Context {X A : Type}.
Implicit Types (body : X -> option A) (l : list X).

Lemma first_some_None body l :
  first_some body l = None <-> forall o, o ∈ l -> body o = None.
Proof.
  induction l as [|x l IH]; simpl.
  - split; [intros _ o Ho; by apply elem_of_nil in Ho|done].
  - destruct (body x) as [a|] eqn:Hx.
    + split; [done|]. intros H. specialize (H x (list_elem_of_here _ _)).
      congruence.
    + rewrite IH. split.
      * intros H o Ho. apply elem_of_cons in Ho as [->|Ho]; auto.
      * intros H o Ho. apply H. by apply list_elem_of_further.
Qed.

Lemma first_some_Some body l a :
  first_some body l = Some a ->
  exists l1 o l2,
    l = l1 ++ o :: l2 /\ body o = Some a /\
    forall o', o' ∈ l1 -> body o' = None.
Proof.
  induction l as [|x l IH]; simpl; [done|].
  destruct (body x) as [a'|] eqn:Hx.
  - intros [= ->]. exists [], x, l. split_and!; [done|done|].
    intros o' Ho'. by apply elem_of_nil in Ho'.
  - intros H. destruct (IH H) as (l1 & o & l2 & -> & Ho & Hl1).
    exists (x :: l1), o, l2. split_and!; [done|done|].
    intros o' Ho'. apply elem_of_cons in Ho' as [->|Ho']; auto.
Qed.
End FirstSome.

(** In a strictly ascending list of offsets the loop returns at the least
    offset whose body returns. *)
Lemma first_some_ascending {A} (body : Z -> option A) (l : list Z) (a : A) :
  StronglySorted Z.lt l ->
  first_some body l = Some a ->
  exists o, o ∈ l /\ body o = Some a /\
            forall o', o' ∈ l -> o' < o -> body o' = None.
Proof.
  intros Hs H. destruct (first_some_Some _ _ _ H) as (l1 & o & l2 & -> & Ho & Hl1).
  exists o. split_and!; [set_solver|done|].
  intros o' Ho' Hlt. apply elem_of_app in Ho' as [Ho'|Ho']; [by apply Hl1|].
  apply elem_of_cons in Ho' as [->|Ho']; [lia|].
  apply StronglySorted_app in Hs as (_ & _ & Hs).
  apply StronglySorted_cons in Hs as [Hall _].
  rewrite Forall_forall in Hall. specialize (Hall _ Ho'). lia.
Qed.

(** A loop whose body does not throw on the offsets it visits is the pure
    loop. *)
Lemma first_someM_pure {A} (body : Z -> result (option A))
    (pure : Z -> option A) (l : list Z) :
  (forall o, o ∈ l -> body o = Ok (pure o)) ->
  first_someM body l = Ok (first_some pure l).
Proof.
  induction l as [|x l IH]; intros H; simpl; [done|].
  rewrite (H x) by set_solver. simpl.
  destruct (pure x); [done|]. apply IH. intros o Ho. apply H. set_solver.
Qed.

Lemma elem_of_range (lo hi step o : Z) :
  0 < step ->
  o ∈ range lo hi step <-> exists k, 0 <= k /\ o = lo + step * k /\ o < hi.
Proof.
  intros Hstep. unfold range. rewrite list_elem_of_fmap. split.
  - intros (k & -> & Hk). apply elem_of_seqZ in Hk. exists k.
    split_and!; [lia|done|].
    assert (k + 1 <= (hi - lo + step - 1) / step) as Hle by lia.
    assert (step * (k + 1) <= hi - lo + step - 1); [|lia].
    etrans; [apply Z.mul_le_mono_nonneg_l, Hle; lia|].
    apply Z.mul_div_le; lia.
  - intros (k & Hk & -> & Hlt). exists k. split; [done|].
    apply elem_of_seqZ. split; [lia|].
    assert (k + 1 <= (hi - lo + step - 1) / step); [|lia].
    apply Z.div_le_lower_bound; lia.
Qed.

Lemma range_sorted (lo hi step : Z) :
  0 < step -> StronglySorted Z.lt (range lo hi step).
Proof.
  intros Hstep. unfold range.
  generalize ((hi - lo + step - 1) / step). generalize 0.
  intros m n. remember (Z.to_nat n) as k eqn:Hk.
  revert m n Hk. induction k as [|k IH]; intros m n Hk.
  - rewrite seqZ_nil by lia. constructor.
  - rewrite seqZ_cons by lia. rewrite fmap_cons. constructor.
    + apply IH. lia.
    + apply Forall_fmap, Forall_seqZ. intros j Hj. simpl. nia.
Qed.

(** * Identifier extraction *)

Lemma vin_class_alphabet (c : Z) : vin_class c = true <-> c ∈ Spec.alphabet.
Proof.
  split.
  - intros H.
    assert (forallb (fun x => implb (vin_class x)
                                (bool_decide (x ∈ Spec.alphabet)))
              (seqZ 48 43) = true) as Htable by (vm_compute; reflexivity).
    rewrite forallb_forall in Htable. specialize (Htable c).
    rewrite H in Htable. cbn [implb] in Htable.
    eapply bool_decide_eq_true_1, Htable.
    apply list_elem_of_In, elem_of_seqZ. unfold vin_class in H. lia.
  - intros H.
    assert (forallb vin_class Spec.alphabet = true) as Htable
      by (vm_compute; reflexivity).
    rewrite forallb_forall in Htable. by apply Htable, list_elem_of_In.
Qed.

Lemma vin_regex_test_identifier (s : jsstring) :
  vin_regex_test s = true <-> Spec.identifier s.
Proof.
  unfold vin_regex_test, Spec.identifier.
  rewrite andb_true_iff, bool_decide_eq_true.
  assert (forallb vin_class s = true <-> Forall (fun c => c ∈ Spec.alphabet) s)
    as ->; [|done].
  rewrite forallb_forall, Forall_forall.
  split; intros H c Hc.
  - apply vin_class_alphabet, H. by apply list_elem_of_In.
  - apply vin_class_alphabet, H. by apply list_elem_of_In.
Qed.

(** No letter I, O or Q belongs to the alphabet. *)
Lemma alphabet_excludes (c : Z) : c ∈ lit "IOQ" -> c ∉ Spec.alphabet.
Proof.
  intros H Ha. apply list_elem_of_In in H, Ha.
  vm_compute in H. intuition (subst; vm_compute in Ha; intuition discriminate).
Qed.

Lemma accept_Some (candidate : Z -> jsstring) (off : Z) (s : jsstring) :
  Scan.accept candidate off = Some s <->
  s = candidate off /\ Spec.identifier s.
Proof.
  unfold Scan.accept. destruct (vin_regex_test (candidate off)) eqn:E.
  - apply vin_regex_test_identifier in E. split.
    + by intros [= <-].
    + by intros [-> _].
  - split; [done|]. intros [-> H].
    apply vin_regex_test_identifier in H. congruence.
Qed.

Lemma accept_None (candidate : Z -> jsstring) (off : Z) :
  Scan.accept candidate off = None <-> ~ Spec.identifier (candidate off).
Proof.
  unfold Scan.accept. rewrite <- vin_regex_test_identifier.
  destruct (vin_regex_test (candidate off)); split; done.
Qed.

(** What a scan for an identifier over ascending offsets returns. *)
Lemma scan_first_identifier (candidate : Z -> jsstring) (offsets : list Z) :
  StronglySorted Z.lt offsets ->
  (forall s, first_some (Scan.accept candidate) offsets = Some s ->
     Spec.identifier s /\
     exists off, off ∈ offsets /\ s = candidate off /\
       forall off', off' ∈ offsets -> off' < off ->
                    ~ Spec.identifier (candidate off'))
  /\ (first_some (Scan.accept candidate) offsets = None <->
      forall off, off ∈ offsets -> ~ Spec.identifier (candidate off)).
Proof.
  intros Hs. split.
  - intros s H.
    destruct (first_some_ascending _ _ _ Hs H) as (off & Hin & Hacc & Hbefore).
    apply accept_Some in Hacc as [-> Hid]. split; [done|].
    exists off. split_and!; [done|done|].
    intros off' Hin' Hlt. apply accept_None. by apply Hbefore.
  - rewrite first_some_None. split; intros H off Hin.
    + apply accept_None. by apply H.
    + apply accept_None. by apply H.
Qed.

Lemma first_some_fmap {X Y A} (f : X -> Y) (body : Y -> option A)
    (l : list X) :
  first_some body (f <$> l) = first_some (fun x => body (f x)) l.
Proof.
  induction l as [|x l IH]; [done|]. rewrite fmap_cons. simpl.
  by rewrite IH.
Qed.

Lemma first_some_ext {X A} (body1 body2 : X -> option A) (l : list X) :
  (forall x, body1 x = body2 x) -> first_some body1 l = first_some body2 l.
Proof.
  intros H. induction l as [|x l IH]; [done|]. simpl. by rewrite H, IH.
Qed.

Lemma client_vin_at_accept (d : bytes) (off : Z) :
  FrmConverter.vin_at d (off, 17) = Scan.accept (Scan.client_candidate d) off.
Proof. reflexivity. Qed.

Lemma client_extractVIN_scan (d : bytes) :
  FrmConverter.extractVIN d =
  first_some (Scan.accept (Scan.client_candidate d)) Scan.client_vin_offsets.
Proof.
  unfold FrmConverter.extractVIN.
  replace FrmConverter.VIN_PATTERNS
    with ((fun off => (off, 17)) <$> Scan.client_vin_offsets) by reflexivity.
  rewrite first_some_fmap. apply first_some_ext. intros off.
  apply client_vin_at_accept.
Qed.

Lemma server_extractVin_scan (d : bytes) :
  Server.extractVin d =
  first_some (Scan.accept (Scan.server_candidate d)) Scan.server_vin_offsets.
Proof. reflexivity. Qed.

Lemma client_vin_offsets_sorted : StronglySorted Z.lt Scan.client_vin_offsets.
Proof.
  unfold Scan.client_vin_offsets, FrmConverter.VIN_PATTERNS. simpl.
  repeat (constructor; [|repeat constructor; lia]). constructor.
Qed.

Lemma server_vin_offsets_sorted : StronglySorted Z.lt Scan.server_vin_offsets.
Proof. apply range_sorted. lia. Qed.

Lemma client_image_identifier (d : bytes) (s : jsstring) :
  FrmConverter.extractVIN d = Some s -> Spec.identifier s.
Proof.
  rewrite client_extractVIN_scan. intros Hs.
  by apply (proj1 (scan_first_identifier _ _ client_vin_offsets_sorted))
    in Hs as [? _].
Qed.

Lemma server_image_identifier (d : bytes) (s : jsstring) :
  Server.extractVin d = Some s -> Spec.identifier s.
Proof.
  rewrite server_extractVin_scan. intros Hs.
  by apply (proj1 (scan_first_identifier _ _ server_vin_offsets_sorted))
    in Hs as [? _].
Qed.

Lemma client_extractVIN_absent (d : bytes) :
  (forall off, off ∈ Scan.client_vin_offsets ->
               ~ Spec.identifier (Scan.client_candidate d off)) ->
  FrmConverter.extractVIN d = None.
Proof.
  rewrite client_extractVIN_scan.
  apply (proj2 (scan_first_identifier _ _ client_vin_offsets_sorted)).
Qed.

Lemma server_extractVin_absent (d : bytes) :
  (forall off, off ∈ Scan.server_vin_offsets ->
               ~ Spec.identifier (Scan.server_candidate d off)) ->
  Server.extractVin d = None.
Proof.
  rewrite server_extractVin_scan.
  apply (proj2 (scan_first_identifier _ _ server_vin_offsets_sorted)).
Qed.

Lemma elem_of_client_vin_offsets (off : Z) :
  off ∈ Scan.client_vin_offsets <-> off = 0x1000 \/ off = 0x1500 \/ off = 0x2000.
Proof.
  unfold Scan.client_vin_offsets, FrmConverter.VIN_PATTERNS. simpl.
  rewrite !elem_of_cons, elem_of_nil. tauto.
Qed.

Lemma elem_of_server_vin_offsets (off : Z) :
  off ∈ Scan.server_vin_offsets <->
  0x1000 <= off < 0x2000 /\ off mod 16 = 0.
Proof.
  unfold Scan.server_vin_offsets. rewrite elem_of_range by lia. split.
  - intros (k & Hk & -> & Hlt). split; [lia|].
    Z.div_mod_to_equations. lia.
  - intros [Hr Hm]. exists ((off - 4096) / 16).
    Z.div_mod_to_equations. lia.
Qed.

(** X28: what both extractors do with the text their decoder makes of a
    window ([windows-1252] on the client, the low seven bits of every
    byte on the server). The decoded text is accepted only if it has 17
    characters of the alphabet A-H, J-N, P, R-Z, 0-9, so a text with an
    I, O or Q anywhere is rejected; the extractor returns the first
    accepted text in ascending order of the scanned offsets, and absence
    exactly when no scanned offset holds one. *)
Theorem identifier_extraction_first_match (d : bytes) :
  (forall s, FrmConverter.extractVIN d = Some s ->
     Spec.identifier s /\ (forall c, c ∈ s -> c ∉ lit "IOQ") /\
     exists off, off ∈ Scan.client_vin_offsets /\
       s = Scan.client_candidate d off /\
       forall off', off' ∈ Scan.client_vin_offsets -> off' < off ->
                    ~ Spec.identifier (Scan.client_candidate d off'))
  /\ (FrmConverter.extractVIN d = None <->
      forall off, off ∈ Scan.client_vin_offsets ->
                  ~ Spec.identifier (Scan.client_candidate d off))
  /\ (forall s, Server.extractVin d = Some s ->
     Spec.identifier s /\ (forall c, c ∈ s -> c ∉ lit "IOQ") /\
     exists off, off ∈ Scan.server_vin_offsets /\
       s = Scan.server_candidate d off /\
       forall off', off' ∈ Scan.server_vin_offsets -> off' < off ->
                    ~ Spec.identifier (Scan.server_candidate d off'))
  /\ (Server.extractVin d = None <->
      forall off, off ∈ Scan.server_vin_offsets ->
                  ~ Spec.identifier (Scan.server_candidate d off))
  /\ (forall off c, c ∈ Scan.client_candidate d off -> c ∈ lit "IOQ" ->
        FrmConverter.vin_at d (off, 17) = None)
  /\ (forall off c, c ∈ Scan.server_candidate d off -> c ∈ lit "IOQ" ->
        Server.vin_at d off = None).
Proof.
  assert (forall s c, Spec.identifier s -> c ∈ s -> c ∉ lit "IOQ") as Hioq.
  { intros s c [_ Hall] Hc Hbad. rewrite Forall_forall in Hall.
    apply (alphabet_excludes c Hbad). by apply Hall. }
  destruct (scan_first_identifier (Scan.client_candidate d) _
              client_vin_offsets_sorted) as [Hc1 Hc2].
  destruct (scan_first_identifier (Scan.server_candidate d) _
              server_vin_offsets_sorted) as [Hs1 Hs2].
  rewrite client_extractVIN_scan, server_extractVin_scan.
  split_and!.
  - intros s H. destruct (Hc1 s H) as [Hid Hoff]. eauto.
  - done.
  - intros s H. destruct (Hs1 s H) as [Hid Hoff]. eauto.
  - done.
  - intros off c Hc Hbad.
    rewrite client_vin_at_accept. apply accept_None. intros Hid. by apply (Hioq _ c Hid).
  - intros off c Hc Hbad.
    change (Server.vin_at d off)
      with (Scan.accept (Scan.server_candidate d) off).
    apply accept_None. intros Hid. by apply (Hioq _ c Hid).
Qed.

Lemma identifier_extraction_first_match_witness :
  Spec.identifier (lit "WBA12345678901234").
Proof.
  apply (proj1 (identifier_extraction_first_match Sample.vin_image)
           (lit "WBA12345678901234")).
  vm_compute. reflexivity.
Defined.

(** * Buffers: allocation, writes and the checksum loops *)

Lemma len_filled (n : Z) (v : byte) : 0 <= n -> len (filled n v) = n.
Proof. intros. unfold len, filled. rewrite length_replicate. lia. Qed.

Lemma get_nat (a : bytes) (n : nat) : get a (Z.of_nat n) = a !! n.
Proof.
  unfold get. destruct (Z.ltb_spec (Z.of_nat n) 0); [lia|].
  by rewrite Nat2Z.id.
Qed.

Lemma get_Z (a : bytes) (i : Z) : 0 <= i -> get a i = a !! Z.to_nat i.
Proof. intros. unfold get. destruct (Z.ltb_spec i 0); [lia|done]. Qed.

Lemma slice_0 {A} (a : list A) (n : Z) : slice a 0 n = take (Z.to_nat n) a.
Proof. unfold slice. by rewrite Z.sub_0_r. Qed.

Lemma slice_4 (a : bytes) (o : Z) :
  0 <= o -> o + 4 <= len a ->
  exists b0 b1 b2 b3, slice a o (o + 4) = [b0; b1; b2; b3].
Proof.
  intros Ho Hfit.
  pose proof (length_slice a o (o + 4) ltac:(lia) ltac:(lia) ltac:(lia)) as Hl.
  replace (Z.to_nat (o + 4 - o)) with 4%nat in Hl by lia.
  destruct (slice a o (o + 4)) as [|b0 [|b1 [|b2 [|b3 [|b4 l]]]]];
    try discriminate Hl.
  by exists b0, b1, b2, b3.
Qed.

Lemma Uint8Array_set_ok (target src : bytes) (off : Z) :
  off + len src <= len target ->
  Uint8Array_set target src off = Ok (write_at target off src).
Proof.
  intros H. unfold Uint8Array_set.
  destruct (Z.leb_spec (off + len src) (len target)); [done|lia].
Qed.

Lemma DataView_setUint32_LE_ok (a : bytes) (off v : Z) :
  0 <= off -> off + 4 <= len a ->
  DataView_setUint32_LE a off v = Ok (write_at a off (le_bytes (ToUint32 v))).
Proof.
  intros H1 H2. unfold DataView_setUint32_LE.
  destruct (Z.leb_spec 0 off); [|lia].
  destruct (Z.leb_spec (off + 4) (len a)); [done|lia].
Qed.

Lemma writeUInt32LE_ok (a : bytes) (v off : Z) :
  0 <= v < 2 ^ 32 -> 0 <= off -> off + 4 <= len a ->
  writeUInt32LE a v off = Ok (write_at a off (le_bytes v)).
Proof.
  intros Hv H1 H2. unfold writeUInt32LE.
  destruct (Z.ltb_spec v 0); [lia|].
  destruct (Z.ltb_spec (2 ^ 32 - 1) v); [lia|]. simpl.
  destruct (Z.leb_spec 0 off); [|lia].
  destruct (Z.leb_spec (off + 4) (len a)); [done|lia].
Qed.

Lemma sum_bytes_app (l1 l2 : bytes) :
  Spec.sum_bytes (l1 ++ l2) = Spec.sum_bytes l1 + Spec.sum_bytes l2.
Proof.
  unfold Spec.sum_bytes. induction l1 as [|b l1 IH]; simpl; [done|].
  rewrite IH. lia.
Qed.

Lemma sum_bytes_bound (l : bytes) : 0 <= Spec.sum_bytes l <= 255 * len l.
Proof.
  unfold Spec.sum_bytes, len. induction l as [|b l IH]; simpl foldr.
  - simpl. lia.
  - pose proof (u8_range b). rewrite length_cons. lia.
Qed.

(** The client's loop keeps the running sum as a signed 32-bit integer: it
    agrees with the sum of the bytes modulo 2^32. *)
Lemma client_checksum_loop (e : bytes) (n : nat) :
  (n <= length e)%nat ->
  fold_left (FrmConverter.checksum_step e) (seqZ 0 (Z.of_nat n)) 0 mod 2 ^ 32
  = Spec.sum_bytes (take n e) mod 2 ^ 32.
Proof.
  induction n as [|n IH]; intros Hn.
  - by rewrite take_0.
  - destruct (lookup_lt_is_Some_2 e n ltac:(lia)) as [b Hb].
    rewrite seqZ_S, fold_left_app, (take_S_r _ _ b), sum_bytes_app by done.
    simpl. unfold FrmConverter.checksum_step at 1.
    rewrite Z.add_0_l, get_nat, Hb, bitand_mask, ToInt32_mod, Z.add_0_r.
    rewrite Z.add_mod by lia. rewrite IH by lia.
    by rewrite <- Z.add_mod by lia.
Qed.

(** The server's loop is the plain sum. *)
Lemma server_checksum_loop (e : bytes) (n : nat) :
  (n <= length e)%nat ->
  fold_left (Server.checksum_step e) (seqZ 0 (Z.of_nat n)) 0
  = Spec.sum_bytes (take n e).
Proof.
  induction n as [|n IH]; intros Hn.
  - by rewrite take_0.
  - destruct (lookup_lt_is_Some_2 e n ltac:(lia)) as [b Hb].
    rewrite seqZ_S, fold_left_app, (take_S_r _ _ b), sum_bytes_app by done.
    simpl. unfold Server.checksum_step at 1.
    rewrite Z.add_0_l, get_nat, Hb, IH by lia. lia.
Qed.

Lemma client_calculateChecksums (e : bytes) :
  len e = 4096 ->
  FrmConverter.calculateChecksums e = Ok (Image.with_checksum e).
Proof.
  intros Hl. unfold FrmConverter.calculateChecksums, FrmConverter.EEPROM_SIZE.
  rewrite DataView_setUint32_LE_ok by lia.
  unfold Image.with_checksum, Spec.additive_checksum, ToUint32.
  rewrite slice_0. change (4096 - 4) with 4092.
  replace (seqZ 0 4092) with (seqZ 0 (Z.of_nat (Z.to_nat 4092)))
    by (f_equal; lia).
  rewrite client_checksum_loop; [done|]. unfold len in Hl. lia.
Qed.

Lemma server_calculateEepromChecksums (e : bytes) :
  len e = 4096 ->
  Server.calculateEepromChecksums e = Ok (Image.with_checksum e).
Proof.
  intros Hl. unfold Server.calculateEepromChecksums. rewrite Hl.
  change (4096 - 4) with 4092.
  replace (seqZ 0 4092) with (seqZ 0 (Z.of_nat (Z.to_nat 4092)))
    by (f_equal; lia).
  rewrite server_checksum_loop by (unfold len in Hl; lia).
  pose proof (sum_bytes_bound (take (Z.to_nat 4092) e)) as Hb.
  assert (len (take (Z.to_nat 4092) e) = 4092) as Hlt
    by (unfold len in *; rewrite length_take; lia).
  rewrite Hlt in Hb.
  rewrite bitand_mask, ToInt32_small by lia.
  rewrite writeUInt32LE_ok by lia.
  unfold Image.with_checksum, Spec.additive_checksum.
  rewrite slice_0, Z.mod_small by lia. done.
Qed.

(** * Odometer extraction *)

Lemma bind_Ok {A B} (a : A) (k : A -> result B) : (Ok a ≫= k) = k a.
Proof. reflexivity. Qed.

Lemma server_plausible_spec (v : Z) :
  Server.plausible v = true <-> Spec.plausible v.
Proof. unfold Server.plausible, Spec.plausible. lia. Qed.

Lemma client_plausible_spec (v : Z) :
  FrmConverter.plausible v = true <-> Spec.plausible v.
Proof. unfold FrmConverter.plausible, Spec.plausible. lia. Qed.

Lemma uint32_short (a : bytes) (o : Z) :
  0 <= o -> len a < o + 4 -> Spec.uint32_le a o = 0 /\ Spec.uint32_be a o = 0.
Proof.
  intros Ho Hshort. unfold Spec.uint32_le, Spec.uint32_be.
  assert (length (slice a o (o + 4)) < 4)%nat as Hl.
  { unfold slice, len in *. rewrite length_take, length_drop. lia. }
  destruct (slice a o (o + 4)) as [|b0 [|b1 [|b2 [|b3 [|b4 l]]]]];
    simpl in Hl; try done; lia.
Qed.

Lemma server_mileage_at_pure (d : bytes) (o : Z) :
  0 <= o -> o + 4 <= len d ->
  Server.mileage_at d o = Ok (Scan.server_mileage d o).
Proof.
  intros Ho Hfit. destruct (slice_4 d o Ho Hfit) as (b0 & b1 & b2 & b3 & E).
  unfold Server.mileage_at, readUInt32LE, Scan.server_mileage, Spec.uint32_le.
  rewrite E, bind_Ok. by destruct (Server.plausible _).
Qed.

Lemma client_mileage_at_pure (d : bytes) (o : Z) :
  0 <= o -> FrmConverter.mileage_at d o = Ok (Scan.client_mileage d o).
Proof.
  intros Ho. unfold FrmConverter.mileage_at, Scan.client_mileage.
  destruct (Z.leb_spec (o + 4) (len d)) as [Hfit|Hshort].
  - destruct (slice_4 d o Ho Hfit) as (b0 & b1 & b2 & b3 & E).
    unfold DataView_getUint32, Spec.uint32_le, Spec.uint32_be.
    rewrite E, !bind_Ok.
    destruct (FrmConverter.plausible (le_value b0 b1 b2 b3)); [done|].
    by destruct (FrmConverter.plausible (le_value b3 b2 b1 b0)).
  - destruct (uint32_short d o Ho Hshort) as [-> ->]. done.
Qed.

Lemma server_extractMileage_pure (d : bytes) :
  12288 <= len d ->
  Server.extractMileage d =
  Ok (first_some (Scan.server_mileage d) Scan.server_mileage_offsets).
Proof.
  intros Hl. apply first_someM_pure. intros o Ho.
  apply elem_of_range in Ho as (k & Hk & -> & Hlt); [|lia].
  apply server_mileage_at_pure; lia.
Qed.

Lemma client_extractMileage_pure (d : bytes) :
  FrmConverter.extractMileage d =
  Ok (first_some (Scan.client_mileage d) FrmConverter.MILEAGE_OFFSETS).
Proof.
  apply first_someM_pure. intros o Ho. apply client_mileage_at_pure.
  unfold FrmConverter.MILEAGE_OFFSETS in Ho.
  rewrite !elem_of_cons, elem_of_nil in Ho. lia.
Qed.

(** A loop that returns a value returned it from the body at some offset
    it visits. *)
Lemma first_someM_Some {A} (body : Z -> result (option A)) (l : list Z) (a : A) :
  first_someM body l = Ok (Some a) -> exists o, o ∈ l /\ body o = Ok (Some a).
Proof.
  induction l as [|x l IH]; simpl; [done|].
  destruct (body x) as [[a'|]|e] eqn:Hx.
  - rewrite bind_Ok. intros [= ->]. exists x.
    split; [apply list_elem_of_here|done].
  - rewrite bind_Ok. intros H. destruct (IH H) as (o & Ho & Hb).
    exists o. split; [by apply list_elem_of_further|done].
  - intros H. discriminate H.
Qed.

Lemma server_extractMileage_plausible (d : bytes) (x : Z) :
  Server.extractMileage d = Ok (Some x) -> Spec.plausible x.
Proof.
  unfold Server.extractMileage. intros H.
  apply first_someM_Some in H as (o & _ & H).
  unfold Server.mileage_at in H.
  destruct (readUInt32LE d o) as [v|e]; [|done]. rewrite bind_Ok in H.
  destruct (Server.plausible v) eqn:Hp; [|done].
  injection H as <-. by apply server_plausible_spec.
Qed.

Lemma client_mileage_plausible (d : bytes) (o x : Z) :
  Scan.client_mileage d o = Some x -> Spec.plausible x.
Proof.
  unfold Scan.client_mileage.
  destruct (FrmConverter.plausible (Spec.uint32_le d o)) eqn:Hle.
  - intros [= <-]. by apply client_plausible_spec.
  - destruct (FrmConverter.plausible (Spec.uint32_be d o)) eqn:Hbe; [|done].
    intros [= <-]. by apply client_plausible_spec.
Qed.

Lemma client_extractMileage_plausible (d : bytes) (x : Z) :
  first_some (Scan.client_mileage d) FrmConverter.MILEAGE_OFFSETS = Some x ->
  Spec.plausible x.
Proof.
  intros H. apply first_some_Some in H as (l1 & o & l2 & _ & H & _).
  by apply client_mileage_plausible in H.
Qed.

(** * The images the converters build *)

Lemma identifier_ascii (s : jsstring) :
  Spec.identifier s -> TextEncoder_encode s = to_u8 <$> s.
Proof.
  intros [_ Hall]. unfold TextEncoder_encode.
  induction Hall as [|c s Hc Hall IH]; [done|].
  rewrite bind_cons, IH, fmap_cons.
  apply vin_class_alphabet in Hc. unfold vin_class in Hc.
  unfold utf8. destruct (Z.ltb_spec c 128); [done|lia].
Qed.

Lemma identifier_truthy (s : jsstring) :
  Spec.identifier s -> truthy_string s = true.
Proof. intros [Hl _]. by destruct s. Qed.

Lemma len_identifier_bytes (s : jsstring) :
  Spec.identifier s -> len (to_u8 <$> s) = 17.
Proof. intros [Hl _]. unfold len. rewrite length_fmap, Hl. done. Qed.

Lemma len_with_vehicle (e : bytes) (v : option jsstring) (m : option Z) :
  len e = 4096 -> (forall s, v = Some s -> Spec.identifier s) ->
  len (Image.with_vehicle e v m) = 4096.
Proof.
  intros He Hv. unfold Image.with_vehicle.
  assert (len (match v with
               | Some s => write_at e 16 (to_u8 <$> s)
               | None => e
               end) = 4096) as He'.
  { destruct v as [s|]; [|done].
    pose proof (len_identifier_bytes s (Hv s eq_refl)).
    rewrite len_write_at; lia. }
  destruct m as [x|]; [|done].
  rewrite len_write_at; [done|lia|]. rewrite He'. unfold len. simpl. lia.
Qed.

Lemma len_server_config (d : bytes) : len (Image.server_config d) <= 1024.
Proof.
  unfold Image.server_config, slice, len.
  rewrite !length_take, length_drop. lia.
Qed.

Lemma len_client_fields (v : option jsstring) (m : option Z) (d : bytes) :
  (forall s, v = Some s -> Spec.identifier s) ->
  len (Image.client_fields v m d) = 4096.
Proof.
  intros Hv. unfold Image.client_fields.
  assert (len (write_at (filled 4096 xff) 0 FrmConverter.header) = 4096) as H0.
  { rewrite len_write_at; rewrite ?len_filled by lia; try lia.
    unfold len. simpl. lia. }
  rewrite len_write_at; rewrite ?len_with_vehicle by done; try lia.
  unfold len. simpl. lia.
Qed.

Lemma len_server_fields (v : option jsstring) (m : option Z) (d : bytes) :
  (forall s, v = Some s -> Spec.identifier s) ->
  len (Image.server_fields v m d) = 4096.
Proof.
  intros Hv. unfold Image.server_fields.
  pose proof (len_server_config d).
  rewrite len_write_at;
    rewrite ?len_with_vehicle by (rewrite ?len_filled by lia; done); lia.
Qed.

Lemma client_writeVehicleData (e : bytes) (v : option jsstring)
    (m : option Z) (mo : option string) :
  len e = 4096 ->
  (forall s, v = Some s -> Spec.identifier s) ->
  (forall x, m = Some x -> Spec.plausible x) ->
  FrmConverter.writeVehicleData e
    {| FrmConverter.vin := v; FrmConverter.mileage := m;
       FrmConverter.model := mo |}
  = Ok (Image.with_vehicle e v m).
Proof.
  intros He Hv Hm.
  pose proof (len_with_vehicle e v None He Hv) as He'.
  unfold FrmConverter.writeVehicleData, Image.with_vehicle in *.
  cbn [FrmConverter.vin FrmConverter.mileage].
  assert (match v with
          | Some s =>
              if truthy_string s
              then Uint8Array_set e (TextEncoder_encode s) 16
              else Ok e
          | None => Ok e
          end = Ok (match v with
                    | Some s => write_at e 16 (to_u8 <$> s)
                    | None => e
                    end)) as ->.
  { destruct v as [s|]; [|done]. specialize (Hv s eq_refl).
    rewrite identifier_truthy, identifier_ascii by done.
    apply Uint8Array_set_ok. rewrite len_identifier_bytes by done. lia. }
  rewrite bind_Ok. destruct m as [x|]; [|done].
  specialize (Hm x eq_refl). unfold Spec.plausible in Hm.
  destruct (Z.eqb_spec x 0); [lia|].
  rewrite DataView_setUint32_LE_ok by lia.
  unfold ToUint32. rewrite Z.mod_small by lia. done.
Qed.

(** The client converts every source of 32768 bytes, and returns
    [Image.client_image]. *)
Lemma client_convert_image (d : bytes) :
  len d = 32768 ->
  let v := FrmConverter.extractVIN d in
  let m := first_some (Scan.client_mileage d) FrmConverter.MILEAGE_OFFSETS in
  FrmConverter.convertDFlashToEEPROM d =
  {| FrmConverter.success := true;
     FrmConverter.eepromData := Some (Image.client_image v m d);
     FrmConverter.error := None;
     FrmConverter.vehicleData :=
       Some {| FrmConverter.vin := v; FrmConverter.mileage := m;
               FrmConverter.model := FrmConverter.extractModel d |} |}.
Proof.
  intros Hd v m.
  assert (forall s, v = Some s -> Spec.identifier s) as Hv
    by apply client_image_identifier.
  assert (forall x, m = Some x -> Spec.plausible x) as Hm
    by (intros x; apply client_extractMileage_plausible).
  unfold FrmConverter.convertDFlashToEEPROM, FrmConverter.DFLASH_SIZE.
  rewrite Hd. rewrite Z.eqb_refl. cbn [negb].
  unfold FrmConverter.extractVehicleData.
  rewrite client_extractMileage_pure, !bind_Ok.
  fold v. fold m. unfold FrmConverter.EEPROM_SIZE.
  unfold FrmConverter.writeEEPROMHeader.
  rewrite Uint8Array_set_ok
    by (rewrite len_filled by lia; unfold len; simpl; lia).
  rewrite bind_Ok.
  assert (len (write_at (filled 4096 xff) 0 FrmConverter.header) = 4096) as H0.
  { rewrite len_write_at; rewrite ?len_filled by lia; try lia.
    unfold len. simpl. lia. }
  rewrite client_writeVehicleData by done. rewrite bind_Ok.
  unfold FrmConverter.writeConfigurationData.
  rewrite Uint8Array_set_ok
    by (rewrite len_with_vehicle by done; unfold len; simpl; lia).
  rewrite bind_Ok.
  fold (Image.client_config d). fold (Image.client_fields v m d).
  rewrite client_calculateChecksums by (by apply len_client_fields).
  rewrite bind_Ok. done.
Qed.

Lemma server_write_vin (e : bytes) (v : option jsstring) :
  len e = 4096 -> (forall s, v = Some s -> Spec.identifier s) ->
  match v with
  | Some s => if truthy_string s then Buffer_write_ascii e s 16 else e
  | None => e
  end = match v with
        | Some s => write_at e 16 (to_u8 <$> s)
        | None => e
        end.
Proof.
  intros He Hv. destruct v as [s|]; [|done]. specialize (Hv s eq_refl).
  rewrite identifier_truthy by done. unfold Buffer_write_ascii.
  rewrite take_ge; [done|].
  pose proof (len_identifier_bytes s Hv). unfold len in *. lia.
Qed.

(** The server converts whenever its odometer scan does not read past the
    end of the source, and then returns [Image.server_image]; otherwise it
    returns a failure without data. *)
Lemma server_convert_cases (d : bytes) :
  match Server.extractMileage d with
  | Ok m =>
      Server.convertDFlashToEEPROM d =
      {| Server.success := true;
         Server.eepromData :=
           Some (Image.server_image (Server.extractVin d) m d);
         Server.error := None |}
  | Throw err =>
      Server.success (Server.convertDFlashToEEPROM d) = false /\
      Server.eepromData (Server.convertDFlashToEEPROM d) = None
  end.
Proof.
  unfold Server.convertDFlashToEEPROM. cbv zeta.
  destruct (Server.extractMileage d) as [m|err] eqn:Hm; [|done].
  assert (forall s, Server.extractVin d = Some s -> Spec.identifier s) as Hv
    by apply server_image_identifier.
  revert Hv. generalize (Server.extractVin d). intros v Hv.
  assert (forall x, m = Some x -> Spec.plausible x) as Hp
    by (intros x ->; by apply (server_extractMileage_plausible d)).
  assert (len (filled 4096 x00) = 4096) as H0 by (by apply len_filled).
  rewrite bind_Ok, server_write_vin by done.
  pose proof (len_with_vehicle _ v None H0 Hv) as H1.
  pose proof (len_with_vehicle _ v m H0 Hv) as H2.
  unfold Image.with_vehicle in H1, H2.
  assert (match m with
          | Some x =>
              writeUInt32LE
                (match v with
                 | Some s => write_at (filled 4096 x00) 16 (to_u8 <$> s)
                 | None => filled 4096 x00
                 end) x 48
          | None =>
              Ok (match v with
                  | Some s => write_at (filled 4096 x00) 16 (to_u8 <$> s)
                  | None => filled 4096 x00
                  end)
          end = Ok (Image.with_vehicle (filled 4096 x00) v m)) as ->.
  { unfold Image.with_vehicle. destruct m as [x|]; [|done].
    specialize (Hp x eq_refl). unfold Spec.plausible in Hp.
    apply writeUInt32LE_ok; lia. }
  rewrite bind_Ok. fold (Image.with_vehicle (filled 4096 x00) v m) in H2.
  unfold Buffer_copy. rewrite H2.
  fold (Image.server_config d). fold (Image.server_fields v m d).
  rewrite server_calculateEepromChecksums by (by apply len_server_fields).
  done.
Qed.

Lemma server_convert_image (d : bytes) :
  len d = 32768 ->
  Server.convertDFlashToEEPROM d =
  {| Server.success := true;
     Server.eepromData :=
       Some (Image.server_image (Server.extractVin d)
               (first_some (Scan.server_mileage d) Scan.server_mileage_offsets)
               d);
     Server.error := None |}.
Proof.
  intros Hd. pose proof (server_convert_cases d) as H.
  by rewrite server_extractMileage_pure in H by lia.
Qed.

(** * The checksum of a produced image *)

Lemma len_le_bytes (v : Z) : len (le_bytes v) = 4.
Proof. reflexivity. Qed.

Lemma len_with_checksum (e : bytes) :
  len e = 4096 -> len (Image.with_checksum e) = 4096.
Proof.
  intros He. unfold Image.with_checksum.
  rewrite len_write_at; rewrite ?len_le_bytes; lia.
Qed.

Lemma with_checksum_round_trip (e : bytes) :
  len e = 4096 ->
  Spec.stored_checksum (Image.with_checksum e)
  = Spec.additive_checksum (Image.with_checksum e).
Proof.
  intros He.
  assert (0 <= Spec.additive_checksum e < 2 ^ 32) as Hc
    by (apply Z.mod_pos_bound; lia).
  unfold Spec.stored_checksum, Spec.uint32_le.
  unfold Image.with_checksum at 1.
  replace (4092 + 4)
    with (4092 + len (le_bytes (Spec.additive_checksum e))) by reflexivity.
  rewrite slice_write_at_same by (rewrite ?len_le_bytes; lia).
  unfold le_bytes. rewrite le_value_le_bytes by done.
  unfold Spec.additive_checksum at 2, Image.with_checksum.
  rewrite slice_write_at_other by (rewrite ?len_le_bytes; lia). done.
Qed.

Lemma client_convert_size_error (d : bytes) :
  len d <> 32768 ->
  FrmConverter.convertDFlashToEEPROM d =
  {| FrmConverter.success := false;
     FrmConverter.eepromData := None;
     FrmConverter.error := Some (FrmConverter.size_error (len d));
     FrmConverter.vehicleData := None |}.
Proof.
  intros Hd. unfold FrmConverter.convertDFlashToEEPROM, FrmConverter.DFLASH_SIZE.
  destruct (Z.eqb_spec (len d) 32768); [lia|done].
Qed.

(** C2: in every image either converter produces, the little-endian
    unsigned 32-bit integer in the final four bytes, at offsets
    [4092, 4096), is the sum of the bytes at offsets [0, 4092) modulo
    2^32; the image has 4096 bytes. *)
Theorem checksum_round_trip (d e : bytes) :
  FrmConverter.eepromData (FrmConverter.convertDFlashToEEPROM d) = Some e
  \/ Server.eepromData (Server.convertDFlashToEEPROM d) = Some e ->
  len e = 4096 /\ Spec.stored_checksum e = Spec.additive_checksum e.
Proof.
  intros [H|H].
  - destruct (decide (len d = 32768)) as [Hd|Hd].
    + rewrite client_convert_image in H by done. injection H as <-.
      pose proof (len_client_fields (FrmConverter.extractVIN d)
        (first_some (Scan.client_mileage d) FrmConverter.MILEAGE_OFFSETS) d
        (client_image_identifier d)) as Hl.
      split; [by apply len_with_checksum|by apply with_checksum_round_trip].
    + by rewrite client_convert_size_error in H by done.
  - pose proof (server_convert_cases d) as Hc.
    destruct (Server.extractMileage d) as [m|err].
    + rewrite Hc in H. injection H as <-.
      pose proof (len_server_fields (Server.extractVin d) m d
        (server_image_identifier d)) as Hl.
      split; [by apply len_with_checksum|by apply with_checksum_round_trip].
    + destruct Hc as [_ Hc]. congruence.
Qed.

Lemma checksum_round_trip_witness :
  len (Image.client_image None None (Spec.uniform xff)) = 4096 /\
  Spec.stored_checksum (Image.client_image None None (Spec.uniform xff))
  = Spec.additive_checksum (Image.client_image None None (Spec.uniform xff)).
Proof.
  apply (checksum_round_trip (Spec.uniform xff)). left.
  vm_compute. reflexivity.
Defined.

(** * Sector analysis *)

Lemma filter_count_cons {X} (p : X -> bool) (x : X) (l : list X) :
  len (List.filter p (x :: l)) = (if p x then 1 else 0) + len (List.filter p l).
Proof. unfold len. simpl. destruct (p x); simpl; lia. Qed.

Lemma filter_count_bound {X} (p : X -> bool) (l : list X) :
  0 <= len (List.filter p l) <= len l.
Proof.
  induction l as [|x l IH]; [done|].
  rewrite filter_count_cons. unfold len in *. simpl length.
  destruct (p x); lia.
Qed.

Lemma filter_count_all {X} (p : X -> bool) (l : list X) :
  (forall x, x ∈ l -> p x = true) -> len (List.filter p l) = len l.
Proof.
  induction l as [|x l IH]; intros H; [done|].
  rewrite filter_count_cons, (H x), IH by set_solver.
  unfold len. simpl length. lia.
Qed.

Lemma client_sector_loop (d : bytes) (l : list Z) (a : Z) :
  (forall k, k ∈ l ->
     FrmConverter.sector_recoverable d 1024 k
     = negb (Spec.blank (Spec.sector d k))) ->
  fold_left
    (fun recoverable sector =>
       if FrmConverter.sector_recoverable d 1024 sector
       then recoverable + 1 else recoverable) l a
  = a + len (List.filter (fun k => negb (Spec.blank (Spec.sector d k))) l).
Proof.
  revert a. induction l as [|k l IH]; intros a H.
  - unfold len. simpl. lia.
  - simpl fold_left. rewrite IH by (intros; apply H; set_solver).
    rewrite filter_count_cons, (H k) by set_solver.
    destruct (negb _); lia.
Qed.

Lemma server_sector_loop (d : bytes) (l : list Z) (c r : Z) :
  fold_left (Server.sector_step d) l (c, r)
  = (c + 1024 * (len l
                 - len (List.filter
                          (fun k => negb (Spec.blank (Spec.sector d k))) l)),
     r + len (List.filter (fun k => negb (Spec.blank (Spec.sector d k))) l)).
Proof.
  revert c r. induction l as [|k l IH]; intros c r.
  - unfold len. simpl. f_equal; lia.
  - simpl fold_left. rewrite filter_count_cons.
    assert (Server.sector_step d (c, r) k
            = if Spec.blank (Spec.sector d k) then (c + 1024, r)
              else (c, r + 1)) as ->.
    { unfold Server.sector_step, Spec.blank, Spec.sector, every. simpl fst.
      simpl snd. rewrite (Z.mul_comm k 1024). by rewrite orb_comm. }
    destruct (Spec.blank (Spec.sector d k)); rewrite IH; simpl negb;
      f_equal; unfold len; rewrite ?length_cons; lia.
Qed.

Lemma client_sector_spec (d : bytes) (k : Z) :
  1024 * k + 1024 <= len d ->
  FrmConverter.sector_recoverable d 1024 k
  = negb (Spec.blank (Spec.sector d k)).
Proof.
  intros Hk. unfold FrmConverter.sector_recoverable, Spec.blank, Spec.sector.
  rewrite (Z.mul_comm k 1024), Z.min_l by lia.
  unfold every. by rewrite negb_orb.
Qed.

(** The two percentage computations in binary64, value by value. *)
Lemma client_level_table (r : Z) :
  0 <= r <= 32 ->
  Math_round (PrimFloat.mul (PrimFloat.div (of_Z r) (of_Z 32)) (of_Z 100))
  = of_Z (Spec.percent r 32).
Proof.
  intros Hr. replace r with (Z.of_nat (Z.to_nat r)) by lia.
  assert (Z.to_nat r < 33)%nat as Hn by lia.
  generalize dependent (Z.to_nat r). clear Hr. intros n Hn.
  do 33 (destruct n as [|n]; [vm_compute; reflexivity|]). lia.
Qed.

Lemma server_level_table (r : Z) :
  0 <= r <= 32 ->
  Math_round
    (PrimFloat.sub (of_Z 100)
       (PrimFloat.mul
          (PrimFloat.div (of_Z (1024 * (32 - r))) (of_Z 32768)) (of_Z 100)))
  = of_Z (Spec.percent r 32).
Proof.
  intros Hr. replace r with (Z.of_nat (Z.to_nat r)) by lia.
  assert (Z.to_nat r < 33)%nat as Hn by lia.
  generalize dependent (Z.to_nat r). clear Hr. intros n Hn.
  do 33 (destruct n as [|n]; [vm_compute; reflexivity|]). lia.
Qed.

Lemma meaningful_sectors_bound (d : bytes) :
  0 <= Spec.meaningful_sectors d <= 32.
Proof.
  pose proof (filter_count_bound
    (fun k => negb (Spec.blank (Spec.sector d k))) (seqZ 0 32)) as H.
  assert (len (seqZ 0 32) = 32) as Hl
    by (unfold len; rewrite length_seqZ; lia).
  rewrite Hl in H. exact H.
Qed.

Lemma client_sector_count (d : bytes) :
  len d = 32768 ->
  fold_left
    (fun recoverable sector =>
       if FrmConverter.sector_recoverable d 1024 sector
       then recoverable + 1 else recoverable) (seqZ 0 32) 0
  = Spec.meaningful_sectors d.
Proof.
  intros Hd. rewrite client_sector_loop.
  - unfold Spec.meaningful_sectors. apply Z.add_0_l.
  - intros k Hk. apply elem_of_seqZ in Hk. apply client_sector_spec. lia.
Qed.

Lemma server_sector_count (d : bytes) :
  fold_left (Server.sector_step d) (seqZ 0 32) (0, 0)
  = (1024 * (32 - Spec.meaningful_sectors d), Spec.meaningful_sectors d).
Proof.
  rewrite server_sector_loop. unfold Spec.meaningful_sectors.
  assert (len (seqZ 0 32) = 32) as ->
    by (unfold len; rewrite length_seqZ; lia).
  by rewrite !Z.add_0_l.
Qed.

Lemma client_analysis (d : bytes) :
  len d = 32768 ->
  FrmConverter.analyzeDFlashCorruption d =
  {| FrmConverter.corruptionLevel :=
       of_Z (Spec.percent (Spec.meaningful_sectors d) 32);
     FrmConverter.recoverableSectors := Spec.meaningful_sectors d;
     FrmConverter.totalSectors := 32 |}.
Proof.
  intros Hd. unfold FrmConverter.analyzeDFlashCorruption. cbv zeta.
  rewrite Hd. replace (32768 / 1024) with 32 by reflexivity.
  rewrite client_sector_count by done.
  by rewrite client_level_table by apply meaningful_sectors_bound.
Qed.

Lemma server_analysis (d : bytes) :
  len d = 32768 ->
  Server.analyzeCorruption d =
  {| Server.corruptionLevel :=
       of_Z (Spec.percent (Spec.meaningful_sectors d) 32);
     Server.recoverableSectors := Spec.meaningful_sectors d |}.
Proof.
  intros Hd. unfold Server.analyzeCorruption. cbv zeta.
  rewrite server_sector_count, Hd. cbn [fst snd].
  by rewrite server_level_table by apply meaningful_sectors_bound.
Qed.

Lemma server_analyzeDFlash (d : bytes) :
  len d = 32768 ->
  exists a, Server.analyzeDFlash d = Ok a /\
    Server.totalSectors a = 32 /\
    Server.analysis_recoverableSectors a = Spec.meaningful_sectors d /\
    Server.analysis_corruptionLevel a
    = of_Z (Spec.percent (Spec.meaningful_sectors d) 32).
Proof.
  intros Hd. unfold Server.analyzeDFlash, Server.extractVehicleData. cbv zeta.
  rewrite server_extractMileage_pure, !bind_Ok by lia.
  eexists. split; [reflexivity|].
  cbn [Server.totalSectors Server.analysis_recoverableSectors
       Server.analysis_corruptionLevel].
  by rewrite server_analysis by done.
Qed.

Lemma sector_uniform (b : byte) (k : Z) :
  0 <= k < 32 -> Spec.sector (Spec.uniform b) k = replicate 1024 b.
Proof.
  intros Hk. unfold Spec.sector, Spec.uniform, slice.
  rewrite drop_replicate, take_replicate. f_equal. lia.
Qed.

Lemma blank_replicate (b : byte) (n : nat) :
  b <> x00 -> b <> xff -> Spec.blank (replicate (S n) b) = false.
Proof.
  intros H0 Hff. unfold Spec.blank. simpl.
  by rewrite !bool_decide_eq_false_2 by done.
Qed.

Lemma meaningful_sectors_uniform (b : byte) :
  b <> x00 -> b <> xff -> Spec.meaningful_sectors (Spec.uniform b) = 32.
Proof.
  intros H0 Hff. unfold Spec.meaningful_sectors.
  rewrite filter_count_all.
  - unfold len. rewrite length_seqZ. lia.
  - intros k Hk. apply elem_of_seqZ in Hk.
    rewrite sector_uniform by lia.
    change 1024%nat with (S 1023). by rewrite blank_replicate.
Qed.

Lemma meaningful_sectors_erased : Spec.meaningful_sectors (Spec.uniform xff) = 0.
Proof. vm_compute. reflexivity. Qed.

(** C5: for every source image of 32768 bytes both analyzers report 32
    sectors in total, a recoverable count between 0 and 32 that is the
    number of 1024-byte sectors neither uniformly 0x00 nor uniformly 0xFF,
    and as corruption level that count times 100 over 32, rounded to the
    nearest integer (a tie going up); so the level is 0 for the image of
    0xFF bytes and 100 for an image of one repeated byte other than 0x00
    and 0xFF, such as 0x42. *)
Theorem analysis_of_source_image (d : bytes) (Hd : len d = 32768) :
  0 <= Spec.meaningful_sectors d <= 32
  /\ FrmConverter.analyzeDFlashCorruption d =
     {| FrmConverter.corruptionLevel :=
          of_Z (Spec.percent (Spec.meaningful_sectors d) 32);
        FrmConverter.recoverableSectors := Spec.meaningful_sectors d;
        FrmConverter.totalSectors := 32 |}
  /\ (exists a, Server.analyzeDFlash d = Ok a /\
        Server.totalSectors a = 32 /\
        Server.analysis_recoverableSectors a = Spec.meaningful_sectors d /\
        Server.analysis_corruptionLevel a
        = of_Z (Spec.percent (Spec.meaningful_sectors d) 32))
  /\ (d = Spec.uniform xff ->
      Spec.percent (Spec.meaningful_sectors d) 32 = 0)
  /\ (forall b, b <> x00 -> b <> xff -> d = Spec.uniform b ->
      Spec.percent (Spec.meaningful_sectors d) 32 = 100).
Proof.
  split_and!.
  - apply meaningful_sectors_bound.
  - apply meaningful_sectors_bound.
  - by apply client_analysis.
  - by apply server_analyzeDFlash.
  - intros ->. by rewrite meaningful_sectors_erased.
  - intros b H0 Hff ->. by rewrite meaningful_sectors_uniform.
Qed.

Lemma analysis_of_source_image_witness :
  FrmConverter.analyzeDFlashCorruption (Spec.uniform x42) =
  {| FrmConverter.corruptionLevel :=
       of_Z (Spec.percent (Spec.meaningful_sectors (Spec.uniform x42)) 32);
     FrmConverter.recoverableSectors :=
       Spec.meaningful_sectors (Spec.uniform x42);
     FrmConverter.totalSectors := 32 |}
  /\ Spec.percent (Spec.meaningful_sectors (Spec.uniform x42)) 32 = 100.
Proof.
  assert (len (Spec.uniform x42) = 32768) as Hd by (vm_compute; reflexivity).
  destruct (analysis_of_source_image (Spec.uniform x42) Hd)
    as (_ & Hc & _ & _ & Hu).
  split; [exact Hc|]. by apply (Hu x42).
Defined.

(** * Inputs of another size *)

Lemma count_loop_bound {X} (p : X -> bool) (l : list X) (a : Z) :
  a <= fold_left (fun r x => if p x then r + 1 else r) l a <= a + len l.
Proof.
  revert a. induction l as [|x l IH]; intros a.
  - unfold len. simpl. lia.
  - simpl fold_left. unfold len. rewrite length_cons.
    destruct (p x); [specialize (IH (a + 1))|specialize (IH a)];
      unfold len in IH; lia.
Qed.

Lemma client_recoverable_bound (d : bytes) :
  0 <= FrmConverter.recoverableSectors (FrmConverter.analyzeDFlashCorruption d)
    <= len d / 1024.
Proof.
  unfold FrmConverter.analyzeDFlashCorruption. cbv zeta.
  cbn [FrmConverter.recoverableSectors].
  assert (0 <= len d / 1024) as Hn by (apply Z.div_pos; unfold len; lia).
  revert Hn. generalize (len d / 1024). intros n Hn.
  pose proof (count_loop_bound
    (FrmConverter.sector_recoverable d 1024) (seqZ 0 n) 0) as H.
  assert (len (seqZ 0 n) = n) as Hl
    by (unfold len; rewrite length_seqZ; lia).
  rewrite Hl in H. exact H.
Qed.

Lemma readUInt32LE_short (a : bytes) (o : Z) :
  0 <= o -> len a < o + 4 -> exists err, readUInt32LE a o = Throw err.
Proof.
  intros Ho Hshort. unfold readUInt32LE.
  assert (length (slice a o (o + 4)) < 4)%nat as Hl.
  { unfold slice, len in *. rewrite length_take, length_drop. lia. }
  destruct (slice a o (o + 4)) as [|b0 [|b1 [|b2 [|b3 [|b4 l]]]]];
    simpl in Hl; try lia; eauto.
Qed.

(** A buffer that ends before offset 8196 makes the server's odometer
    scan throw at its first read. *)
Lemma server_extractMileage_short (d : bytes) :
  len d < 8196 -> exists err, Server.extractMileage d = Throw err.
Proof.
  intros Hd. unfold Server.extractMileage, range.
  replace ((12288 - 8192 + 4 - 1) / 4) with 1024 by reflexivity.
  rewrite seqZ_cons by lia. rewrite fmap_cons. cbn [first_someM].
  destruct (readUInt32LE_short d (8192 + 4 * 0) ltac:(lia) ltac:(lia))
    as [err He].
  unfold Server.mileage_at. rewrite He. by exists err.
Qed.

(** C1, as the code has it: for every input whose length is not 32768
    the client's convert operation fails with the size-mismatch message,
    which names the expected 32768 bytes and the actual length, and
    returns neither an image nor vehicle data. No other operation checks
    the size (the callers do): the client's analyze operation reports on
    the whole 1024-byte sectors of whatever buffer it is given; the
    server's convert operation returns a failure without an image when
    the buffer ends before offset 8196, where its odometer scan reads
    past the end, and converts a buffer of 12288 bytes or more; the
    server's analyze operation throws its own error in the first case and
    reports in the second. *)
Theorem size_mismatch_rejected_by_convert (d : bytes) (Hd : len d <> 32768) :
  FrmConverter.convertDFlashToEEPROM d =
  {| FrmConverter.success := false;
     FrmConverter.eepromData := None;
     FrmConverter.error :=
       Some ("Invalid D-Flash size. Expected 32768 bytes, got "
               ++ dec (len d) ++ " bytes")%string;
     FrmConverter.vehicleData := None |}
  /\ FrmConverter.totalSectors (FrmConverter.analyzeDFlashCorruption d)
     = len d / 1024
  /\ 0 <= FrmConverter.recoverableSectors (FrmConverter.analyzeDFlashCorruption d)
       <= len d / 1024
  /\ (len d < 8196 ->
      Server.success (Server.convertDFlashToEEPROM d) = false /\
      Server.eepromData (Server.convertDFlashToEEPROM d) = None /\
      Server.analyzeDFlash d = Throw (Error "Failed to analyze D-Flash data"))
  /\ (12288 <= len d ->
      Server.success (Server.convertDFlashToEEPROM d) = true /\
      exists a, Server.analyzeDFlash d = Ok a).
Proof.
  split_and!.
  - by rewrite client_convert_size_error.
  - reflexivity.
  - apply client_recoverable_bound.
  - apply client_recoverable_bound.
  - intros Hshort. destruct (server_extractMileage_short d Hshort) as [err He].
    pose proof (server_convert_cases d) as Hc. rewrite He in Hc.
    destruct Hc as [Hs Hn]. split_and!; [exact Hs|exact Hn|].
    unfold Server.analyzeDFlash, Server.extractVehicleData. cbv zeta.
    by rewrite He.
  - intros Hlong. pose proof (server_convert_cases d) as Hc.
    rewrite server_extractMileage_pure in Hc by done. rewrite Hc.
    split; [reflexivity|].
    unfold Server.analyzeDFlash, Server.extractVehicleData. cbv zeta.
    rewrite server_extractMileage_pure, !bind_Ok by done. eauto.
Qed.

Lemma size_mismatch_rejected_by_convert_witness :
  FrmConverter.success (FrmConverter.convertDFlashToEEPROM Sample.one_sector)
  = false
  /\ FrmConverter.eepromData
       (FrmConverter.convertDFlashToEEPROM Sample.one_sector) = None.
Proof.
  assert (len Sample.one_sector <> 32768) as Hd by (vm_compute; discriminate).
  destruct (size_mismatch_rejected_by_convert Sample.one_sector Hd) as [-> _].
  split; reflexivity.
Defined.

(** C1 as stated fails: the analyze operation reports on a buffer of 1024
    bytes instead of rejecting it, and the server's convert operation
    converts a buffer of 12288 bytes. *)
Lemma analyze_accepts_other_sizes :
  len Sample.one_sector <> 32768
  /\ FrmConverter.analyzeDFlashCorruption Sample.one_sector =
     {| FrmConverter.corruptionLevel := of_Z 100;
        FrmConverter.recoverableSectors := 1;
        FrmConverter.totalSectors := 1 |}
  /\ len Sample.zero_12k <> 32768
  /\ Server.success (Server.convertDFlashToEEPROM Sample.zero_12k) = true.
Proof.
  split_and!;
    [vm_compute; discriminate|vm_compute; reflexivity
    |vm_compute; discriminate|vm_compute; reflexivity].
Qed.

(** * Odometer extraction, offset by offset *)

Lemma server_mileage_Some (d : bytes) (o v : Z) :
  Scan.server_mileage d o = Some v <->
  v = Spec.uint32_le d o /\ Spec.plausible v.
Proof.
  unfold Scan.server_mileage.
  destruct (Server.plausible (Spec.uint32_le d o)) eqn:E.
  - apply server_plausible_spec in E. split; [by intros [= <-]|by intros [-> _]].
  - split; [done|]. intros [-> H]. apply server_plausible_spec in H. congruence.
Qed.

Lemma server_mileage_None (d : bytes) (o : Z) :
  Scan.server_mileage d o = None <-> ~ Spec.plausible (Spec.uint32_le d o).
Proof.
  unfold Scan.server_mileage. rewrite <- server_plausible_spec.
  destruct (Server.plausible (Spec.uint32_le d o)); split; done.
Qed.

Lemma client_mileage_Some (d : bytes) (o v : Z) :
  Scan.client_mileage d o = Some v <->
  Spec.plausible v /\
  (v = Spec.uint32_le d o \/
   ~ Spec.plausible (Spec.uint32_le d o) /\ v = Spec.uint32_be d o).
Proof.
  unfold Scan.client_mileage. rewrite <- !client_plausible_spec.
  destruct (FrmConverter.plausible (Spec.uint32_le d o)) eqn:Ele.
  - split.
    + intros [= <-]. auto.
    + intros [_ [->|[H _]]]; done.
  - destruct (FrmConverter.plausible (Spec.uint32_be d o)) eqn:Ebe.
    + split.
      * intros [= <-]. split; [done|]. right. done.
      * intros [H [->|[_ ->]]]; [congruence|done].
    + split; [done|]. intros [H [->|[_ ->]]]; congruence.
Qed.

Lemma client_mileage_None (d : bytes) (o : Z) :
  Scan.client_mileage d o = None <->
  ~ Spec.plausible (Spec.uint32_le d o) /\ ~ Spec.plausible (Spec.uint32_be d o).
Proof.
  unfold Scan.client_mileage. rewrite <- !client_plausible_spec.
  destruct (FrmConverter.plausible (Spec.uint32_le d o)),
    (FrmConverter.plausible (Spec.uint32_be d o)); split; try done;
    intros [H1 H2]; try done.
Qed.

Lemma client_mileage_offsets_sorted :
  StronglySorted Z.lt FrmConverter.MILEAGE_OFFSETS.
Proof.
  unfold FrmConverter.MILEAGE_OFFSETS.
  repeat (constructor; [|repeat constructor; lia]). constructor.
Qed.

Lemma elem_of_server_mileage_offsets (o : Z) :
  o ∈ Scan.server_mileage_offsets <-> 0x2000 <= o < 0x3000 /\ o mod 4 = 0.
Proof.
  unfold Scan.server_mileage_offsets. rewrite elem_of_range by lia. split.
  - intros (k & Hk & -> & Hlt). split; [lia|].
    Z.div_mod_to_equations. lia.
  - intros [Hr Hm]. exists ((o - 8192) / 4).
    Z.div_mod_to_equations. lia.
Qed.

(** The odometer field of an image: the four bytes at 0x30. *)
Lemma image_mileage_field (e0 : bytes) (v : option jsstring) (x : Z)
    (cfg : bytes) :
  len e0 = 4096 -> (forall s, v = Some s -> Spec.identifier s) ->
  len cfg <= 1024 ->
  slice (Image.with_checksum
           (write_at (Image.with_vehicle e0 v (Some x)) 0x100 cfg)) 0x30 0x34
  = le_bytes x.
Proof.
  intros He Hv Hcfg.
  pose proof (len_with_vehicle e0 v (Some x) He Hv) as H1.
  pose proof (len_with_vehicle e0 v None He Hv) as H0.
  unfold Image.with_checksum.
  rewrite slice_write_at_other
    by (rewrite ?len_write_at, ?len_le_bytes; lia).
  rewrite slice_write_at_other by lia.
  unfold Image.with_vehicle in *.
  replace 0x34 with (0x30 + len (le_bytes x)) by reflexivity.
  apply slice_write_at_same; rewrite ?len_le_bytes; lia.
Qed.

Lemma uint32_le_le_bytes (e : bytes) (o x : Z) :
  0 <= x < 2 ^ 32 -> slice e o (o + 4) = le_bytes x -> Spec.uint32_le e o = x.
Proof.
  intros Hx He. unfold Spec.uint32_le. rewrite He. unfold le_bytes.
  by apply le_value_le_bytes.
Qed.

Lemma server_image_mileage (d : bytes) (x : Z) :
  Spec.plausible x ->
  slice (Image.server_image (Server.extractVin d) (Some x) d) 0x30 0x34
  = le_bytes x
  /\ Spec.uint32_le (Image.server_image (Server.extractVin d) (Some x) d) 0x30
     = x.
Proof.
  intros Hx. unfold Image.server_image, Image.server_fields.
  assert (slice (Image.with_checksum
                   (write_at
                      (Image.with_vehicle (filled 4096 x00)
                         (Server.extractVin d) (Some x))
                      256 (Image.server_config d))) 48 52 = le_bytes x) as H.
  { apply image_mileage_field.
    - by apply len_filled.
    - apply server_image_identifier.
    - apply len_server_config. }
  split; [exact H|].
  apply uint32_le_le_bytes; [unfold Spec.plausible in Hx; lia|exact H].
Qed.

Lemma client_image_mileage (d : bytes) (x : Z) :
  Spec.plausible x ->
  slice (Image.client_image (FrmConverter.extractVIN d) (Some x) d) 0x30 0x34
  = le_bytes x
  /\ Spec.uint32_le (Image.client_image (FrmConverter.extractVIN d) (Some x) d)
       0x30 = x.
Proof.
  intros Hx. unfold Image.client_image, Image.client_fields.
  assert (slice (Image.with_checksum
                   (write_at
                      (Image.with_vehicle
                         (write_at (filled 4096 xff) 0 FrmConverter.header)
                         (FrmConverter.extractVIN d) (Some x))
                      256 (Image.client_config d))) 48 52 = le_bytes x) as H.
  { apply image_mileage_field.
    - rewrite len_write_at; rewrite ?len_filled by lia; try lia.
      unfold len. simpl. lia.
    - apply client_image_identifier.
    - unfold len. simpl. lia. }
  split; [exact H|].
  apply uint32_le_le_bytes; [unfold Spec.plausible in Hx; lia|exact H].
Qed.

(** C7, as the code has it: both odometer extractors visit their offsets
    in ascending order and return absence exactly when no visited offset
    qualifies. The server's extractor (offsets 0x2000, 0x2004, ... below
    0x3000) decodes little-endian and accepts the first value strictly
    between 0 and 1,000,000. The client's extractor (offsets 0x2100,
    0x2200, 0x2300, 0x2400) accepts at each offset the little-endian value
    if it lies strictly between 0 and 1,000,000 and otherwise the
    big-endian value if that does. On success the accepted value is
    written as a little-endian unsigned 32-bit integer at offset 0x30 of
    the image. *)
Theorem odometer_extraction (d : bytes) (Hd : len d = 32768) :
  (exists r, Server.extractMileage d = Ok r /\
     (forall v, r = Some v ->
        Spec.plausible v /\
        (exists o, o ∈ Scan.server_mileage_offsets /\
           v = Spec.uint32_le d o /\
           forall o', o' ∈ Scan.server_mileage_offsets -> o' < o ->
                      ~ Spec.plausible (Spec.uint32_le d o')) /\
        (exists e,
           Server.eepromData (Server.convertDFlashToEEPROM d) = Some e /\
           slice e 0x30 0x34 = le_bytes v /\ Spec.uint32_le e 0x30 = v)) /\
     (r = None <->
      forall o, o ∈ Scan.server_mileage_offsets ->
                ~ Spec.plausible (Spec.uint32_le d o)))
  /\
  (exists r, FrmConverter.extractMileage d = Ok r /\
     (forall v, r = Some v ->
        Spec.plausible v /\
        (exists o, o ∈ FrmConverter.MILEAGE_OFFSETS /\
           (v = Spec.uint32_le d o \/
            ~ Spec.plausible (Spec.uint32_le d o) /\ v = Spec.uint32_be d o) /\
           forall o', o' ∈ FrmConverter.MILEAGE_OFFSETS -> o' < o ->
                      ~ Spec.plausible (Spec.uint32_le d o') /\
                      ~ Spec.plausible (Spec.uint32_be d o')) /\
        (exists e,
           FrmConverter.eepromData (FrmConverter.convertDFlashToEEPROM d)
           = Some e /\
           slice e 0x30 0x34 = le_bytes v /\ Spec.uint32_le e 0x30 = v)) /\
     (r = None <->
      forall o, o ∈ FrmConverter.MILEAGE_OFFSETS ->
                ~ Spec.plausible (Spec.uint32_le d o) /\
                ~ Spec.plausible (Spec.uint32_be d o))).
Proof.
  split.
  - exists (first_some (Scan.server_mileage d) Scan.server_mileage_offsets).
    split; [apply server_extractMileage_pure; lia|]. split.
    + intros v Hv.
      assert (StronglySorted Z.lt Scan.server_mileage_offsets) as Hs
        by (apply range_sorted; lia).
      destruct (first_some_ascending _ _ _ Hs Hv) as (o & Ho & Hb & Hbefore).
      apply server_mileage_Some in Hb as [Hvo Hp]. split_and!; [done| |].
      * exists o. split_and!; [done|done|].
        intros o' Ho' Hlt. apply server_mileage_None. by apply Hbefore.
      * eexists. rewrite server_convert_image, Hv by done.
        split; [reflexivity|]. by apply server_image_mileage.
    + rewrite first_some_None. split; intros H o Ho.
      * apply server_mileage_None. by apply H.
      * apply server_mileage_None. by apply H.
  - exists (first_some (Scan.client_mileage d) FrmConverter.MILEAGE_OFFSETS).
    split; [apply client_extractMileage_pure|]. split.
    + intros v Hv.
      destruct (first_some_ascending _ _ _ client_mileage_offsets_sorted Hv)
        as (o & Ho & Hb & Hbefore).
      apply client_mileage_Some in Hb as [Hp Hvo]. split_and!; [done| |].
      * exists o. split_and!; [done|done|].
        intros o' Ho' Hlt. apply client_mileage_None. by apply Hbefore.
      * eexists. rewrite client_convert_image by done.
        cbn [FrmConverter.eepromData]. rewrite Hv.
        split; [reflexivity|]. by apply client_image_mileage.
    + rewrite first_some_None. split; intros H o Ho.
      * apply client_mileage_None. by apply H.
      * apply client_mileage_None. by apply H.
Qed.

Lemma odometer_extraction_witness :
  exists e,
    Server.eepromData (Server.convertDFlashToEEPROM Sample.le_mileage_image)
    = Some e /\ Spec.uint32_le e 0x30 = 123456.
Proof.
  assert (len Sample.le_mileage_image = 32768) as Hd
    by (vm_compute; reflexivity).
  destruct (odometer_extraction Sample.le_mileage_image Hd)
    as [(r & Hr & Hsome & _) _].
  assert (r = Some 123456) as Hv.
  { assert (Server.extractMileage Sample.le_mileage_image = Ok (Some 123456))
      as Hc by (vm_compute; reflexivity).
    rewrite Hc in Hr. by injection Hr. }
  destruct (Hsome _ Hv) as (_ & _ & e & He & _ & Hw).
  exists e. split; [exact He|exact Hw].
Defined.

(** C7 as stated fails on the client: no visited offset of this image
    holds a little-endian value strictly between 0 and 1,000,000, yet the
    extractor returns 123456, the big-endian reading at 0x2100, instead
    of absence. *)
Lemma client_accepts_big_endian_value :
  len Sample.be_mileage_image = 32768 /\
  Forall (fun o => ~ Spec.plausible (Spec.uint32_le Sample.be_mileage_image o))
    FrmConverter.MILEAGE_OFFSETS /\
  Spec.uint32_le Sample.be_mileage_image 0x2100 = 1088553216 /\
  FrmConverter.extractMileage Sample.be_mileage_image = Ok (Some 123456).
Proof.
  split_and!.
  - vm_compute. reflexivity.
  - repeat constructor; intros [_ H]; vm_compute in H; discriminate H.
  - vm_compute. reflexivity.
  - vm_compute. reflexivity.
Qed.

(** * The layout of the images *)

Lemma get_write_at_outside (a : bytes) (off : Z) (src : bytes) (i : Z) :
  0 <= off -> off + len src <= len a -> 0 <= i ->
  i < off \/ off + len src <= i ->
  get (write_at a off src) i = get a i.
Proof.
  intros Hoff Hfit Hi Hout. rewrite !get_Z by done.
  rewrite lookup_write_at by done.
  case_decide; [unfold len in *; lia|done].
Qed.

Lemma get_filled (n : Z) (v : byte) (i : Z) :
  0 <= i < n -> get (filled n v) i = Some v.
Proof.
  intros Hi. rewrite get_Z by lia. unfold filled.
  apply lookup_replicate_2. lia.
Qed.

Lemma slice_filled (n : Z) (v : byte) (s e : Z) :
  0 <= s -> s <= e -> e <= n ->
  slice (filled n v) s e = replicate (Z.to_nat (e - s)) v.
Proof.
  intros Hs Hse He. unfold slice, filled.
  rewrite drop_replicate, take_replicate. f_equal. lia.
Qed.

(** Outside the identifier and odometer fields, [with_vehicle] leaves the
    buffer as it was. *)
Lemma get_with_vehicle (e : bytes) (v : option jsstring) (m : option Z)
    (i : Z) :
  len e = 4096 -> (forall s, v = Some s -> Spec.identifier s) -> 0 <= i ->
  (is_Some v -> ~ 16 <= i < 33) -> (is_Some m -> ~ 48 <= i < 52) ->
  get (Image.with_vehicle e v m) i = get e i.
Proof.
  intros He Hv Hi Hvi Hmi.
  pose proof (len_with_vehicle e v None He Hv) as H0.
  unfold Image.with_vehicle in *.
  assert (get (match v with
               | Some s => write_at e 16 (to_u8 <$> s)
               | None => e
               end) i = get e i) as Hg.
  { destruct v as [s|]; [|done].
    pose proof (len_identifier_bytes s (Hv s eq_refl)).
    apply get_write_at_outside; try lia.
    assert (~ 16 <= i < 33) by (apply Hvi; eauto). lia. }
  destruct m as [x|]; [|done]. rewrite <- Hg.
  apply get_write_at_outside; rewrite ?len_le_bytes; try lia.
  assert (~ 48 <= i < 52) by (apply Hmi; eauto). lia.
Qed.

(** The client's image: every byte outside the header, the fields that
    were written, the four configuration bytes and the checksum is 0xFF. *)
Lemma client_image_frame (d : bytes) (v : option jsstring) (m : option Z)
    (i : Z) :
  (forall s, v = Some s -> Spec.identifier s) ->
  16 <= i < 4092 ->
  (is_Some v -> ~ 16 <= i < 33) -> (is_Some m -> ~ 48 <= i < 52) ->
  ~ 256 <= i < 260 ->
  get (Image.client_image v m d) i = Some xff.
Proof.
  intros Hv Hi Hvi Hmi Hcfg.
  assert (len (write_at (filled 4096 xff) 0 FrmConverter.header) = 4096) as H0.
  { rewrite len_write_at; rewrite ?len_filled by lia; try lia.
    unfold len. simpl. lia. }
  assert (len (Image.client_config d) = 4) as Hc by reflexivity.
  pose proof (len_with_vehicle _ v m H0 Hv) as H1.
  unfold Image.client_image, Image.with_checksum.
  rewrite get_write_at_outside
    by (rewrite ?len_client_fields, ?len_le_bytes by done; lia).
  unfold Image.client_fields.
  rewrite get_write_at_outside by lia.
  rewrite get_with_vehicle by (done || lia).
  rewrite get_write_at_outside
    by (rewrite ?len_filled by lia; unfold len; simpl; lia).
  apply get_filled. lia.
Qed.

(** The server's image: every byte outside the fields that were written,
    the configuration text and the checksum is 0x00. *)
Lemma server_image_frame (d : bytes) (v : option jsstring) (m : option Z)
    (i : Z) :
  (forall s, v = Some s -> Spec.identifier s) ->
  0 <= i < 4092 ->
  (is_Some v -> ~ 16 <= i < 33) -> (is_Some m -> ~ 48 <= i < 52) ->
  ~ 256 <= i < 256 + len (Image.server_config d) ->
  get (Image.server_image v m d) i = Some x00.
Proof.
  intros Hv Hi Hvi Hmi Hcfg.
  assert (len (filled 4096 x00) = 4096) as H0 by (by apply len_filled).
  pose proof (len_server_config d) as Hc.
  pose proof (len_with_vehicle _ v m H0 Hv) as H1.
  unfold Image.server_image, Image.with_checksum.
  rewrite get_write_at_outside
    by (rewrite ?len_server_fields, ?len_le_bytes by done; lia).
  unfold Image.server_fields.
  rewrite get_write_at_outside by lia.
  rewrite get_with_vehicle by (done || lia).
  apply get_filled. lia.
Qed.

(** The first sixteen bytes of the client's image are the header. *)
Lemma client_image_header (d : bytes) (v : option jsstring) (m : option Z) :
  (forall s, v = Some s -> Spec.identifier s) ->
  slice (Image.client_image v m d) 0 16 = FrmConverter.header.
Proof.
  intros Hv.
  assert (len (filled 4096 xff) = 4096) as Hf by (by apply len_filled).
  assert (len FrmConverter.header = 16) as Hh by reflexivity.
  assert (len (write_at (filled 4096 xff) 0 FrmConverter.header) = 4096) as H0
    by (rewrite len_write_at; lia).
  assert (len (Image.client_config d) = 4) as Hc by reflexivity.
  pose proof (len_with_vehicle _ v m H0 Hv) as H1.
  pose proof (len_with_vehicle _ v None H0 Hv) as H2.
  unfold Image.client_image, Image.with_checksum.
  rewrite slice_write_at_other
    by (rewrite ?len_client_fields, ?len_le_bytes by done; lia).
  unfold Image.client_fields.
  rewrite slice_write_at_other by lia.
  unfold Image.with_vehicle in *.
  assert (slice (match v with
                 | Some s =>
                     write_at
                       (write_at (filled 4096 xff) 0 FrmConverter.header) 16
                       (to_u8 <$> s)
                 | None => write_at (filled 4096 xff) 0 FrmConverter.header
                 end) 0 16 = FrmConverter.header) as Hs.
  { destruct v as [s|].
    - pose proof (len_identifier_bytes s (Hv s eq_refl)).
      rewrite slice_write_at_other by lia.
      replace 16 with (0 + len FrmConverter.header) by reflexivity.
      apply slice_write_at_same; lia.
    - replace 16 with (0 + len FrmConverter.header) by reflexivity.
      apply slice_write_at_same; lia. }
  destruct m as [x|]; [|exact Hs].
  rewrite slice_write_at_other by (rewrite ?len_le_bytes; lia). exact Hs.
Qed.

Lemma slice_all (a : bytes) (s e : Z) (v : byte) :
  0 <= s -> s <= e ->
  (forall i, s <= i < e -> get a i = Some v) ->
  slice a s e = replicate (Z.to_nat (e - s)) v.
Proof.
  intros Hs Hse H. apply list_eq. intros k.
  destruct (decide (k < Z.to_nat (e - s))%nat) as [Hk|Hk].
  - rewrite lookup_slice, lookup_replicate_2 by lia.
    specialize (H (s + Z.of_nat k) ltac:(lia)). rewrite get_Z in H by lia.
    by replace (Z.to_nat (s + Z.of_nat k)) with (Z.to_nat s + k)%nat in H by lia.
  - rewrite lookup_slice_ge by lia. symmetry.
    apply lookup_replicate_None. lia.
Qed.

(** On the client the claim of C3 holds for every source image: the image
    is erased to 0xFF first, so a byte outside the header, the written
    fields, the four configuration bytes and the checksum is 0xFF. *)
Lemma client_unused_bytes_erased (d : bytes) (i : Z) :
  len d = 32768 ->
  exists e v m mo,
    FrmConverter.convertDFlashToEEPROM d =
    {| FrmConverter.success := true;
       FrmConverter.eepromData := Some e;
       FrmConverter.error := None;
       FrmConverter.vehicleData :=
         Some {| FrmConverter.vin := v; FrmConverter.mileage := m;
                 FrmConverter.model := mo |} |} /\
    (16 <= i < 4092 -> (is_Some v -> ~ 16 <= i < 33) ->
     (is_Some m -> ~ 48 <= i < 52) -> ~ 256 <= i < 260 ->
     get e i = Some xff).
Proof.
  intros Hd. do 4 eexists. split; [by apply client_convert_image|].
  apply client_image_frame, client_image_identifier.
Qed.

Lemma erased_source_has_no_fields :
  len (Spec.uniform xff) = 32768 /\
  Server.extractVin (Spec.uniform xff) = None /\
  first_some (Scan.server_mileage (Spec.uniform xff))
    Scan.server_mileage_offsets = None.
Proof. split_and!; vm_compute; reflexivity. Qed.

(** C3 at the erased source image, on the server: the conversion
    succeeds and the image it returns holds 0x00, not 0xFF, at the unused
    offset 0x40, in the identifier field [0x10, 0x21) of the absent
    identifier and in the odometer field [0x30, 0x34) of the absent
    odometer value: [Buffer.alloc] zero-fills and nothing erases the
    buffer to 0xFF. *)
Theorem server_image_unused_bytes_are_zero :
  exists e,
    Server.convertDFlashToEEPROM (Spec.uniform xff) =
    {| Server.success := true; Server.eepromData := Some e;
       Server.error := None |} /\
    Server.extractVin (Spec.uniform xff) = None /\
    Server.extractMileage (Spec.uniform xff) = Ok None /\
    get e 0x40 = Some x00 /\
    slice e 0x10 0x21 = replicate 17 x00 /\
    slice e 0x30 0x34 = replicate 4 x00.
Proof.
  destruct erased_source_has_no_fields as (Hd & Hv & Hm).
  assert (forall i, 0 <= i < 256 ->
            get (Image.server_image None None (Spec.uniform xff)) i = Some x00)
    as Hz.
  { intros i Hi. apply server_image_frame.
    - intros s [=].
    - lia.
    - intros [x [=]].
    - intros [x [=]].
    - lia. }
  exists (Image.server_image None None (Spec.uniform xff)). split_and!.
  - by rewrite server_convert_image, Hv, Hm by done.
  - exact Hv.
  - by rewrite server_extractMileage_pure, Hm by lia.
  - apply Hz. lia.
  - apply (slice_all _ 16 33); [lia|lia|]. intros i Hi. apply Hz. lia.
  - apply (slice_all _ 48 52); [lia|lia|]. intros i Hi. apply Hz. lia.
Qed.

(** On the client the claim of C4 holds for every source image: the
    header is written first, into the erased buffer, and the first
    sixteen bytes of the image are that constant. *)
Lemma client_header_written (d : bytes) :
  len d = 32768 ->
  exists e,
    FrmConverter.eepromData (FrmConverter.convertDFlashToEEPROM d) = Some e /\
    slice e 0 16 = FrmConverter.header.
Proof.
  intros Hd. eexists. rewrite client_convert_image by done.
  split; [reflexivity|]. apply client_image_header, client_image_identifier.
Qed.

(** C4 at the erased source image, on the server: the conversion
    succeeds and the first sixteen bytes of the image it returns are
    0x00; the server's converter has no header write. *)
Theorem server_image_has_no_header :
  exists e,
    Server.convertDFlashToEEPROM (Spec.uniform xff) =
    {| Server.success := true; Server.eepromData := Some e;
       Server.error := None |} /\
    slice e 0 16 = replicate 16 x00 /\
    slice e 0 16 <> FrmConverter.header.
Proof.
  destruct erased_source_has_no_fields as (Hd & Hv & Hm).
  assert (slice (Image.server_image None None (Spec.uniform xff)) 0 16
          = replicate 16 x00) as Hs.
  { apply (slice_all _ 0 16); [lia|lia|]. intros i Hi.
    apply server_image_frame.
    - intros s [=].
    - lia.
    - intros [x [=]].
    - intros [x [=]].
    - lia. }
  exists (Image.server_image None None (Spec.uniform xff)). split_and!.
  - by rewrite server_convert_image, Hv, Hm by done.
  - exact Hs.
  - rewrite Hs. discriminate.
Qed.

(** * The identifier scan looks at few offsets *)

Lemma first_some_ext_in {X A} (body1 body2 : X -> option A) (l : list X) :
  (forall x, x ∈ l -> body1 x = body2 x) ->
  first_some body1 l = first_some body2 l.
Proof.
  induction l as [|x l IH]; intros H; [done|]. simpl.
  rewrite (H x) by apply list_elem_of_here.
  rewrite IH; [done|]. intros y Hy. apply H. by apply list_elem_of_further.
Qed.

Lemma client_image_absent_identifier (d : bytes) (m : option Z) :
  slice (Image.client_image None m d) 0x10 0x21 = replicate 17 xff.
Proof.
  apply (slice_all _ 16 33); [lia|lia|]. intros i Hi.
  apply client_image_frame.
  - intros s [=].
  - lia.
  - intros [x [=]].
  - intros _. lia.
  - lia.
Qed.

Lemma server_image_absent_identifier (d : bytes) (m : option Z) :
  slice (Image.server_image None m d) 0x10 0x21 = replicate 17 x00.
Proof.
  apply (slice_all _ 16 33); [lia|lia|]. intros i Hi.
  apply server_image_frame.
  - intros s [=].
  - lia.
  - intros [x [=]].
  - intros _. lia.
  - lia.
Qed.

(** X29: identifier extraction inspects only its fixed offsets: 0x1000,
    0x1500 and 0x2000 on the client, the multiples of 16 from 0x1000 up
    to, not including, 0x2000 on the server. Two sources that agree on the
    17-byte windows at those offsets give the same result; and when no
    window at such an offset decodes to an identifier (wherever else one
    may lie), extraction returns absence and the identifier field
    [0x10, 0x21) of the image keeps the fill byte of the fresh buffer. *)
Theorem identifier_scan_is_sparse (d : bytes) (Hd : len d = 32768) :
  Scan.client_vin_offsets = [0x1000; 0x1500; 0x2000]
  /\ (forall off, off ∈ Scan.server_vin_offsets <->
                  0x1000 <= off < 0x2000 /\ off mod 16 = 0)
  /\ (forall d',
        (forall off, off ∈ Scan.client_vin_offsets ->
                     slice d' off (off + 17) = slice d off (off + 17)) ->
        FrmConverter.extractVIN d' = FrmConverter.extractVIN d)
  /\ (forall d',
        (forall off, off ∈ Scan.server_vin_offsets ->
                     slice d' off (off + 17) = slice d off (off + 17)) ->
        Server.extractVin d' = Server.extractVin d)
  /\ ((forall off, off ∈ Scan.client_vin_offsets ->
                   ~ Spec.identifier (Scan.client_candidate d off)) ->
      FrmConverter.extractVIN d = None /\
      exists e,
        FrmConverter.eepromData (FrmConverter.convertDFlashToEEPROM d) = Some e
        /\ slice e 0x10 0x21 = replicate 17 xff)
  /\ ((forall off, off ∈ Scan.server_vin_offsets ->
                   ~ Spec.identifier (Scan.server_candidate d off)) ->
      Server.extractVin d = None /\
      exists e,
        Server.eepromData (Server.convertDFlashToEEPROM d) = Some e
        /\ slice e 0x10 0x21 = replicate 17 x00).
Proof.
  split_and!.
  - reflexivity.
  - apply elem_of_server_vin_offsets.
  - intros d' H. rewrite !client_extractVIN_scan.
    apply first_some_ext_in. intros off Hoff.
    unfold Scan.accept, Scan.client_candidate. by rewrite H.
  - intros d' H. rewrite !server_extractVin_scan.
    apply first_some_ext_in. intros off Hoff.
    unfold Scan.accept, Scan.server_candidate. by rewrite H.
  - intros H.
    assert (FrmConverter.extractVIN d = None) as Hv
      by (by apply client_extractVIN_absent).
    split; [exact Hv|]. eexists.
    rewrite client_convert_image by done. cbn [FrmConverter.eepromData].
    split; [reflexivity|]. rewrite Hv.
    apply client_image_absent_identifier.
  - intros H.
    assert (Server.extractVin d = None) as Hv
      by (by apply server_extractVin_absent).
    split; [exact Hv|]. eexists.
    rewrite server_convert_image by done. cbn [Server.eepromData].
    split; [reflexivity|]. rewrite Hv.
    apply server_image_absent_identifier.
Qed.

Lemma identifier_scan_is_sparse_witness :
  Spec.identifier (Scan.client_candidate Sample.shifted_vin_image 0x1001)
  /\ FrmConverter.extractVIN Sample.shifted_vin_image = None
  /\ Server.extractVin Sample.shifted_vin_image = None
  /\ exists e,
       Server.eepromData (Server.convertDFlashToEEPROM Sample.shifted_vin_image)
       = Some e /\ slice e 0x10 0x21 = replicate 17 x00.
Proof.
  assert (len Sample.shifted_vin_image = 32768) as Hd
    by (vm_compute; reflexivity).
  destruct (identifier_scan_is_sparse Sample.shifted_vin_image Hd)
    as (_ & _ & _ & _ & Hclient & Hserver).
  assert (forall off, off ∈ Scan.client_vin_offsets ->
            ~ Spec.identifier (Scan.client_candidate Sample.shifted_vin_image off))
    as Hc.
  { intros off Hoff. apply elem_of_client_vin_offsets in Hoff.
    rewrite <- vin_regex_test_identifier.
    destruct Hoff as [->|[->| ->]]; vm_compute; discriminate. }
  assert (forall off, off ∈ Scan.server_vin_offsets ->
            ~ Spec.identifier (Scan.server_candidate Sample.shifted_vin_image off))
    as Hs.
  { assert (forallb
              (fun off =>
                 negb (vin_regex_test
                         (Scan.server_candidate Sample.shifted_vin_image off)))
              Scan.server_vin_offsets = true) as Hall
      by (vm_compute; reflexivity).
    rewrite forallb_forall in Hall. intros off Hoff.
    apply list_elem_of_In, Hall in Hoff.
    rewrite <- vin_regex_test_identifier.
    destruct (vin_regex_test _); [discriminate Hoff|discriminate]. }
  split_and!.
  - apply vin_regex_test_identifier. vm_compute. reflexivity.
  - exact (proj1 (Hclient Hc)).
  - exact (proj1 (Hserver Hs)).
  - exact (proj2 (Hserver Hs)).
Defined.

(** * Fields derived from the identifier *)

(** C9, as the code has it: when an identifier is found, the client's
    category label is the entry of its table for the first three
    characters and the fallback label "BMW (Unknown Model)" for an
    unmapped prefix, never absence; the server's category label is its
    label for the prefixes WBA, WBY and 5UX and absence for every other
    prefix; the production year, which only the server derives, is the
    entry of the year table for the character at index 9, and absence
    when that character is unmapped. *)
Theorem derived_fields (d : bytes) :
  (forall s, FrmConverter.extractVIN d = Some s ->
     FrmConverter.extractModel d
     = Some (default "BMW (Unknown Model)"%string
               (FrmConverter.modelMap !! take 3 s))
     /\ (FrmConverter.modelMap !! take 3 s = None ->
         FrmConverter.extractModel d = Some "BMW (Unknown Model)"%string))
  /\ (forall s, Server.extractVin d = Some s ->
        (take 3 s = lit "WBA" ->
         Server.extractModel d = Some "BMW 3 Series"%string) /\
        (take 3 s = lit "WBY" ->
         Server.extractModel d = Some "BMW X3"%string) /\
        (take 3 s = lit "5UX" ->
         Server.extractModel d = Some "BMW X3 US"%string) /\
        (take 3 s <> lit "WBA" -> take 3 s <> lit "WBY" ->
         take 3 s <> lit "5UX" -> Server.extractModel d = None))
  /\ (forall s, Server.extractVin d = Some s ->
        Server.extractYear d = Server.yearMap !! take 1 (drop 9 s)
        /\ (Server.yearMap !! take 1 (drop 9 s) = None ->
            Server.extractYear d = None)).
Proof.
  split_and!.
  - intros s Hs. pose proof (client_image_identifier d s Hs) as Hid.
    unfold FrmConverter.extractModel. rewrite Hs, identifier_truthy by done.
    split; [reflexivity|]. cbv zeta. unfold substring.
    change (Z.to_nat (3 - 0)) with 3%nat. change (Z.to_nat 0) with 0%nat.
    rewrite drop_0. by intros ->.
  - intros s Hs. pose proof (server_image_identifier d s Hs) as Hid.
    unfold Server.extractModel. rewrite Hs, identifier_truthy by done.
    cbv zeta. unfold substring.
    change (Z.to_nat (3 - 0)) with 3%nat. change (Z.to_nat 0) with 0%nat.
    rewrite drop_0. split_and!.
    + intros ->. reflexivity.
    + intros ->. reflexivity.
    + intros ->. reflexivity.
    + intros H1 H2 H3. by rewrite !bool_decide_eq_false_2 by done.
  - intros s Hs. pose proof (server_image_identifier d s Hs) as Hid.
    unfold Server.extractYear. rewrite Hs, identifier_truthy by done.
    cbv zeta. unfold charAt. change (Z.to_nat 9) with 9%nat.
    split; [reflexivity|]. by intros ->.
Qed.

Lemma derived_fields_witness :
  FrmConverter.extractModel Sample.vin_image = Some "BMW 3 Series"%string
  /\ Server.extractModel Sample.vin_image = Some "BMW 3 Series"%string
  /\ Server.extractYear Sample.vin_image = Some 2007.
Proof.
  assert (FrmConverter.extractVIN Sample.vin_image
          = Some (lit "WBA12345678901234")) as Hc by (vm_compute; reflexivity).
  assert (Server.extractVin Sample.vin_image
          = Some (lit "WBA12345678901234")) as Hs by (vm_compute; reflexivity).
  destruct (derived_fields Sample.vin_image) as (Hmodel & Hserver & Hyear).
  split_and!.
  - rewrite (proj1 (Hmodel _ Hc)). vm_compute. reflexivity.
  - apply (proj1 (Hserver _ Hs)). vm_compute. reflexivity.
  - rewrite (proj1 (Hyear _ Hs)). vm_compute. reflexivity.
Defined.

(** C9 as stated fails on the server: the identifier found has the
    prefix WBX, which is not one of the server's three, and the category
    label is absent instead of a fallback label. *)
Lemma server_model_absent_for_unmapped_prefix :
  Server.extractVin Sample.x1_vin_image = Some (lit "WBX12345678901234")
  /\ Server.extractModel Sample.x1_vin_image = None.
Proof. split; vm_compute; reflexivity. Qed.

(** * Signature detection *)

(** Decoding as [windows-1252] maps exactly the byte [c] to an ASCII
    character [c]. *)
Lemma windows1252_ascii (b : byte) (c : Z) :
  0 <= c < 128 -> windows1252 b = c <-> b = to_u8 c.
Proof.
  intros Hc. unfold windows1252. cbv zeta. pose proof (u8_range b) as Hb.
  destruct ((128 <=? u8 b) && (u8 b <? 160)) eqn:E.
  - assert (128 <= default (u8 b) (windows1252_high !! Z.to_nat (u8 b - 128)))
      as Hhigh.
    { destruct (windows1252_high !! Z.to_nat (u8 b - 128)) as [x|] eqn:Hx;
        simpl; [|lia].
      assert (forallb (fun x => 128 <=? x) windows1252_high = true) as Hall
        by reflexivity.
      rewrite forallb_forall in Hall.
      apply list_elem_of_lookup_2, list_elem_of_In, Hall in Hx. lia. }
    split; [lia|]. intros ->. rewrite u8_to_u8, Z.mod_small in E; lia.
  - split.
    + intros <-. symmetry. apply to_u8_u8.
    + intros ->. rewrite u8_to_u8, Z.mod_small; lia.
Qed.

(** Searching the decoded text for an ASCII token is searching the bytes
    for the token's bytes. *)
Lemma starts_with_decoded (pat : jsstring) (hay : bytes) :
  Forall (fun c => 0 <= c < 128) pat ->
  starts_with pat (TextDecoder_ascii hay) = starts_with (to_u8 <$> pat) hay.
Proof.
  intros Hpat. revert hay.
  induction Hpat as [|c pat Hc Hpat IH]; intros hay; [done|].
  destruct hay as [|h hay]; [done|].
  unfold TextDecoder_ascii. rewrite !fmap_cons. simpl.
  fold (TextDecoder_ascii hay). rewrite IH. f_equal.
  apply bool_decide_ext. split.
  - intros H. symmetry. by apply windows1252_ascii.
  - intros H. symmetry. by apply windows1252_ascii.
Qed.

Lemma includes_decoded (pat : jsstring) (hay : bytes) :
  Forall (fun c => 0 <= c < 128) pat ->
  includes (TextDecoder_ascii hay) pat = includes hay (to_u8 <$> pat).
Proof.
  intros Hpat. induction hay as [|h hay IH].
  - simpl. by rewrite <- (starts_with_decoded pat []).
  - unfold TextDecoder_ascii in *. rewrite fmap_cons.
    cbn [includes]. rewrite IH. f_equal.
    by rewrite <- (starts_with_decoded pat (h :: hay)).
Qed.

Lemma lit_ascii (s : string) :
  forallb (fun c => (0 <=? c) && (c <? 128)) (lit s) = true ->
  Forall (fun c => 0 <= c < 128) (lit s).
Proof.
  intros H. apply Forall_forall. intros c Hc.
  rewrite forallb_forall in H. apply list_elem_of_In, H in Hc. lia.
Qed.

(** C8, as the code has it: the server's detector looks for the markers
    in the window [256, 272), XEQ384 before XET512, and a marker found
    there decides the label; for every image of 32768 bytes with no
    marker in either window it returns "FRM3 Unknown", and for every
    input of another size with no marker in either window the different
    label "FRM2". The client's detector searches the whole image for
    XEQ384, XET512 and FRM2, in that order, and returns "FRM3 Unknown"
    when none occurs, whatever the size. *)
Theorem signature_detection (d : bytes) :
  (includes (Scan.window1 d) Scan.XEQ384 = true ->
   Server.detectFrmType d = "FRM3 XEQ384"%string)
  /\ (includes (Scan.window1 d) Scan.XEQ384 = false ->
      includes (Scan.window1 d) Scan.XET512 = true ->
      Server.detectFrmType d = "FRM3 XET512"%string)
  /\ (Scan.has_marker (Scan.window1 d) = false ->
      Scan.has_marker (Scan.window2 d) = false ->
      len d = 32768 -> Server.detectFrmType d = "FRM3 Unknown"%string)
  /\ (Scan.has_marker (Scan.window1 d) = false ->
      Scan.has_marker (Scan.window2 d) = false ->
      len d <> 32768 -> Server.detectFrmType d = "FRM2"%string)
  /\ FrmConverter.detectFRMType d =
     (if includes d Scan.XEQ384 then "FRM3 XEQ384"
      else if includes d Scan.XET512 then "FRM3 XET512"
      else if includes d Scan.FRM2 then "FRM2"
      else "FRM3 Unknown")%string.
Proof.
  split_and!.
  - unfold Server.detectFrmType, Scan.window1, Scan.XEQ384. cbv zeta.
    by intros ->.
  - unfold Server.detectFrmType, Scan.window1, Scan.XEQ384, Scan.XET512.
    cbv zeta. by intros -> ->.
  - unfold Server.detectFrmType, Scan.has_marker, Scan.window1, Scan.XEQ384,
      Scan.XET512. cbv zeta.
    intros H1 _ Hd. apply orb_false_iff in H1 as [-> ->]. by rewrite Hd.
  - unfold Server.detectFrmType, Scan.has_marker, Scan.window1, Scan.XEQ384,
      Scan.XET512. cbv zeta.
    intros H1 _ Hd. apply orb_false_iff in H1 as [-> ->].
    by destruct (Z.eqb_spec (len d) 32768).
  - unfold FrmConverter.detectFRMType, FrmConverter.signatures. cbv zeta.
    cbn [first_some fst snd].
    rewrite !includes_decoded by (by apply lit_ascii).
    unfold Scan.XEQ384, Scan.XET512, Scan.FRM2, Server.Buffer_from_ascii.
    destruct (includes d (to_u8 <$> lit "XEQ384")); [done|].
    destruct (includes d (to_u8 <$> lit "XET512")); [done|].
    by destruct (includes d (to_u8 <$> lit "FRM2")).
Qed.

Lemma signature_detection_witness :
  Server.detectFrmType Sample.marker_in_first_window = "FRM3 XET512"%string.
Proof.
  apply (proj1 (proj2 (signature_detection Sample.marker_in_first_window)));
    vm_compute; reflexivity.
Defined.

(** C8 as stated fails on the client: this image of 32768 bytes has no
    marker in either window, and the detector, which searches the whole
    image, answers with the marker's label instead of the unknown
    label. *)
Lemma client_detects_marker_outside_windows :
  len Sample.marker_at_start = 32768
  /\ Scan.has_marker (Scan.window1 Sample.marker_at_start) = false
  /\ Scan.has_marker (Scan.window2 Sample.marker_at_start) = false
  /\ FrmConverter.detectFRMType Sample.marker_at_start = "FRM3 XEQ384"%string.
Proof. split_and!; vm_compute; reflexivity. Qed.

(** The server's detector reads the first window and the length only: the
    second window it slices is never searched. *)
Lemma server_detector_ignores_second_window (d d' : bytes) :
  Scan.window1 d = Scan.window1 d' -> len d = len d' ->
  Server.detectFrmType d = Server.detectFrmType d'.
Proof.
  unfold Server.detectFrmType, Scan.window1. cbv zeta.
  by intros -> ->.
Qed.

Lemma server_misses_marker_in_second_window :
  includes (Scan.window2 Sample.marker_in_second_window) Scan.XEQ384 = true
  /\ Server.detectFrmType Sample.marker_in_second_window
     = "FRM3 Unknown"%string.
Proof. split; vm_compute; reflexivity. Qed.

(** For every source image the server's image starts with sixteen 0x00
    bytes. *)
Lemma server_never_writes_header (d : bytes) :
  len d = 32768 ->
  exists e,
    Server.eepromData (Server.convertDFlashToEEPROM d) = Some e /\
    slice e 0 16 = replicate 16 x00.
Proof.
  intros Hd. eexists. rewrite server_convert_image by done.
  split; [reflexivity|].
  apply (slice_all _ 0 16); [lia|lia|]. intros i Hi.
  apply server_image_frame.
  - apply server_image_identifier.
  - lia.
  - intros _. lia.
  - intros _. lia.
  - lia.
Qed.
(** * Further properties of the two converters *)

(** ** Bytes and ASCII text *)

Lemma identifier_is_ascii (s : jsstring) :
  Spec.identifier s -> Text.is_ascii s.
Proof.
  intros [_ Hall]. unfold Text.is_ascii.
  eapply Forall_impl; [exact Hall|]. intros c Hc. cbv beta in Hc.
  apply vin_class_alphabet in Hc. unfold vin_class in Hc. lia.
Qed.

Lemma decode_ascii_bytes (s : jsstring) :
  Text.is_ascii s ->
  TextDecoder_ascii (to_u8 <$> s) = s /\ toString_ascii (to_u8 <$> s) = s.
Proof.
  unfold Text.is_ascii, TextDecoder_ascii, toString_ascii.
  induction 1 as [|c s Hc Hs [IH1 IH2]]; [done|].
  rewrite !fmap_cons, IH1, IH2. split; f_equal.
  - by apply (windows1252_ascii (to_u8 c) c Hc).
  - rewrite u8_to_u8, Z.mod_small by lia.
    change 127 with (Z.ones 7). rewrite Z.land_ones by lia.
    apply Z.mod_small. lia.
Qed.

Lemma encode_ascii (s : jsstring) :
  Text.is_ascii s -> TextEncoder_encode s = to_u8 <$> s.
Proof.
  unfold Text.is_ascii, TextEncoder_encode.
  induction 1 as [|c s Hc Hs IH]; [done|].
  rewrite bind_cons, IH, fmap_cons. unfold utf8.
  destruct (Z.ltb_spec c 128); [done|lia].
Qed.

Section SliceAgreement.
Context {A : Type}.
Implicit Types d : list A.

Lemma slice_inside d d' (a b x y : Z) :
  slice d a b = slice d' a b -> 0 <= a -> a <= x -> x <= y -> y <= b ->
  slice d x y = slice d' x y.
Proof.
  intros H Ha Hx Hy Hb. apply list_eq. intros i.
  destruct (decide (i < Z.to_nat (y - x))%nat) as [Hi|Hi].
  - rewrite !lookup_slice by done.
    assert (forall l : list A,
              l !! (Z.to_nat x + i)%nat
              = slice l a b !! (Z.to_nat (x - a) + i)%nat) as E.
    { intros l. rewrite lookup_slice by lia. f_equal. lia. }
    by rewrite (E d), (E d'), H.
  - rewrite !lookup_slice_ge by lia. done.
Qed.

End SliceAgreement.

Lemma get_inside (d d' : bytes) (a b i : Z) :
  slice d a b = slice d' a b -> 0 <= a -> a <= i < b ->
  get d i = get d' i.
Proof.
  intros H Ha Hi. rewrite !get_Z by lia.
  pose proof (slice_inside d d' a b i (i + 1) H Ha) as E.
  assert (forall l : bytes, l !! Z.to_nat i = slice l i (i + 1) !! 0%nat) as L.
  { intros l. rewrite lookup_slice by lia. f_equal. lia. }
  rewrite (L d), (L d'), E by lia. done.
Qed.

(** ** The identifier field of a produced image *)

Lemma image_identifier_field (e0 : bytes) (s : jsstring) (m : option Z)
    (cfg : bytes) :
  len e0 = 4096 -> Spec.identifier s -> len cfg <= 1024 ->
  slice (Image.with_checksum
           (write_at (Image.with_vehicle e0 (Some s) m) 0x100 cfg)) 0x10 0x21
  = to_u8 <$> s.
Proof.
  intros He Hs Hcfg.
  assert (forall s', Some s = Some s' -> Spec.identifier s') as Hv
    by (by intros s' [= <-]).
  pose proof (len_with_vehicle e0 (Some s) m He Hv) as H1.
  pose proof (len_with_vehicle e0 (Some s) None He Hv) as H0.
  pose proof (len_identifier_bytes s Hs) as H17.
  unfold Image.with_checksum.
  rewrite slice_write_at_other
    by (rewrite ?len_write_at, ?len_le_bytes; lia).
  rewrite slice_write_at_other by lia.
  unfold Image.with_vehicle in *.
  assert (slice (write_at e0 16 (to_u8 <$> s)) 16 33 = to_u8 <$> s) as E.
  { replace 33 with (16 + len (to_u8 <$> s)) by lia.
    apply slice_write_at_same; lia. }
  destruct m as [x|]; [|exact E].
  rewrite slice_write_at_other; [exact E|lia| |lia|lia].
  rewrite len_le_bytes. lia.
Qed.

Lemma client_image_identifier_field (s : jsstring) (m : option Z) (d : bytes) :
  Spec.identifier s ->
  slice (Image.client_image (Some s) m d) 0x10 0x21 = to_u8 <$> s.
Proof.
  intros Hs. unfold Image.client_image, Image.client_fields.
  apply image_identifier_field; [|done|].
  - rewrite len_write_at; rewrite ?len_filled by lia; try lia.
    unfold len. simpl. lia.
  - unfold len. simpl. lia.
Qed.

Lemma server_image_identifier_field (s : jsstring) (m : option Z) (d : bytes) :
  Spec.identifier s ->
  slice (Image.server_image (Some s) m d) 0x10 0x21 = to_u8 <$> s.
Proof.
  intros Hs. unfold Image.server_image, Image.server_fields.
  apply image_identifier_field; [|done|].
  - by apply len_filled.
  - apply len_server_config.
Qed.

(** X1: when the identifier scan of a converter finds an identifier in a
    source of 32768 bytes, the image that converter produces holds the 17
    characters as bytes at offsets [0x10, 0x21), and decoding that field
    the way the same converter decodes a candidate gives the identifier
    back. *)
Theorem identifier_field_round_trip (d : bytes) (Hd : len d = 32768) :
  (forall s, FrmConverter.extractVIN d = Some s ->
     exists e,
       FrmConverter.eepromData (FrmConverter.convertDFlashToEEPROM d) = Some e
       /\ slice e 0x10 0x21 = to_u8 <$> s
       /\ TextDecoder_ascii (slice e 0x10 0x21) = s)
  /\ (forall s, Server.extractVin d = Some s ->
        exists e,
          Server.eepromData (Server.convertDFlashToEEPROM d) = Some e
          /\ slice e 0x10 0x21 = to_u8 <$> s
          /\ toString_ascii (slice e 0x10 0x21) = s).
Proof.
  split; intros s Hs.
  - pose proof (client_image_identifier d s Hs) as Hid.
    rewrite (client_convert_image d Hd). cbn [FrmConverter.eepromData].
    eexists. split; [reflexivity|]. rewrite Hs.
    rewrite client_image_identifier_field by done.
    split; [done|].
    by apply decode_ascii_bytes, identifier_is_ascii.
  - pose proof (server_image_identifier d s Hs) as Hid.
    rewrite (server_convert_image d Hd). cbn [Server.eepromData].
    eexists. split; [reflexivity|]. rewrite Hs.
    rewrite server_image_identifier_field by done.
    split; [done|].
    by apply decode_ascii_bytes, identifier_is_ascii.
Qed.

Lemma identifier_field_round_trip_witness :
  exists e,
    Server.eepromData (Server.convertDFlashToEEPROM Sample.vin_image) = Some e
    /\ slice e 0x10 0x21 = to_u8 <$> lit "WBA12345678901234"
    /\ toString_ascii (slice e 0x10 0x21) = lit "WBA12345678901234".
Proof.
  apply (proj2 (identifier_field_round_trip Sample.vin_image eq_refl)).
  vm_compute. reflexivity.
Defined.

(** ** Bytes with the top bit set *)

(** A byte that windows-1252 decodes to a character of the alphabet is
    that character. *)
Lemma windows1252_alphabet (b : byte) :
  windows1252 b ∈ Spec.alphabet -> windows1252 b = u8 b.
Proof.
  intros H. apply vin_class_alphabet in H. revert H.
  destruct b; vm_compute; first [reflexivity | discriminate].
Qed.

Lemma all_from_lookup (P : Z -> byte -> bool) (d : bytes) (i : Z) :
  Tables.all_from P i d = true ->
  forall k b, d !! k = Some b -> P (i + Z.of_nat k) b = true.
Proof.
  revert i. induction d as [|b0 d IH]; intros i H k b Hk; [done|].
  cbn [Tables.all_from] in H. apply andb_prop in H as [H0 H].
  destruct k as [|k].
  - injection Hk as ->. by rewrite Z.add_0_r.
  - cbn [lookup list_lookup] in Hk.
    replace (i + Z.of_nat (S k)) with (i + 1 + Z.of_nat k) by lia.
    by apply IH.
Qed.

Lemma all_from_get (P : Z -> byte -> bool) (d : bytes) :
  Tables.all_from P 0 d = true ->
  forall i b, get d i = Some b -> P i b = true.
Proof.
  intros H i b Hi. unfold get in Hi.
  destruct (Z.ltb_spec i 0) as [|Hpos]; [done|].
  pose proof (all_from_lookup P d 0 H _ b Hi) as Hp.
  by replace (0 + Z.of_nat (Z.to_nat i)) with i in Hp by lia.
Qed.

(** The client accepts a window only when its seventeen bytes are
    characters of the alphabet themselves. *)
Lemma client_accepts_alphabet_bytes (d : bytes) (s : jsstring) :
  FrmConverter.extractVIN d = Some s ->
  exists off, off ∈ Scan.client_vin_offsets
    /\ s = u8 <$> slice d off (off + 17)
    /\ length (slice d off (off + 17)) = 17%nat
    /\ Forall (fun b => u8 b ∈ Spec.alphabet) (slice d off (off + 17)).
Proof.
  rewrite client_extractVIN_scan. intros H.
  apply (proj1 (scan_first_identifier _ _ client_vin_offsets_sorted)) in H
    as ([Hl Hall] & off & Hoff & -> & _).
  exists off. split; [done|].
  unfold Scan.client_candidate, TextDecoder_ascii in *.
  rewrite length_fmap in Hl. rewrite Forall_fmap in Hall.
  assert (Forall (fun b => windows1252 b = u8 b) (slice d off (off + 17)))
    as Heq.
  { eapply Forall_impl; [exact Hall|]. intros b Hb.
    by apply windows1252_alphabet. }
  split_and!.
  - apply Forall_fmap_ext_1. exact Heq.
  - exact Hl.
  - rewrite Forall_forall in Hall, Heq. apply Forall_forall. intros b Hb.
    rewrite <- (Heq b Hb). by apply Hall.
Qed.

(** C6 fails on the server. In the erased image with seventeen bytes
    0xC1 at 0x1000 no byte is a character of the alphabet A-H, J-N, P,
    R-Z, 0-9, and the server's [extractVin] accepts the window at 0x1000
    and returns AAAAAAAAAAAAAAAAA: [toString('ascii')] clears the top
    bit of every byte before the pattern is tested. The client's
    [extractVIN] returns absence for the same image, and for every image
    it accepts a window only when its seventeen bytes are characters of
    the alphabet. *)
Theorem server_accepts_non_alphabet_bytes :
  len Sample.top_bit_image = 32768
  /\ (forall i b, get Sample.top_bit_image i = Some b ->
        u8 b ∉ Spec.alphabet)
  /\ Server.extractVin Sample.top_bit_image = Some (lit "AAAAAAAAAAAAAAAAA")
  /\ FrmConverter.extractVIN Sample.top_bit_image = None
  /\ (forall d s, FrmConverter.extractVIN d = Some s ->
        exists off, off ∈ Scan.client_vin_offsets
          /\ s = u8 <$> slice d off (off + 17)
          /\ length (slice d off (off + 17)) = 17%nat
          /\ Forall (fun b => u8 b ∈ Spec.alphabet)
               (slice d off (off + 17))).
Proof.
  split; [vm_compute; reflexivity|]. split.
  { intros i b Hi Hin.
    pose proof (all_from_get
                  (fun _ b => negb (vin_class (u8 b)))
                  Sample.top_bit_image ltac:(vm_compute; reflexivity)
                  i b Hi) as H.
    cbv beta in H. apply vin_class_alphabet in Hin. by rewrite Hin in H. }
  split; [vm_compute; reflexivity|]. split; [vm_compute; reflexivity|].
  apply client_accepts_alphabet_bytes.
Qed.

(** C10 fails on the server. The erased image that holds the identifier
    WBA12345678901234 at 0x1001, an offset that no scan visits, and
    seventeen bytes 0xC1 at 0x1100: its bytes that are characters of the
    alphabet are exactly the seventeen at [0x1001, 0x1012), so its only
    identifier run begins at 0x1001. The server's [extractVin] returns
    AAAAAAAAAAAAAAAAA all the same, read at 0x1100 with the top bits
    cleared, and the converter writes it into the identifier field
    [0x10, 0x21). The client returns absence for this image and leaves
    the field at 0xFF. *)
Theorem server_extracts_identifier_off_run :
  len Sample.shifted_vin_top_bit_image = 32768
  /\ (forall i b, get Sample.shifted_vin_top_bit_image i = Some b ->
        (u8 b ∈ Spec.alphabet <-> 0x1001 <= i < 0x1012))
  /\ slice Sample.shifted_vin_top_bit_image 0x1001 0x1012
     = Sample.ascii_bytes "WBA12345678901234"
  /\ Server.extractVin Sample.shifted_vin_top_bit_image
     = Some (lit "AAAAAAAAAAAAAAAAA")
  /\ (exists e,
        Server.eepromData
          (Server.convertDFlashToEEPROM Sample.shifted_vin_top_bit_image)
        = Some e
        /\ slice e 0x10 0x21 = Sample.ascii_bytes "AAAAAAAAAAAAAAAAA")
  /\ FrmConverter.extractVIN Sample.shifted_vin_top_bit_image = None
  /\ (exists e,
        FrmConverter.eepromData
          (FrmConverter.convertDFlashToEEPROM
             Sample.shifted_vin_top_bit_image) = Some e
        /\ slice e 0x10 0x21 = replicate 17 xff).
Proof.
  assert (len Sample.shifted_vin_top_bit_image = 32768) as Hd
    by (vm_compute; reflexivity).
  assert (Server.extractVin Sample.shifted_vin_top_bit_image
          = Some (lit "AAAAAAAAAAAAAAAAA")) as Hs
    by (vm_compute; reflexivity).
  assert (FrmConverter.extractVIN Sample.shifted_vin_top_bit_image = None)
    as Hc by (vm_compute; reflexivity).
  split; [exact Hd|]. split.
  { intros i b Hi.
    pose proof (all_from_get
                  (fun i b =>
                     Bool.eqb (vin_class (u8 b))
                       ((0x1001 <=? i) && (i <? 0x1012)))
                  Sample.shifted_vin_top_bit_image
                  ltac:(vm_compute; reflexivity) i b Hi) as H.
    cbv beta in H. apply Bool.eqb_prop in H.
    rewrite <- vin_class_alphabet, H.
    rewrite andb_true_iff, Z.leb_le, Z.ltb_lt. done. }
  split; [vm_compute; reflexivity|]. split; [exact Hs|]. split.
  { eexists. rewrite server_convert_image by exact Hd.
    cbn [Server.eepromData]. split; [reflexivity|].
    rewrite Hs. rewrite server_image_identifier_field; [reflexivity|].
    apply vin_regex_test_identifier. vm_compute. reflexivity. }
  split; [exact Hc|].
  eexists. rewrite client_convert_image by exact Hd.
  cbn [FrmConverter.eepromData]. split; [reflexivity|].
  rewrite Hc. apply client_image_absent_identifier.
Qed.

(** ** The configuration block of a produced image *)

Lemma to_u8_get_or_0 (d : bytes) (i : Z) (b : byte) :
  get d i = Some b -> to_u8 (get_or d i 0) = b.
Proof.
  intros H. unfold get_or. rewrite H.
  destruct (Z.eqb_spec (u8 b) 0) as [E|E].
  - rewrite <- E. apply to_u8_u8.
  - apply to_u8_u8.
Qed.

Lemma to_u8_get_or_30 (d : bytes) (i : Z) (b : byte) :
  get d i = Some b ->
  to_u8 (get_or d i 0x1E) = if bool_decide (b = x00) then x1e else b.
Proof.
  intros H. unfold get_or. rewrite H.
  destruct (Z.eqb_spec (u8 b) 0) as [E|E].
  - assert (b = x00) as -> by (rewrite <- (to_u8_u8 b), E; reflexivity).
    reflexivity.
  - rewrite to_u8_u8. case_bool_decide as Hb; [|done].
    subst b. by destruct E.
Qed.

Lemma get_of_slice (d : bytes) (a b i : Z) :
  0 <= a -> a <= i < b -> get d i = slice d a b !! Z.to_nat (i - a).
Proof.
  intros Ha Hi. rewrite get_Z by lia. rewrite lookup_slice by lia.
  f_equal. lia.
Qed.

Lemma client_image_config (v : option jsstring) (m : option Z) (d : bytes) :
  (forall s, v = Some s -> Spec.identifier s) ->
  slice (Image.client_image v m d) 0x100 0x104 = Image.client_config d.
Proof.
  intros Hv. unfold Image.client_image, Image.with_checksum.
  pose proof (len_client_fields v m d Hv) as Hl.
  rewrite slice_write_at_other by (rewrite ?len_le_bytes; lia).
  unfold Image.client_fields in *.
  assert (len (write_at (filled 4096 xff) 0 FrmConverter.header) = 4096) as H0.
  { rewrite len_write_at; rewrite ?len_filled by lia; try lia.
    unfold len. simpl. lia. }
  pose proof (len_with_vehicle _ v m H0 Hv) as H1.
  replace 0x104 with (0x100 + len (Image.client_config d)) by reflexivity.
  apply slice_write_at_same; [lia|]. rewrite H1. unfold len. simpl. lia.
Qed.

(** X2: for every source of 32768 bytes the client converter copies the
    four bytes at source offsets 0x500..0x503 to offsets 0x100..0x103 of
    the image, except that a zero at 0x502 (the follow-me-home timer) is
    replaced by 0x1E; so the byte at 0x102 of an image is never zero. *)
Theorem client_configuration_block (d : bytes) (Hd : len d = 32768) :
  exists e b0 b1 b2 b3,
    FrmConverter.eepromData (FrmConverter.convertDFlashToEEPROM d) = Some e
    /\ slice d 0x500 0x504 = [b0; b1; b2; b3]
    /\ slice e 0x100 0x104
       = [b0; b1; if bool_decide (b2 = x00) then x1e else b2; b3]
    /\ get e 0x102 <> Some x00.
Proof.
  destruct (slice_4 d 0x500) as (b0 & b1 & b2 & b3 & Hs); [lia|lia|].
  change (0x500 + 4) with 0x504 in Hs.
  rewrite (client_convert_image d Hd). cbn [FrmConverter.eepromData].
  eexists _, b0, b1, b2, b3. split; [reflexivity|]. split; [exact Hs|].
  assert (slice (Image.client_image (FrmConverter.extractVIN d)
                   (first_some (Scan.client_mileage d)
                      FrmConverter.MILEAGE_OFFSETS) d) 0x100 0x104
          = [b0; b1; if bool_decide (b2 = x00) then x1e else b2; b3]) as E.
  { rewrite client_image_config by apply client_image_identifier.
    unfold Image.client_config.
    rewrite (to_u8_get_or_0 d 0x500 b0), (to_u8_get_or_0 d 0x501 b1),
      (to_u8_get_or_30 d 0x502 b2), (to_u8_get_or_0 d 0x503 b3); [done|..];
      rewrite (get_of_slice d 0x500 0x504) by lia; by rewrite Hs. }
  split; [exact E|].
  rewrite (get_of_slice _ 0x100 0x104) by lia. rewrite E.
  change (Z.to_nat (258 - 256)) with 2%nat. cbn [lookup list_lookup].
  case_bool_decide as Hb; [done|]. intros [= ->]. by destruct Hb.
Qed.

Lemma client_configuration_block_witness :
  exists e b0 b1 b2 b3,
    FrmConverter.eepromData
      (FrmConverter.convertDFlashToEEPROM (Spec.uniform x00)) = Some e
    /\ slice (Spec.uniform x00) 0x500 0x504 = [b0; b1; b2; b3]
    /\ slice e 0x100 0x104
       = [b0; b1; if bool_decide (b2 = x00) then x1e else b2; b3]
    /\ get e 0x102 <> Some x00.
Proof. apply (client_configuration_block (Spec.uniform x00)). reflexivity. Defined.

Lemma json_shape_table :
  forallb
    (fun f =>
       forallb
         (fun q : bool * bool * bool * bool =>
            Tables.json_shape
              {| Server.xenonHeadlights := q.1.1.1;
                 Server.angelEyes := q.1.1.2;
                 Server.autoWipers := q.1.2;
                 Server.comfortAccess := q.2;
                 Server.followMeHome := f |})
         (a ← [true; false]; b ← [true; false]; c ← [true; false];
          d ← [true; false]; [(a, b, c, d)]))
    (seqZ 0 256) = true.
Proof. vm_compute. reflexivity. Qed.

Lemma json_shape_all (config : Server.ConfigurationData) :
  0 <= Server.followMeHome config <= 255 -> Tables.json_shape config = true.
Proof.
  intros Hf. pose proof json_shape_table as T.
  rewrite forallb_forall in T.
  specialize (T (Server.followMeHome config)).
  rewrite forallb_forall in T.
  destruct config as [a b c d f]. cbn [Server.followMeHome] in *.
  apply (T ltac:(apply list_elem_of_In, elem_of_seqZ; lia) (a, b, c, d)).
  destruct a, b, c, d; cbn; tauto.
Qed.

Lemma get_or_range (d : bytes) (i : Z) : 0 <= get_or d i 0 <= 255.
Proof.
  unfold get_or. destruct (get d i) as [b|]; [|lia].
  pose proof (u8_range b). destruct (u8 b =? 0); lia.
Qed.

Lemma server_config_json (d : bytes) :
  let json := Server.JSON_stringify (Server.extractConfigurationData d) in
  Text.is_ascii json /\ 97 <= len json <= 103
  /\ Image.server_config d = to_u8 <$> json.
Proof.
  intros json.
  pose proof (json_shape_all (Server.extractConfigurationData d)
                (get_or_range d 1282)) as H.
  unfold Tables.json_shape in H. fold json in H.
  apply andb_prop in H as [H H3]. apply andb_prop in H as [H1 H2].
  assert (Text.is_ascii json) as Ha.
  { unfold Text.is_ascii. apply Forall_forall. intros c Hc.
    rewrite forallb_forall in H1. apply list_elem_of_In, H1 in Hc. lia. }
  split; [exact Ha|]. split; [lia|].
  unfold Image.server_config, Server.extractConfigurationFromDFlash,
    Server.Buffer_from.
  fold json. rewrite (encode_ascii json Ha).
  assert (len (to_u8 <$> json) = len json) as Hl
    by (unfold len; by rewrite length_fmap).
  rewrite Hl, Z.min_l by lia. rewrite slice_0.
  rewrite !take_ge; [done| |]; unfold len in *;
    rewrite ?length_take, ?length_fmap; lia.
Qed.

Lemma server_image_config (v : option jsstring) (m : option Z) (d : bytes) :
  (forall s, v = Some s -> Spec.identifier s) ->
  slice (Image.server_image v m d) 256 (256 + len (Image.server_config d))
  = Image.server_config d.
Proof.
  intros Hv. unfold Image.server_image, Image.with_checksum.
  pose proof (len_server_fields v m d Hv) as Hl.
  pose proof (len_server_config d) as Hc.
  rewrite slice_write_at_other by (rewrite ?len_le_bytes; lia).
  unfold Image.server_fields in *.
  assert (len (filled 4096 x00) = 4096) as H0 by (by apply len_filled).
  pose proof (len_with_vehicle _ v m H0 Hv) as H1.
  apply slice_write_at_same; lia.
Qed.

(** X3: for every source of 32768 bytes the server converter writes, from
    offset 256 of the image on, the JSON text of the configuration it
    extracted, one byte per character; the text is ASCII and between 97
    and 103 characters long, so it is never cut at the 1024-byte limit of
    the copy, and every byte after it up to the checksum is zero. *)
Theorem server_configuration_block (d : bytes) (Hd : len d = 32768) :
  let json := Server.JSON_stringify (Server.extractConfigurationData d) in
  exists e,
    Server.eepromData (Server.convertDFlashToEEPROM d) = Some e
    /\ 97 <= len json <= 103
    /\ slice e 256 (256 + len json) = to_u8 <$> json
    /\ toString_ascii (slice e 256 (256 + len json)) = json
    /\ forall i, 256 + len json <= i < 4092 -> get e i = Some x00.
Proof.
  intros json. destruct (server_config_json d) as (Ha & Hlen & Hc).
  fold json in Ha, Hlen, Hc.
  assert (len (Image.server_config d) = len json) as Hl
    by (rewrite Hc; unfold len; by rewrite length_fmap).
  rewrite (server_convert_image d Hd). cbn [Server.eepromData].
  eexists. split; [reflexivity|]. split; [exact Hlen|].
  pose proof (server_image_config (Server.extractVin d)
                (first_some (Scan.server_mileage d)
                   Scan.server_mileage_offsets) d
                (server_image_identifier d)) as E.
  rewrite Hl, Hc in E.
  split; [exact E|]. split.
  - rewrite E. by apply decode_ascii_bytes.
  - intros i Hi. apply server_image_frame.
    + apply server_image_identifier.
    + lia.
    + lia.
    + lia.
    + rewrite Hl. lia.
Qed.

Lemma server_configuration_block_witness :
  exists e,
    Server.eepromData (Server.convertDFlashToEEPROM (Spec.uniform x00))
    = Some e
    /\ 97 <= len (Server.JSON_stringify
                    (Server.extractConfigurationData (Spec.uniform x00)))
       <= 103.
Proof.
  destruct (server_configuration_block (Spec.uniform x00) eq_refl)
    as (e & He & Hl & _).
  exists e. split; [exact He|exact Hl].
Defined.

(** ** Every source image converts *)

(** X4: for every source of 32768 bytes both converters succeed: the
    client returns an image of 4096 bytes, no error, and the vehicle
    data it extracted; the server returns an image of 4096 bytes and no
    error. No path through either converter throws on such a source. *)
Theorem conversion_succeeds_on_source_images (d : bytes)
    (Hd : len d = 32768) :
  (exists e m,
     FrmConverter.extractMileage d = Ok m /\
     FrmConverter.convertDFlashToEEPROM d =
     {| FrmConverter.success := true;
        FrmConverter.eepromData := Some e;
        FrmConverter.error := None;
        FrmConverter.vehicleData :=
          Some {| FrmConverter.vin := FrmConverter.extractVIN d;
                  FrmConverter.mileage := m;
                  FrmConverter.model := FrmConverter.extractModel d |} |}
     /\ len e = 4096)
  /\ (exists e,
        Server.convertDFlashToEEPROM d =
        {| Server.success := true; Server.eepromData := Some e;
           Server.error := None |}
        /\ len e = 4096).
Proof.
  split.
  - eexists _, _. split; [apply client_extractMileage_pure|].
    split; [apply (client_convert_image d Hd)|].
    apply len_with_checksum, len_client_fields, client_image_identifier.
  - eexists. split; [apply (server_convert_image d Hd)|].
    apply len_with_checksum, len_server_fields, server_image_identifier.
Qed.

Lemma conversion_succeeds_on_source_images_witness :
  exists e,
    Server.convertDFlashToEEPROM (Spec.uniform xff) =
    {| Server.success := true; Server.eepromData := Some e;
       Server.error := None |}
    /\ len e = 4096.
Proof.
  apply (proj2 (conversion_succeeds_on_source_images (Spec.uniform xff)
                  eq_refl)).
Defined.

(** ** What the converters read *)

Lemma server_extractVin_agree (d d' : bytes) :
  slice d 4096 8193 = slice d' 4096 8193 ->
  Server.extractVin d = Server.extractVin d'.
Proof.
  intros H. rewrite !server_extractVin_scan.
  apply first_some_ext_in. intros off Hoff.
  apply elem_of_server_vin_offsets in Hoff.
  unfold Scan.accept, Scan.server_candidate.
  by rewrite (slice_inside d d' 4096 8193 off (off + 17) H)
    by (Z.div_mod_to_equations; lia).
Qed.

Lemma server_mileage_agree (d d' : bytes) :
  slice d 8192 12288 = slice d' 8192 12288 ->
  first_some (Scan.server_mileage d) Scan.server_mileage_offsets
  = first_some (Scan.server_mileage d') Scan.server_mileage_offsets.
Proof.
  intros H. apply first_some_ext_in. intros off Hoff.
  apply elem_of_server_mileage_offsets in Hoff.
  unfold Scan.server_mileage, Spec.uint32_le.
  by rewrite (slice_inside d d' 8192 12288 off (off + 4) H)
    by (Z.div_mod_to_equations; lia).
Qed.

Lemma server_config_agree (d d' : bytes) :
  slice d 1280 1283 = slice d' 1280 1283 ->
  Server.extractConfigurationData d = Server.extractConfigurationData d'.
Proof.
  intros H. unfold Server.extractConfigurationData, Server.bits, get_or.
  by rewrite (get_inside d d' 1280 1283 1280 H),
    (get_inside d d' 1280 1283 1281 H),
    (get_inside d d' 1280 1283 1282 H) by lia.
Qed.

(** X5: the server converter reads a source of 32768 bytes only at
    offsets 1280..1282 (configuration) and 4096..12287 (identifier and
    odometer scans): two sources that agree there convert to the same
    result, whatever the other 24573 bytes hold. *)
Theorem server_conversion_reads_two_regions (d d' : bytes)
    (Hd : len d = 32768) (Hd' : len d' = 32768)
    (Hconfig : slice d 1280 1283 = slice d' 1280 1283)
    (Hscan : slice d 4096 12288 = slice d' 4096 12288) :
  Server.convertDFlashToEEPROM d = Server.convertDFlashToEEPROM d'.
Proof.
  rewrite (server_convert_image d Hd), (server_convert_image d' Hd').
  rewrite (server_extractVin_agree d d')
    by (apply (slice_inside d d' 4096 12288); [done|lia..]).
  rewrite (server_mileage_agree d d')
    by (apply (slice_inside d d' 4096 12288); [done|lia..]).
  unfold Image.server_image, Image.server_fields, Image.server_config,
    Server.extractConfigurationFromDFlash.
  by rewrite (server_config_agree d d' Hconfig).
Qed.

Lemma server_conversion_reads_two_regions_witness :
  Server.convertDFlashToEEPROM (Spec.uniform xff)
  = Server.convertDFlashToEEPROM Sample.marker_at_start.
Proof.
  apply server_conversion_reads_two_regions; vm_compute; reflexivity.
Defined.

Lemma client_extractVIN_agree (d d' : bytes) :
  slice d 0x1000 0x2404 = slice d' 0x1000 0x2404 ->
  FrmConverter.extractVIN d = FrmConverter.extractVIN d'.
Proof.
  intros H. rewrite !client_extractVIN_scan.
  apply first_some_ext_in. intros off Hoff.
  apply elem_of_client_vin_offsets in Hoff.
  unfold Scan.accept, Scan.client_candidate.
  by rewrite (slice_inside d d' 0x1000 0x2404 off (off + 17) H) by lia.
Qed.

Lemma client_mileage_agree (d d' : bytes) :
  slice d 0x1000 0x2404 = slice d' 0x1000 0x2404 ->
  first_some (Scan.client_mileage d) FrmConverter.MILEAGE_OFFSETS
  = first_some (Scan.client_mileage d') FrmConverter.MILEAGE_OFFSETS.
Proof.
  intros H. apply first_some_ext_in. intros off Hoff.
  assert (0x2100 <= off <= 0x2400) as Ho.
  { unfold FrmConverter.MILEAGE_OFFSETS in Hoff.
    repeat (apply elem_of_cons in Hoff as [->|Hoff]; [lia|]).
    by apply elem_of_nil in Hoff. }
  unfold Scan.client_mileage, Spec.uint32_le, Spec.uint32_be.
  by rewrite (slice_inside d d' 0x1000 0x2404 off (off + 4) H) by lia.
Qed.

Lemma client_config_agree (d d' : bytes) :
  slice d 0x500 0x504 = slice d' 0x500 0x504 ->
  Image.client_config d = Image.client_config d'.
Proof.
  intros H. unfold Image.client_config, get_or.
  by rewrite (get_inside d d' 0x500 0x504 0x500 H),
    (get_inside d d' 0x500 0x504 0x501 H),
    (get_inside d d' 0x500 0x504 0x502 H),
    (get_inside d d' 0x500 0x504 0x503 H) by lia.
Qed.

(** X6: the client converter reads a source of 32768 bytes only at
    offsets 0x500..0x503 (configuration) and inside 0x1000..0x2403
    (identifier and odometer scans): two sources that agree there
    convert to the same result, image and reported vehicle data. *)
Theorem client_conversion_reads_two_regions (d d' : bytes)
    (Hd : len d = 32768) (Hd' : len d' = 32768)
    (Hconfig : slice d 0x500 0x504 = slice d' 0x500 0x504)
    (Hscan : slice d 0x1000 0x2404 = slice d' 0x1000 0x2404) :
  FrmConverter.convertDFlashToEEPROM d = FrmConverter.convertDFlashToEEPROM d'.
Proof.
  rewrite (client_convert_image d Hd), (client_convert_image d' Hd').
  cbv zeta. unfold FrmConverter.extractModel.
  rewrite (client_extractVIN_agree d d' Hscan),
    (client_mileage_agree d d' Hscan).
  unfold Image.client_image, Image.client_fields.
  by rewrite (client_config_agree d d' Hconfig).
Qed.

Lemma client_conversion_reads_two_regions_witness :
  FrmConverter.convertDFlashToEEPROM (Spec.uniform xff)
  = FrmConverter.convertDFlashToEEPROM Sample.marker_at_start.
Proof.
  apply client_conversion_reads_two_regions; vm_compute; reflexivity.
Defined.

(** ** Recomputing and fooling the checksum *)

Lemma additive_checksum_with_checksum (e : bytes) :
  len e = 4096 ->
  Spec.additive_checksum (Image.with_checksum e) = Spec.additive_checksum e.
Proof.
  intros He. unfold Spec.additive_checksum, Image.with_checksum.
  by rewrite slice_write_at_other by (rewrite ?len_le_bytes; lia).
Qed.

Lemma write_at_twice (a : bytes) (off : Z) (x y : bytes) :
  0 <= off -> off + len x <= len a -> len x = len y ->
  write_at (write_at a off x) off y = write_at a off y.
Proof.
  intros Ho Hx Hxy. apply list_eq. intros i.
  rewrite !lookup_write_at by (rewrite ?len_write_at; lia).
  assert (length x = length y) as E by (unfold len in Hxy; lia).
  rewrite E. by case_decide.
Qed.

Lemma with_checksum_idem (e : bytes) :
  len e = 4096 ->
  Image.with_checksum (Image.with_checksum e) = Image.with_checksum e.
Proof.
  intros He. unfold Image.with_checksum at 1.
  rewrite additive_checksum_with_checksum by done.
  unfold Image.with_checksum.
  apply write_at_twice; rewrite ?len_le_bytes; lia.
Qed.

(** X7: on a buffer of 4096 bytes the checksum routines of the client
    and of the server return the same buffer; they leave the first 4092
    bytes as they were, and running either routine again on the result
    changes nothing. *)
Theorem checksum_recomputation_is_idempotent (e : bytes)
    (He : len e = 4096) :
  exists e',
    FrmConverter.calculateChecksums e = Ok e'
    /\ Server.calculateEepromChecksums e = Ok e'
    /\ slice e' 0 4092 = slice e 0 4092
    /\ FrmConverter.calculateChecksums e' = Ok e'
    /\ Server.calculateEepromChecksums e' = Ok e'.
Proof.
  exists (Image.with_checksum e).
  pose proof (len_with_checksum e He) as He'.
  rewrite (client_calculateChecksums e He),
    (server_calculateEepromChecksums e He),
    (client_calculateChecksums _ He'),
    (server_calculateEepromChecksums _ He'),
    (with_checksum_idem e He).
  split; [done|]. split; [done|]. split; [|done].
  unfold Image.with_checksum.
  by rewrite slice_write_at_other by (rewrite ?len_le_bytes; lia).
Qed.

Lemma checksum_recomputation_is_idempotent_witness :
  exists e',
    FrmConverter.calculateChecksums (filled 4096 xff) = Ok e'
    /\ Server.calculateEepromChecksums (filled 4096 xff) = Ok e'
    /\ slice e' 0 4092 = slice (filled 4096 xff) 0 4092
    /\ FrmConverter.calculateChecksums e' = Ok e'
    /\ Server.calculateEepromChecksums e' = Ok e'.
Proof.
  apply (checksum_recomputation_is_idempotent (filled 4096 xff)).
  reflexivity.
Defined.

Lemma sum_bytes_permutation (l l' : bytes) :
  l ≡ₚ l' -> Spec.sum_bytes l = Spec.sum_bytes l'.
Proof.
  unfold Spec.sum_bytes.
  induction 1 as [|b l l' _ IH|a b l|l1 l2 l3 _ IH1 _ IH2];
    cbn [foldr]; lia.
Qed.

(** X8: the checksum does not see the order of the bytes: when the first
    4092 bytes of one buffer of 4096 bytes are a rearrangement of those
    of another, both checksum routines store the same four bytes at the
    end of the two buffers. *)
Theorem checksum_ignores_byte_order (e1 e2 : bytes)
    (H1 : len e1 = 4096) (H2 : len e2 = 4096)
    (Hp : slice e1 0 4092 ≡ₚ slice e2 0 4092) :
  exists r1 r2,
    FrmConverter.calculateChecksums e1 = Ok r1
    /\ FrmConverter.calculateChecksums e2 = Ok r2
    /\ Server.calculateEepromChecksums e1 = Ok r1
    /\ Server.calculateEepromChecksums e2 = Ok r2
    /\ slice r1 4092 4096 = slice r2 4092 4096.
Proof.
  exists (Image.with_checksum e1), (Image.with_checksum e2).
  rewrite (client_calculateChecksums e1 H1),
    (server_calculateEepromChecksums e1 H1),
    (client_calculateChecksums e2 H2),
    (server_calculateEepromChecksums e2 H2).
  repeat (split; [done|]).
  unfold Image.with_checksum.
  assert (forall (e : bytes) (x : bytes),
            len e = 4096 -> len x = 4 ->
            slice (write_at e 4092 x) 4092 4096 = x) as W.
  { intros e x He Hx. replace 4096 with (4092 + len x) by lia.
    apply slice_write_at_same; lia. }
  rewrite !W by (rewrite ?len_le_bytes; done).
  unfold Spec.additive_checksum.
  by rewrite (sum_bytes_permutation _ _ Hp).
Qed.

Lemma checksum_ignores_byte_order_witness :
  exists r1 r2,
    FrmConverter.calculateChecksums ([x01; x02] ++ filled 4094 x00) = Ok r1
    /\ FrmConverter.calculateChecksums ([x02; x01] ++ filled 4094 x00)
       = Ok r2
    /\ Server.calculateEepromChecksums ([x01; x02] ++ filled 4094 x00)
       = Ok r1
    /\ Server.calculateEepromChecksums ([x02; x01] ++ filled 4094 x00)
       = Ok r2
    /\ slice r1 4092 4096 = slice r2 4092 4096.
Proof.
  apply checksum_ignores_byte_order; [reflexivity|reflexivity|].
  vm_compute. apply perm_swap.
Defined.

(** ** The configuration flags *)

Lemma flag_bits (b : byte) :
  negb (bitand (u8 b) 1 =? 0) = Z.testbit (u8 b) 0
  /\ negb (bitand (u8 b) 2 =? 0) = Z.testbit (u8 b) 1.
Proof. destruct b; split; vm_compute; reflexivity. Qed.

Lemma get_beyond (d : bytes) (i : Z) : len d <= i -> get d i = None.
Proof.
  intros H. unfold get. destruct (Z.ltb_spec i 0); [done|].
  apply lookup_ge_None. unfold len in H. lia.
Qed.

(** X9: the server reads the configuration out of three source bytes:
    bits 0 and 1 of the byte at 1280 are the xenon and angel-eyes flags,
    bits 0 and 1 of the byte at 1281 the wiper and comfort-access flags,
    and the byte at 1282 is the follow-me-home time. A source too short
    to hold these bytes gives all flags off and time 0; nothing is
    thrown. *)
Theorem configuration_flags_are_bits (d : bytes) :
  (forall b, get d 1280 = Some b ->
     Server.xenonHeadlights (Server.extractConfigurationData d)
     = Z.testbit (u8 b) 0
     /\ Server.angelEyes (Server.extractConfigurationData d)
        = Z.testbit (u8 b) 1)
  /\ (forall b, get d 1281 = Some b ->
        Server.autoWipers (Server.extractConfigurationData d)
        = Z.testbit (u8 b) 0
        /\ Server.comfortAccess (Server.extractConfigurationData d)
           = Z.testbit (u8 b) 1)
  /\ (forall b, get d 1282 = Some b ->
        Server.followMeHome (Server.extractConfigurationData d) = u8 b)
  /\ (len d <= 1280 ->
      Server.extractConfigurationData d =
      {| Server.xenonHeadlights := false; Server.angelEyes := false;
         Server.autoWipers := false; Server.comfortAccess := false;
         Server.followMeHome := 0 |}).
Proof.
  unfold Server.extractConfigurationData, Server.bits, get_or.
  cbn [Server.xenonHeadlights Server.angelEyes Server.autoWipers
         Server.comfortAccess Server.followMeHome].
  split; [|split; [|split]].
  - intros b ->. apply flag_bits.
  - intros b ->. apply flag_bits.
  - intros b ->. destruct (Z.eqb_spec (u8 b) 0); congruence.
  - intros H. by rewrite !get_beyond by lia.
Qed.

(** ** The two identifier scans on the same source *)

Lemma decodings_agree (l : bytes) :
  Forall (fun c => c ∈ Spec.alphabet) (TextDecoder_ascii l) ->
  toString_ascii l = TextDecoder_ascii l.
Proof.
  unfold TextDecoder_ascii, toString_ascii.
  induction l as [|b l IH]; [done|].
  rewrite !fmap_cons. intros H. apply Forall_cons in H as [Hb Hl].
  rewrite (IH Hl). f_equal.
  apply vin_class_alphabet in Hb.
  assert (0 <= windows1252 b < 128) as Hr by (unfold vin_class in Hb; lia).
  pose proof (proj1 (windows1252_ascii b _ Hr) eq_refl) as E.
  rewrite E at 1. rewrite u8_to_u8, Z.mod_small by lia.
  change 127 with (Z.ones 7). rewrite Z.land_ones by lia.
  apply Z.mod_small. lia.
Qed.

Lemma candidates_agree (d : bytes) (off : Z) :
  Spec.identifier (Scan.client_candidate d off) ->
  Scan.server_candidate d off = Scan.client_candidate d off.
Proof.
  intros [_ H]. by apply decodings_agree.
Qed.

Lemma server_finds_at (d : bytes) (off : Z) :
  off ∈ Scan.server_vin_offsets ->
  Spec.identifier (Scan.server_candidate d off) ->
  exists s off', Server.extractVin d = Some s /\ Spec.identifier s
    /\ off' ∈ Scan.server_vin_offsets /\ off' <= off
    /\ s = Scan.server_candidate d off'.
Proof.
  intros Hoff Hid. rewrite server_extractVin_scan.
  destruct (scan_first_identifier (Scan.server_candidate d)
              Scan.server_vin_offsets server_vin_offsets_sorted)
    as [HS HN].
  destruct (first_some (Scan.accept (Scan.server_candidate d))
              Scan.server_vin_offsets) as [s|].
  - destruct (HS s eq_refl) as (Hs & off' & Ho' & -> & Hmin).
    exists (Scan.server_candidate d off'), off'.
    repeat (split; [done|]). split; [|done].
    destruct (Z.le_gt_cases off' off) as [|Hlt]; [done|].
    destruct (Hmin off Hoff ltac:(lia) Hid).
  - destruct (proj1 HN eq_refl off Hoff Hid).
Qed.

(** X10: the client and the server scans on one source. A candidate
    that the client accepts reads the same under the server's decoding.
    An identifier at 0x1000 is what both scans return. And when the
    client finds an identifier while the server finds none, the client
    found it at 0x2000, the one client offset the server does not
    visit. *)
Theorem identifier_scans_on_one_source (d : bytes) :
  (forall off, Spec.identifier (Scan.client_candidate d off) ->
     Scan.server_candidate d off = Scan.client_candidate d off)
  /\ (Spec.identifier (Scan.client_candidate d 0x1000) ->
      FrmConverter.extractVIN d = Some (Scan.client_candidate d 0x1000)
      /\ Server.extractVin d = Some (Scan.client_candidate d 0x1000))
  /\ (forall s, FrmConverter.extractVIN d = Some s ->
        Server.extractVin d = None ->
        s = Scan.client_candidate d 0x2000
        /\ 0x2000 ∉ Scan.server_vin_offsets).
Proof.
  split; [apply candidates_agree|]. split.
  - intros Hid. split.
    + rewrite client_extractVIN_scan.
      unfold Scan.client_vin_offsets, FrmConverter.VIN_PATTERNS.
      cbn [fmap list_fmap fst first_some].
      unfold Scan.accept at 1.
      by rewrite (proj2 (vin_regex_test_identifier _) Hid).
    + assert (0x1000 ∈ Scan.server_vin_offsets) as Hin
        by (apply elem_of_server_vin_offsets; done).
      destruct (server_finds_at d 0x1000 Hin) as (s & off' & E & _ & Ho & Hle & ->).
      { by rewrite candidates_agree. }
      apply elem_of_server_vin_offsets in Ho.
      assert (off' = 0x1000) as -> by lia.
      by rewrite E, candidates_agree.
  - intros s Hs Hnone.
    assert (0x2000 ∉ Scan.server_vin_offsets) as Hout
      by (rewrite elem_of_server_vin_offsets; lia).
    split; [|exact Hout].
    rewrite client_extractVIN_scan in Hs.
    apply (proj1 (scan_first_identifier _ _ client_vin_offsets_sorted)) in Hs
      as (Hid & off & Hoff & -> & _).
    apply elem_of_client_vin_offsets in Hoff.
    destruct (decide (off = 0x2000)) as [->|Hne]; [done|].
    assert (off ∈ Scan.server_vin_offsets) as Hin.
    { apply elem_of_server_vin_offsets.
      destruct Hoff as [E | [E | E]]; subst off; [done|done|done]. }
    destruct (server_finds_at d off Hin) as (s & _ & E & _).
    { by rewrite candidates_agree. }
    congruence.
Qed.

(** * The in-memory store *)

Section MapLemmas.
Context {V : Type}.
Implicit Types m : list (list Z * V).

Lemma Map_get_set m k v : JsMap.get (JsMap.set m k v) k = Some v.
Proof.
  induction m as [|[k' v'] m IH]; cbn [JsMap.set JsMap.get].
  - by rewrite bool_decide_eq_true_2.
  - case_bool_decide as E; cbn [JsMap.get].
    + by rewrite bool_decide_eq_true_2.
    + by rewrite bool_decide_eq_false_2.
Qed.

Lemma Map_get_set_ne m k k' v :
  k' <> k -> JsMap.get (JsMap.set m k v) k' = JsMap.get m k'.
Proof.
  intros Hne. induction m as [|[k0 v0] m IH]; cbn [JsMap.set JsMap.get].
  - by rewrite bool_decide_eq_false_2.
  - case_bool_decide as E; cbn [JsMap.get].
    + subst k0. by rewrite !bool_decide_eq_false_2.
    + by rewrite IH.
Qed.

Lemma Map_get_None m k : JsMap.get m k = None <-> k ∉ m.*1.
Proof.
  induction m as [|[k0 v0] m IH]; cbn [JsMap.get fmap list_fmap fst].
  - split; [intros _; apply not_elem_of_nil|done].
  - rewrite not_elem_of_cons. case_bool_decide as E.
    + split; [done|]. intros [H _]. by destruct H.
    + rewrite IH. split; [by split|by intros [_ H]].
Qed.

Lemma Map_get_Some m k v : JsMap.get m k = Some v -> (k, v) ∈ m.
Proof.
  induction m as [|[k0 v0] m IH]; cbn [JsMap.get]; [done|].
  case_bool_decide as E.
  - intros [= ->]. subst k0. apply list_elem_of_here.
  - intros H. apply list_elem_of_further. by apply IH.
Qed.

(** A new key goes to the end; a present key keeps its place. *)
Lemma Map_set_fresh m k v :
  JsMap.get m k = None -> JsMap.set m k v = m ++ [(k, v)].
Proof.
  induction m as [|[k0 v0] m IH]; cbn [JsMap.set JsMap.get]; [done|].
  case_bool_decide as E; [done|]. intros H. by rewrite IH.
Qed.

Lemma Map_keys_set_present m k v :
  is_Some (JsMap.get m k) -> (JsMap.set m k v).*1 = m.*1.
Proof.
  induction m as [|[k0 v0] m IH]; cbn [JsMap.set JsMap.get].
  - by intros [? ?].
  - case_bool_decide as E; [done|]. intros H.
    cbn [fmap list_fmap]. by rewrite <- IH.
Qed.

Lemma Map_keys_NoDup m k v : NoDup m.*1 -> NoDup (JsMap.set m k v).*1.
Proof.
  intros Hm. destruct (JsMap.get m k) as [v0|] eqn:E.
  - by rewrite Map_keys_set_present by (by rewrite E).
  - rewrite Map_set_fresh by done. rewrite fmap_app.
    apply NoDup_app. split; [done|]. split.
    + intros x Hx Hk. apply list_elem_of_singleton in Hk. subst x.
      by apply Map_get_None in E.
    + apply NoDup_singleton.
Qed.

End MapLemmas.


(** X12: updating a repair. An identifier that is not stored gives
    [undefined] and leaves the store as it was. For a stored identifier
    the result is the stored record overlaid with the keys of the
    update; it replaces the stored record in place (the identifiers and
    their order stay), it is what [getFrmRepair] then returns, it is
    listed by [getFrmRepairsByStatus] under its status, and no other
    repair changes. *)
Theorem update_overlays_stored_repair (this : Storage.MemStorage)
    (id : jsstring) (updates : Schema.PartialFrmRepair.t) :
  (Storage.getFrmRepair this id = None ->
   Storage.updateFrmRepair this id updates = (this, None))
  /\ (forall existing, Storage.getFrmRepair this id = Some existing ->
        let storage := (Storage.updateFrmRepair this id updates).1 in
        let updated := Storage.spread existing updates in
        (Storage.updateFrmRepair this id updates).2 = Some updated
        /\ Storage.getFrmRepair storage id = Some updated
        /\ (Storage.frmRepairs storage).*1 = (Storage.frmRepairs this).*1
        /\ updated ∈ Storage.getFrmRepairsByStatus storage
                       (Schema.FrmRepair.repairStatus updated)
        /\ (forall id', id' <> id ->
              Storage.getFrmRepair storage id'
              = Storage.getFrmRepair this id')
        /\ Storage.users storage = Storage.users this).
Proof.
  unfold Storage.updateFrmRepair, Storage.getFrmRepair. split.
  - by intros ->.
  - intros existing E. rewrite E. cbn [fst snd Storage.frmRepairs].
    split; [done|]. split; [apply Map_get_set|].
    split; [apply Map_keys_set_present; by rewrite E|].
    split; [|split; [intros id' Hid; by apply Map_get_set_ne|done]].
    unfold Storage.getFrmRepairsByStatus, JsMap.values.
    cbn [Storage.frmRepairs].
    apply list_elem_of_In, filter_In. split.
    + apply list_elem_of_In.
      apply (list_elem_of_fmap_2 snd _ (id, Storage.spread existing updates)).
      apply Map_get_Some, Map_get_set.
    + by apply bool_decide_eq_true_2.
Qed.

Lemma find_app_fresh {A} (p : A -> bool) (l : list A) (x : A) :
  List.find p (l ++ [x])
  = match List.find p l with
    | Some y => Some y
    | None => if p x then Some x else None
    end.
Proof.
  induction l as [|y l IH]; cbn [List.find app]; [done|].
  by destruct (p y).
Qed.

(** X13: creating a user under an identifier that is not yet stored.
    The user can be read back by identifier. Looking the name up returns
    the first user created with that name: the new user when the name
    was free, and still the earlier user when it was taken - the store
    does not keep names unique. Other names resolve as before. *)
Theorem created_user_and_name_lookup (this : Storage.MemStorage)
    (uuid : jsstring) (insertUser : Schema.InsertUser.t)
    (Hfresh : Storage.getUser this uuid = None) :
  let storage := (Storage.createUser this uuid insertUser).1 in
  let user := (Storage.createUser this uuid insertUser).2 in
  Storage.getUser storage uuid = Some user
  /\ Schema.User.id user = uuid
  /\ Schema.User.username user = Schema.InsertUser.username insertUser
  /\ Storage.getUserByUsername storage (Schema.InsertUser.username insertUser)
     = Some (default user
               (Storage.getUserByUsername this
                  (Schema.InsertUser.username insertUser)))
  /\ (forall name, name <> Schema.InsertUser.username insertUser ->
        Storage.getUserByUsername storage name
        = Storage.getUserByUsername this name)
  /\ (forall id, id <> uuid ->
        Storage.getUser storage id = Storage.getUser this id)
  /\ Storage.frmRepairs storage = Storage.frmRepairs this.
Proof.
  cbn. unfold Storage.getUser, Storage.getUserByUsername in *.
  cbn [Storage.users]. unfold JsMap.values.
  rewrite (Map_set_fresh _ _ _ Hfresh), fmap_app.
  cbn [fmap list_fmap snd].
  split; [rewrite <- (Map_set_fresh _ _ _ Hfresh); apply Map_get_set|].
  split; [done|]. split; [done|]. split; [|split; [|split; [|done]]].
  - rewrite find_app_fresh. cbn [Schema.User.username].
    rewrite bool_decide_eq_true_2 by done.
    by destruct (List.find _ _).
  - intros name Hname. rewrite find_app_fresh. cbn [Schema.User.username].
    rewrite bool_decide_eq_false_2 by done.
    by destruct (List.find _ _).
  - intros id Hid.
    rewrite <- (Map_set_fresh _ _ _ Hfresh). by apply Map_get_set_ne.
Qed.

Lemma created_user_and_name_lookup_witness :
  let insertUser :=
    {| Schema.InsertUser.username := lit "anna";
       Schema.InsertUser.password := lit "secret" |} in
  let storage := (Storage.createUser Storage.new (lit "u1") insertUser).1 in
  let user := (Storage.createUser Storage.new (lit "u1") insertUser).2 in
  Storage.getUser storage (lit "u1") = Some user.
Proof.
  intros insertUser.
  apply (created_user_and_name_lookup Storage.new (lit "u1") insertUser).
  reflexivity.
Defined.

(** * The request handlers *)

Lemma Map_set_set {V} (m : list (list Z * V)) (k : list Z) (v1 v2 : V) :
  JsMap.set (JsMap.set m k v1) k v2 = JsMap.set m k v2.
Proof.
  induction m as [|[k0 v0] m IH]; cbn [JsMap.set].
  - by rewrite bool_decide_eq_true_2.
  - case_bool_decide as E; cbn [JsMap.set].
    + by rewrite bool_decide_eq_true_2.
    + by rewrite bool_decide_eq_false_2, IH.
Qed.

(** The analysis of a source of 32768 bytes, field by field. *)
Lemma server_analysis_record (d : bytes) :
  len d = 32768 ->
  Server.analyzeDFlash d =
  Ok {| Server.analysis_corruptionLevel :=
          of_Z (Spec.percent (Spec.meaningful_sectors d) 32);
        Server.analysis_recoverableSectors := Spec.meaningful_sectors d;
        Server.totalSectors := 32;
        Server.vehicleData :=
          {| Server.vin := Server.extractVin d;
             Server.model := Server.extractModel d;
             Server.year := Server.extractYear d;
             Server.mileage :=
               first_some (Scan.server_mileage d)
                 Scan.server_mileage_offsets |};
        Server.frmType := Server.detectFrmType d;
        Server.configurationData := Server.extractConfigurationData d |}.
Proof.
  intros Hd. unfold Server.analyzeDFlash, Server.extractVehicleData. cbv zeta.
  rewrite server_extractMileage_pure, !bind_Ok by lia.
  by rewrite server_analysis by done.
Qed.

(** The thresholds that the handlers and the analysis card put on the
    level, in terms of the number of sectors that hold data. *)
Lemma level_threshold_table :
  forallb
    (fun r =>
       let level := of_Z (Spec.percent r 32) in
       Bool.eqb (PrimFloat.ltb (of_Z 95) level) (31 <=? r)
       && Bool.eqb (PrimFloat.ltb (of_Z 50) level) (17 <=? r)
       && Bool.eqb (PrimFloat.leb level (of_Z 50)) (r <=? 16)
       && Bool.eqb (PrimFloat.ltb level (of_Z 50)) (r <=? 15)
       && Bool.eqb (PrimFloat.ltb (of_Z 70) level) (23 <=? r))
    (seqZ 0 33) = true.
Proof. vm_compute. reflexivity. Qed.

Lemma level_thresholds (r : Z) :
  0 <= r <= 32 ->
  let level := of_Z (Spec.percent r 32) in
  PrimFloat.ltb (of_Z 95) level = (31 <=? r)
  /\ PrimFloat.ltb (of_Z 50) level = (17 <=? r)
  /\ PrimFloat.leb level (of_Z 50) = (r <=? 16)
  /\ PrimFloat.ltb level (of_Z 50) = (r <=? 15)
  /\ PrimFloat.ltb (of_Z 70) level = (23 <=? r).
Proof.
  intros Hr level. pose proof level_threshold_table as T.
  rewrite forallb_forall in T.
  specialize (T r ltac:(apply list_elem_of_In, elem_of_seqZ; lia)).
  cbv zeta in T. fold level in T.
  repeat (apply andb_prop in T as [T ?]).
  repeat split; by apply Bool.eqb_prop.
Qed.

Lemma server_scan_mileage_plausible (d : bytes) (x : Z) :
  first_some (Scan.server_mileage d) Scan.server_mileage_offsets = Some x ->
  Spec.plausible x.
Proof.
  intros H. apply first_some_Some in H as (l1 & o & l2 & _ & H & _).
  by apply server_mileage_Some in H as [_ H].
Qed.

Lemma upload_wrong_size (storage : Storage.MemStorage) (uuid : jsstring)
    (now : Z) (file : Routes.File) :
  len (Routes.buffer file) <> 32768 ->
  Routes.upload_handler storage uuid now (Some file)
  = (storage,
     {| Routes.status := 400;
        Routes.content :=
          Routes.error_json
            (Some (Routes.size_error (len (Routes.buffer file)))) |}).
Proof.
  intros Hlen. unfold Routes.upload_handler.
  destruct (Z.eqb_spec (len (Routes.buffer file)) 32768); [done|].
  reflexivity.
Qed.

(** What the upload handler leaves in the store for a file of 32768
    bytes. *)
Lemma upload_result (storage : Storage.MemStorage) (uuid : jsstring)
    (now : Z) (file : Routes.File) :
  len (Routes.buffer file) = 32768 ->
  let d := Routes.buffer file in
  exists a,
    Server.analyzeDFlash d = Ok a
    /\ Routes.upload_handler storage uuid now (Some file)
       = ({| Storage.users := Storage.users storage;
             Storage.frmRepairs :=
               JsMap.set (Storage.frmRepairs storage) uuid
                 {| Schema.FrmRepair.id := uuid;
                    Schema.FrmRepair.filename := Routes.originalname file;
                    Schema.FrmRepair.fileSize := 32768;
                    Schema.FrmRepair.frmType := Server.detectFrmType d;
                    Schema.FrmRepair.vin := Server.extractVin d;
                    Schema.FrmRepair.mileage :=
                      first_some (Scan.server_mileage d)
                        Scan.server_mileage_offsets;
                    Schema.FrmRepair.repairStatus :=
                      (if (31 <=? Spec.meaningful_sectors d)%Z
                       then "failed" else "analyzed")%string;
                    Schema.FrmRepair.analysisData :=
                      Some (Routes.JSON_stringify a);
                    Schema.FrmRepair.originalData := Some d;
                    Schema.FrmRepair.repairedData := None;
                    Schema.FrmRepair.createdAt := Some now |} |},
          {| Routes.status := 200;
             Routes.content := Routes.upload_json uuid a |}).
Proof.
  destruct file as [name d]. cbn [Routes.buffer Routes.originalname].
  intros Hlen. cbv zeta.
  eexists. split; [apply server_analysis_record, Hlen|].
  unfold Routes.upload_handler. cbn [Routes.buffer Routes.originalname].
  rewrite Hlen. cbn [Z.eqb Pos.eqb negb].
  rewrite (server_analysis_record d Hlen).
  unfold Storage.createFrmRepair. cbv zeta.
  unfold Storage.updateFrmRepair.
  cbn [Storage.frmRepairs Storage.users Schema.FrmRepair.id].
  rewrite Map_get_set, Map_set_set.
  cbn [Server.vehicleData Server.vin Server.mileage Server.frmType
         Server.analysis_corruptionLevel].
  destruct (level_thresholds (Spec.meaningful_sectors d)
              (meaningful_sectors_bound d)) as [-> _].
  assert (match Server.extractVin d with
          | Some s => if truthy_string s then Some s else None
          | None => None
          end = Server.extractVin d) as ->.
  { pose proof (server_image_identifier d) as Hv.
    destruct (Server.extractVin d) as [s|]; [|done].
    by rewrite identifier_truthy by (by apply Hv). }
  assert (match first_some (Scan.server_mileage d)
                  Scan.server_mileage_offsets with
          | Some m => if m =? 0 then None else Some m
          | None => None
          end
          = first_some (Scan.server_mileage d) Scan.server_mileage_offsets)
    as ->.
  { pose proof (server_scan_mileage_plausible d) as Hm.
    destruct (first_some _ _) as [m|]; [|done].
    specialize (Hm m eq_refl). unfold Spec.plausible in Hm.
    destruct (Z.eqb_spec m 0); [lia|done]. }
  reflexivity.
Qed.

(** Comparing with the limit is such a test. *)
Lemma limit_test : Routes.limits_fileSize (Z.ltb Routes.fileSize).
Proof.
  intros size. split; intros H; [apply Z.ltb_ge; lia|by apply Z.ltb_lt].
Qed.

(** The upload middleware lets a file pass that its filter accepts and
    that is below the limit: the handler then answers. *)
Lemma upload_passes (toLowerCase : jsstring -> jsstring)
    (over_limit : Z -> bool) (storage : Storage.MemStorage) (uuid : jsstring)
    (now : Z) (file : Routes.File) :
  Routes.limits_fileSize over_limit ->
  Routes.fileFilter toLowerCase file = Ok tt ->
  len (Routes.buffer file) < Routes.fileSize ->
  Routes.upload toLowerCase over_limit storage uuid now (Some file)
  = Routes.upload_handler storage uuid now (Some file).
Proof.
  intros Hlimit Hfilter Hsize. unfold Routes.upload, Routes.upload_single.
  rewrite Hfilter. cbn [mbind result_bind].
  by rewrite (proj1 (Hlimit _) Hsize).
Qed.




(** X15: uploading a file of 32768 bytes whose name the filter of the
    upload middleware accepts always succeeds: the analysis
    does not throw, the response carries it with the identifier drawn
    for the repair, and under that identifier the store holds the file
    name, the size, the bytes of the file, the type, identifier and
    odometer value that the analysis found, and no repaired data yet.
    The repair is recorded as "failed" exactly when 31 or 32 of the 32
    sectors hold data (a level above 95), and as "analyzed" otherwise.
    Repairs under other identifiers are not touched. *)
Theorem upload_stores_analysed_repair (toLowerCase : jsstring -> jsstring)
    (over_limit : Z -> bool) (Hlimit : Routes.limits_fileSize over_limit)
    (storage : Storage.MemStorage) (uuid : jsstring) (now : Z)
    (file : Routes.File)
    (Hname : Routes.fileFilter toLowerCase file = Ok tt)
    (Hlen : len (Routes.buffer file) = 32768) :
  let d := Routes.buffer file in
  let answer :=
    Routes.upload toLowerCase over_limit storage uuid now (Some file) in
  let after := answer.1 in
  exists a m,
    Server.analyzeDFlash d = Ok a
    /\ Server.extractMileage d = Ok m
    /\ answer.2
       = {| Routes.status := 200;
            Routes.content := Routes.upload_json uuid a |}
    /\ Storage.getFrmRepair after uuid
       = Some {| Schema.FrmRepair.id := uuid;
                 Schema.FrmRepair.filename := Routes.originalname file;
                 Schema.FrmRepair.fileSize := 32768;
                 Schema.FrmRepair.frmType := Server.detectFrmType d;
                 Schema.FrmRepair.vin := Server.extractVin d;
                 Schema.FrmRepair.mileage := m;
                 Schema.FrmRepair.repairStatus :=
                   (if (31 <=? Spec.meaningful_sectors d)%Z
                    then "failed" else "analyzed")%string;
                 Schema.FrmRepair.analysisData :=
                   Some (Routes.JSON_stringify a);
                 Schema.FrmRepair.originalData := Some d;
                 Schema.FrmRepair.repairedData := None;
                 Schema.FrmRepair.createdAt := Some now |}
    /\ (forall id, id <> uuid ->
          Storage.getFrmRepair after id = Storage.getFrmRepair storage id)
    /\ Storage.users after = Storage.users storage.
Proof.
  cbv zeta.
  rewrite (upload_passes _ _ _ _ _ _ Hlimit Hname)
    by (rewrite Hlen; reflexivity).
  destruct (upload_result storage uuid now file Hlen) as (a & Ha & E).
  rewrite E. cbn [fst snd].
  exists a, (first_some (Scan.server_mileage (Routes.buffer file))
               Scan.server_mileage_offsets).
  split; [exact Ha|].
  split; [apply server_extractMileage_pure; lia|].
  split; [done|]. unfold Storage.getFrmRepair. cbn [Storage.frmRepairs].
  split; [apply Map_get_set|].
  split; [intros id Hid; by apply Map_get_set_ne|done].
Qed.

Lemma upload_stores_analysed_repair_witness :
  (Routes.upload (fmap Text.lower) (Z.ltb Routes.fileSize) Storage.new
     (lit "r1") 0
     (Some {| Routes.originalname := lit "dump.bin";
              Routes.buffer := Spec.uniform xff |})).2
  = {| Routes.status := 200;
       Routes.content :=
         Routes.upload_json (lit "r1")
           {| Server.analysis_corruptionLevel := of_Z 0;
              Server.analysis_recoverableSectors := 0;
              Server.totalSectors := 32;
              Server.vehicleData :=
                {| Server.vin := None; Server.model := None;
                   Server.year := None; Server.mileage := None |};
              Server.frmType := "FRM3 Unknown";
              Server.configurationData :=
                {| Server.xenonHeadlights := true;
                   Server.angelEyes := true;
                   Server.autoWipers := true;
                   Server.comfortAccess := true;
                   Server.followMeHome := 255 |} |} |}.
Proof.
  assert (Routes.fileFilter (fmap Text.lower)
            {| Routes.originalname := lit "dump.bin";
               Routes.buffer := Spec.uniform xff |} = Ok tt) as Hname
    by (vm_compute; reflexivity).
  destruct (upload_stores_analysed_repair (fmap Text.lower)
              (Z.ltb Routes.fileSize) limit_test Storage.new (lit "r1") 0
              {| Routes.originalname := lit "dump.bin";
                 Routes.buffer := Spec.uniform xff |} Hname eq_refl)
    as (a & m & Ha & _ & E & _).
  rewrite E. cbn [Routes.buffer] in Ha.
  assert (Ok a = Ok {| Server.analysis_corruptionLevel := of_Z 0;
              Server.analysis_recoverableSectors := 0;
              Server.totalSectors := 32;
              Server.vehicleData :=
                {| Server.vin := None; Server.model := None;
                   Server.year := None; Server.mileage := None |};
              Server.frmType := "FRM3 Unknown";
              Server.configurationData :=
                {| Server.xenonHeadlights := true;
                   Server.angelEyes := true;
                   Server.autoWipers := true;
                   Server.comfortAccess := true;
                   Server.followMeHome := 255 |} |}) as [= ->].
  { rewrite <- Ha. vm_compute. reflexivity. }
  reflexivity.
Defined.

Lemma convert_stored_source (storage : Storage.MemStorage) (id : jsstring)
    (repair : Schema.FrmRepair.t) (d : bytes) :
  Storage.getFrmRepair storage id = Some repair ->
  Schema.FrmRepair.originalData repair = Some d ->
  len d = 32768 ->
  let e := Image.server_image (Server.extractVin d)
             (first_some (Scan.server_mileage d) Scan.server_mileage_offsets)
             d in
  Server.eepromData (Server.convertDFlashToEEPROM d) = Some e
  /\ len e = 4096
  /\ Routes.convert storage id
     = ({| Storage.users := Storage.users storage;
           Storage.frmRepairs :=
             JsMap.set (Storage.frmRepairs storage) id
               (Storage.spread repair (Routes.set_repaired (Some e))) |},
        {| Routes.status := 200;
           Routes.content :=
             Routes.convert_json "Conversion completed successfully" 4096 |}).
Proof.
  intros Hget Hdata Hd e.
  assert (len e = 4096) as He
    by apply len_with_checksum, len_server_fields, server_image_identifier.
  pose proof (server_convert_image d Hd) as Hc. fold e in Hc.
  split; [by rewrite Hc|]. split; [exact He|].
  unfold Routes.convert. rewrite Hget, Hdata.
  unfold Routes.Buffer_from_buffer. rewrite Hc.
  cbn [Server.success Server.eepromData negb].
  unfold Storage.updateFrmRepair. unfold Storage.getFrmRepair in Hget.
  rewrite Hget, He. reflexivity.
Qed.


(** ** The name of the downloaded file *)

Lemma upper_letter (a : Z) : 65 <= Text.upper a <= 90 -> 32 <= a <= 126.
Proof.
  unfold Text.upper.
  destruct (Z.leb_spec 97 a), (Z.leb_spec a 122); cbn [andb]; lia.
Qed.

Lemma extension_codes :
  lit "BIN" = [66; 73; 78] /\ lit "HEX" = [72; 69; 88]
  /\ lit "EEP" = [69; 69; 80].
Proof. done. Qed.

Lemma valid_header_value_app (s t : jsstring) :
  Routes.valid_header_value (s ++ t)
  = Routes.valid_header_value s && Routes.valid_header_value t.
Proof. apply forallb_app. Qed.

Lemma extension_is_printable (t : jsstring) :
  Routes.extension_matches t = true -> Routes.valid_header_value t = true.
Proof.
  destruct t as [|d [|a [|b [|c [|? ?]]]]]; try done.
  unfold Routes.extension_matches.
  intros H. apply andb_prop in H as [Hd H]. apply Z.eqb_eq in Hd. subst d.
  assert (32 <= a <= 126 /\ 32 <= b <= 126 /\ 32 <= c <= 126) as (Ha & Hb & Hc).
  { cbn [existsb] in H. destruct extension_codes as (E1 & E2 & E3).
    rewrite E1, E2, E3 in H. cbn [fmap list_fmap] in H.
    repeat (apply orb_prop in H as [H|H]); try done;
      apply bool_decide_eq_true in H; injection H as Ea Eb Ec;
      repeat split; apply upper_letter; lia. }
  unfold Routes.valid_header_value. cbn [forallb].
  repeat (apply andb_true_intro; split); try done;
    apply orb_true_intro; left; apply orb_true_intro; right; lia.
Qed.

Lemma replace_extension_valid (filename : jsstring) :
  Routes.valid_header_value (Routes.replace_extension filename)
  = Routes.valid_header_value filename.
Proof.
  unfold Routes.replace_extension.
  destruct (Routes.extension_matches (drop (length filename - 4) filename))
    eqn:E; [|done].
  rewrite <- (take_drop (length filename - 4) filename) at 3.
  rewrite !valid_header_value_app, (extension_is_printable _ E).
  reflexivity.
Qed.

Lemma disposition_valid (filename : jsstring) :
  Routes.valid_header_value
    (lit ("attachment; filename=" ++ Server.dq)
     ++ Routes.replace_extension filename ++ lit Server.dq)
  = Routes.valid_header_value filename.
Proof.
  rewrite !valid_header_value_app, replace_extension_valid.
  replace (Routes.valid_header_value
             (lit ("attachment; filename=" ++ Server.dq))) with true
    by (vm_compute; reflexivity).
  replace (Routes.valid_header_value (lit Server.dq)) with true
    by (vm_compute; reflexivity).
  by rewrite andb_true_r.
Qed.

(** X17: the outcomes of the download handler. It answers 404 for an
    unknown identifier and for a repair without repaired data. For a
    repair with repaired data it sends those bytes with their length,
    under the stored file name with a final [.bin], [.hex] or [.eep]
    (in any letter case) replaced by [_repaired.bin] - unless the stored
    name holds a code unit that a header value may not hold, in which
    case the answer is 500. *)
Theorem download_route_outcomes (storage : Storage.MemStorage)
    (id : jsstring) :
  (Storage.getFrmRepair storage id = None ->
   Routes.download storage id
   = {| Routes.status := 404;
        Routes.content :=
          Routes.error_json (Some "Repaired file not found"%string) |})
  /\ (forall repair,
        Storage.getFrmRepair storage id = Some repair ->
        Schema.FrmRepair.repairedData repair = None ->
        Routes.download storage id
        = {| Routes.status := 404;
             Routes.content :=
               Routes.error_json (Some "Repaired file not found"%string) |})
  /\ (forall repair data,
        Storage.getFrmRepair storage id = Some repair ->
        Schema.FrmRepair.repairedData repair = Some data ->
        (Routes.valid_header_value (Schema.FrmRepair.filename repair) = true ->
         Routes.download storage id
         = {| Routes.status := 200;
              Routes.content :=
                Routes.attachment
                  (lit ("attachment; filename=" ++ Server.dq)
                   ++ Routes.replace_extension
                        (Schema.FrmRepair.filename repair)
                   ++ lit Server.dq)
                  (len data) data |})
        /\ (Routes.valid_header_value (Schema.FrmRepair.filename repair)
            = false ->
            Routes.status (Routes.download storage id) = 500)).
Proof.
  unfold Routes.download. split; [|split].
  - by intros ->.
  - by intros repair -> ->.
  - intros repair data -> ->. rewrite disposition_valid.
    split; by intros ->.
Qed.

(** ** Upload, conversion and download in sequence *)

(** X19: for a file of 32768 bytes whose name the filter of the upload
    middleware accepts, whatever the store held before:
    after the upload the download still answers 404; the conversion
    then answers 200 with size 4096 and records the repair as
    "completed" (also when the upload had recorded it as "failed"),
    keeping the uploaded bytes and the file name; and the download
    then sends the 4096 bytes that the converter returns for the
    uploaded bytes, whose stored checksum is the sum of their first 4092
    bytes, provided the file name may stand in a header. Repairs under
    other identifiers are as they were before the upload. *)
Theorem upload_convert_download (toLowerCase : jsstring -> jsstring)
    (over_limit : Z -> bool) (Hlimit : Routes.limits_fileSize over_limit)
    (storage : Storage.MemStorage) (uuid : jsstring) (now : Z)
    (file : Routes.File)
    (Hname : Routes.fileFilter toLowerCase file = Ok tt)
    (Hlen : len (Routes.buffer file) = 32768) :
  let uploaded :=
    (Routes.upload toLowerCase over_limit storage uuid now (Some file)).1 in
  let converted := (Routes.convert uploaded uuid).1 in
  exists e r,
    Server.eepromData (Server.convertDFlashToEEPROM (Routes.buffer file))
    = Some e
    /\ len e = 4096
    /\ Spec.stored_checksum e = Spec.additive_checksum e
    /\ Routes.status (Routes.download uploaded uuid) = 404
    /\ (Routes.convert uploaded uuid).2
       = {| Routes.status := 200;
            Routes.content :=
              Routes.convert_json "Conversion completed successfully" 4096 |}
    /\ Storage.getFrmRepair converted uuid = Some r
    /\ Schema.FrmRepair.repairStatus r = "completed"%string
    /\ Schema.FrmRepair.repairedData r = Some e
    /\ Schema.FrmRepair.originalData r = Some (Routes.buffer file)
    /\ Schema.FrmRepair.filename r = Routes.originalname file
    /\ (Routes.valid_header_value (Routes.originalname file) = true ->
        Routes.download converted uuid
        = {| Routes.status := 200;
             Routes.content :=
               Routes.attachment
                 (lit ("attachment; filename=" ++ Server.dq)
                  ++ Routes.replace_extension (Routes.originalname file)
                  ++ lit Server.dq)
                 4096 e |})
    /\ (forall id, id <> uuid ->
          Storage.getFrmRepair converted id
          = Storage.getFrmRepair storage id).
Proof.
  cbv zeta.
  rewrite (upload_passes _ _ _ _ _ _ Hlimit Hname)
    by (rewrite Hlen; reflexivity).
  destruct (upload_result storage uuid now file Hlen) as (a & Ha & E).
  rewrite E. cbn [fst]. clear E.
  match goal with
  | |- context [JsMap.set (Storage.frmRepairs storage) uuid ?r] =>
      remember r as r1 eqn:Hr1
  end.
  symmetry in Hr1.
  assert (Storage.getFrmRepair
            {| Storage.users := Storage.users storage;
               Storage.frmRepairs :=
                 JsMap.set (Storage.frmRepairs storage) uuid r1 |} uuid
          = Some r1) as Hget by apply Map_get_set.
  assert (Schema.FrmRepair.originalData r1 = Some (Routes.buffer file)) as Hd
    by (by rewrite <- Hr1).
  assert (Schema.FrmRepair.repairedData r1 = None) as Hn
    by (by rewrite <- Hr1).
  assert (Schema.FrmRepair.filename r1 = Routes.originalname file) as Hf
    by (by rewrite <- Hr1).
  clear Hr1.
  destruct (convert_stored_source _ uuid r1 _ Hget Hd Hlen) as (He & Hl & E).
  rewrite E. cbn [fst snd Storage.users Storage.frmRepairs]. clear E.
  rewrite Map_set_set.
  eexists _, _. split; [exact He|]. split; [exact Hl|].
  split; [apply with_checksum_round_trip, len_server_fields,
          server_image_identifier|].
  split.
  { unfold Routes.download. by rewrite Hget, Hn. }
  split; [done|].
  unfold Routes.download, Storage.getFrmRepair. cbn [Storage.frmRepairs].
  rewrite Map_get_set.
  split; [reflexivity|].
  cbn [Storage.spread Routes.set_repaired Schema.FrmRepair.repairedData
         Schema.FrmRepair.repairStatus Schema.FrmRepair.originalData
         Schema.FrmRepair.filename Schema.PartialFrmRepair.repairedData
         Schema.PartialFrmRepair.repairStatus
         Schema.PartialFrmRepair.originalData
         Schema.PartialFrmRepair.filename default from_option id].
  split; [done|]. split; [done|]. split; [exact Hd|]. split; [exact Hf|].
  split.
  - intros Hv. rewrite Hf, disposition_valid, Hv.
    unfold Routes.Buffer_from_buffer. by rewrite Hl.
  - intros id Hid. by rewrite Map_get_set_ne.
Qed.

Lemma upload_convert_download_witness :
  Routes.status
    (Routes.download
       (Routes.convert
          (Routes.upload (fmap Text.lower) (Z.ltb Routes.fileSize)
             Storage.new (lit "r1") 0
             (Some {| Routes.originalname := lit "dump.bin";
                      Routes.buffer := Spec.uniform xff |})).1
          (lit "r1")).1
       (lit "r1")) = 200.
Proof.
  assert (Routes.fileFilter (fmap Text.lower)
            {| Routes.originalname := lit "dump.bin";
               Routes.buffer := Spec.uniform xff |} = Ok tt) as Hname
    by (vm_compute; reflexivity).
  destruct (upload_convert_download (fmap Text.lower)
              (Z.ltb Routes.fileSize) limit_test Storage.new (lit "r1") 0
              {| Routes.originalname := lit "dump.bin";
                 Routes.buffer := Spec.uniform xff |} Hname eq_refl)
    as (e & r & _ & _ & _ & _ & _ & _ & _ & _ & _ & _ & H & _).
  cbn [Routes.originalname] in H. by rewrite H.
Defined.

(** ** File names: the upload filter and the download name *)

Lemma lower_upper (a x : Z) :
  97 <= x <= 122 -> x = Text.lower a <-> Text.upper a = x - 32.
Proof.
  intros Hx. unfold Text.lower, Text.upper.
  destruct (Z.leb_spec 65 a), (Z.leb_spec a 90), (Z.leb_spec 97 a),
    (Z.leb_spec a 122); cbn [andb]; lia.
Qed.

Lemma lower_dot (d : Z) : 46 = Text.lower d <-> d = 46.
Proof.
  unfold Text.lower.
  destruct (Z.leb_spec 65 d), (Z.leb_spec d 90); cbn [andb]; lia.
Qed.

Lemma endsWith_extension (stem : jsstring) (d a b c x1 x2 x3 : Z) :
  97 <= x1 <= 122 -> 97 <= x2 <= 122 -> 97 <= x3 <= 122 ->
  Text.endsWith (Text.lower <$> (stem ++ [d; a; b; c])) [46; x1; x2; x3]
  = (d =? 46)
    && bool_decide (Text.upper <$> [a; b; c] = [x1 - 32; x2 - 32; x3 - 32]).
Proof.
  intros H1 H2 H3. unfold Text.endsWith.
  rewrite fmap_app, reverse_app.
  cbn [fmap list_fmap reverse rev_append app starts_with].
  apply Bool.eq_iff_eq_true.
  rewrite !andb_true_iff, !bool_decide_eq_true, Z.eqb_eq.
  rewrite (lower_upper a x1), (lower_upper b x2), (lower_upper c x3),
    lower_dot by done.
  split.
  - intros (-> & -> & -> & -> & _). done.
  - intros (-> & [= -> -> ->]). done.
Qed.

Lemma endsWith_short (s suffix : jsstring) :
  (length s < length suffix)%nat -> Text.endsWith s suffix = false.
Proof.
  unfold Text.endsWith. rewrite <- (length_reverse s), <- (length_reverse suffix).
  generalize (reverse s), (reverse suffix). clear s suffix.
  intros s. induction s as [|x s IH]; intros [|y t] H;
    cbn [length starts_with] in *; try lia; try reflexivity.
  rewrite IH by lia. apply andb_false_r.
Qed.

(** On every name, looking for one of the three extensions at the end of
    the ASCII-lowered name is matching the pattern of the download
    handler against its last four code units. *)
Lemma lowered_name_extension (name : jsstring) :
  existsb (fun ext => Text.endsWith (Text.lower <$> name) ext)
    [lit ".bin"; lit ".hex"; lit ".eep"]
  = Routes.extension_matches (drop (length name - 4) name).
Proof.
  destruct (decide (length name < 4)%nat) as [Hs|Hs].
  - cbn [existsb].
    rewrite !endsWith_short by (rewrite length_fmap; cbn; lia).
    replace (length name - 4)%nat with 0%nat by lia. rewrite drop_0.
    by destruct name as [|? [|? [|? [|? ?]]]]; cbn in Hs; try lia.
  - pose proof (take_drop (length name - 4) name) as Hn.
    assert (length (drop (length name - 4) name) = 4%nat) as Hl
      by (rewrite length_drop; lia).
    destruct (drop (length name - 4) name) as [|d [|a [|b [|c [|? ?]]]]];
      try done.
    revert Hn. generalize (take (length name - 4) name). intros stem Hn.
    rewrite <- Hn. cbn [existsb].
    change (lit ".bin") with [46; 98; 105; 110].
    change (lit ".hex") with [46; 104; 101; 120].
    change (lit ".eep") with [46; 101; 101; 112].
    rewrite !endsWith_extension by lia.
    unfold Routes.extension_matches. cbn [existsb].
    destruct extension_codes as (-> & -> & ->).
    destruct (d =? 46); reflexivity.
Qed.

(** X20: for an ASCII file name the upload filter and the download name
    agree on what an extension is. The filter lets the file pass exactly
    when the last four code units are a dot and [bin], [hex] or [eep] in
    any letter case; the download handler then renames exactly those
    four to [_repaired.bin]; and a file that the filter turns away with
    its error has a name that the download handler would leave
    unchanged. *)
Theorem accepted_names_are_renamed (toLowerCase : jsstring -> jsstring)
    (Hlower : Text.lowers_ascii toLowerCase) (file : Routes.File)
    (Hascii : Text.is_ascii (Routes.originalname file)) :
  let name := Routes.originalname file in
  (Routes.fileFilter toLowerCase file = Ok tt <->
   Routes.extension_matches (drop (length name - 4) name) = true)
  /\ (Routes.fileFilter toLowerCase file = Ok tt ->
      Routes.replace_extension name
      = take (length name - 4) name ++ lit "_repaired.bin")
  /\ (Routes.fileFilter toLowerCase file <> Ok tt ->
      Routes.fileFilter toLowerCase file
      = Throw (Error
          "Invalid file type. Only .bin, .hex, and .eep files are allowed.")
      /\ Routes.replace_extension name = name).
Proof.
  intros name. unfold Routes.fileFilter, Routes.allowedExtensions.
  fold name. rewrite (Hlower name Hascii), lowered_name_extension.
  unfold Routes.replace_extension.
  destruct (Routes.extension_matches (drop (length name - 4) name)).
  - split; [done|]. split; [done|]. by intros [].
  - split; [split; [intros [=]|done]|]. split; [intros [=]|done].
Qed.

Lemma accepted_names_are_renamed_witness :
  Routes.replace_extension (lit "Dump.BIN") = lit "Dump_repaired.bin".
Proof.
  refine (proj1 (proj2 (accepted_names_are_renamed (fmap Text.lower) _
                          {| Routes.originalname := lit "Dump.BIN";
                             Routes.buffer := [] |} _)) _).
  - intros s _. reflexivity.
  - unfold Text.is_ascii. cbn [Routes.originalname].
    change (lit "Dump.BIN") with [68; 117; 109; 112; 46; 66; 73; 78].
    repeat (apply List.Forall_cons; [lia|]). apply List.Forall_nil.
  - vm_compute. reflexivity.
Defined.

(** X21: a file that [validateFRMFile] accepts has a size between 30000
    and 64000, is sent by the upload form, and passes the filter and the
    size limit of the upload middleware; but the upload route answers
    200 for it only when its size is exactly 32768 bytes. *)
Theorem validated_files_and_the_upload_route
    (toLowerCase : jsstring -> jsstring) (file : FileUtils.File)
    (Hvalid : FileUtils.isValid (FileUtils.validateFRMFile toLowerCase file)
              = true) :
  30000 <= FileUtils.size file <= 64000
  /\ FileUtils.validateFRMFile toLowerCase file
     = {| FileUtils.isValid := true; FileUtils.error := None |}
  /\ FileUpload.handleFile toLowerCase file = FileUpload.mutate file
  /\ forall over_limit storage uuid now buffer,
       Routes.limits_fileSize over_limit ->
       len buffer = FileUtils.size file ->
       let upload :=
         {| Routes.originalname := FileUtils.name file;
            Routes.buffer := buffer |} in
       Routes.upload_single toLowerCase over_limit (Some upload)
       = Ok (Some upload)
       /\ Routes.fileFilter toLowerCase upload = Ok tt
       /\ (Routes.status
             (Routes.upload toLowerCase over_limit storage uuid now
                (Some upload)).2 = 200
           <-> FileUtils.size file = 32768).
Proof.
  unfold FileUtils.validateFRMFile, FileUtils.validExtensions in *.
  unfold FileUpload.handleFile, Routes.fileFilter, Routes.allowedExtensions.
  cbn [Routes.originalname].
  destruct (existsb _ _) eqn:Hex; [|done]. cbn [negb] in *.
  destruct (Z.ltb_spec (FileUtils.size file) 30000); [done|].
  destruct (Z.ltb_spec 64000 (FileUtils.size file)); [done|].
  cbn [orb] in *. split; [lia|]. split; [done|].
  destruct (Z.ltb_spec (64 * 1024) (FileUtils.size file)); [lia|].
  split; [done|]. intros over_limit storage uuid now buffer Hlimit Hb.
  assert (over_limit (len buffer) = false) as Ho
    by (apply Hlimit; unfold Routes.fileSize; lia).
  unfold Routes.upload, Routes.upload_single, Routes.fileFilter,
    Routes.allowedExtensions.
  cbn [Routes.originalname Routes.buffer]. rewrite Hex.
  cbn [mbind result_bind]. rewrite Ho.
  split; [done|]. split; [done|].
  split.
  - intros Hs. destruct (decide (FileUtils.size file = 32768)); [done|].
    rewrite upload_wrong_size in Hs by (cbn [Routes.buffer]; lia).
    done.
  - intros E.
    destruct (upload_result storage uuid now
                {| Routes.originalname := FileUtils.name file;
                   Routes.buffer := buffer |}) as (a & _ & ->);
      [cbn [Routes.buffer]; lia|done].
Qed.

Lemma validated_files_and_the_upload_route_witness :
  FileUpload.handleFile (fmap Text.lower)
    {| FileUtils.name := lit "dump.bin"; FileUtils.size := 32768 |}
  = FileUpload.mutate
      {| FileUtils.name := lit "dump.bin"; FileUtils.size := 32768 |}.
Proof.
  apply (validated_files_and_the_upload_route (fmap Text.lower)
           {| FileUtils.name := lit "dump.bin"; FileUtils.size := 32768 |}).
  vm_compute. reflexivity.
Defined.

(** * The client-side helpers *)

(** ** Model years *)

(** For every character of the identifier alphabet: the year the client
    table gives lies in 2001..2025, the table has no entry exactly for
    [0] and [T]..[Z], and an entry of the server table is an entry of
    the client table. *)
Lemma year_table :
  forallb
    (fun c =>
       match FileUtils.yearMap !! [c] with
       | Some y =>
           (2001 <=? y) && (y <=? 2025)
           && negb (bool_decide (c ∈ lit "0TUVWXYZ"))
           && bool_decide (Server.yearMap !! [c] = None
                           \/ Server.yearMap !! [c] = Some y)
       | None =>
           bool_decide (c ∈ lit "0TUVWXYZ")
           && bool_decide (Server.yearMap !! [c] = None)
       end)
    Spec.alphabet = true.
Proof. vm_compute. reflexivity. Qed.

Lemma identifier_year_char (vin : jsstring) :
  Spec.identifier vin ->
  exists c, charAt vin 9 = [c] /\ c ∈ Spec.alphabet.
Proof.
  intros [Hl Hall]. unfold charAt. change (Z.to_nat 9) with 9%nat.
  destruct (drop 9 vin) as [|c rest] eqn:E.
  - apply (f_equal length) in E. rewrite length_drop, Hl in E. done.
  - exists c. split; [done|].
    rewrite Forall_forall in Hall. apply Hall.
    apply (list_elem_of_lookup_2 _ 9%nat).
    rewrite <- (Nat.add_0_r 9), <- lookup_drop, E. done.
Qed.

(** X22: the model year that the client helper reads out of an
    identifier. [validateVIN] accepts exactly the identifiers (17
    characters of the alphabet). [getYearFromVIN] gives nothing for any
    other string; for an identifier it gives a year from 2001 to 2025,
    or nothing exactly when the tenth character is [0] or one of
    [T]..[Z]. Whenever the server's [extractYear] gives a year for a
    source, the client helper gives the same year for the identifier the
    server extracted. *)
Theorem year_of_identifier (vin : jsstring) :
  (FileUtils.validateVIN vin = true <-> Spec.identifier vin)
  /\ (~ Spec.identifier vin -> FileUtils.getYearFromVIN vin = None)
  /\ (forall y, FileUtils.getYearFromVIN vin = Some y ->
        Spec.identifier vin /\ 2001 <= y <= 2025)
  /\ (Spec.identifier vin ->
      (FileUtils.getYearFromVIN vin = None <->
       (exists c, charAt vin 9 = [c] /\ c ∈ lit "0TUVWXYZ")))
  /\ (forall d y,
        Server.extractVin d = Some vin -> Server.extractYear d = Some y ->
        FileUtils.getYearFromVIN vin = Some y).
Proof.
  pose proof year_table as T. rewrite forallb_forall in T.
  assert (forall c, c ∈ Spec.alphabet ->
            match FileUtils.yearMap !! [c] with
            | Some y =>
                2001 <= y <= 2025 /\ (c ∉ lit "0TUVWXYZ")
                /\ (Server.yearMap !! [c] = None
                    \/ Server.yearMap !! [c] = Some y)
            | None => c ∈ lit "0TUVWXYZ" /\ Server.yearMap !! [c] = None
            end) as Tc.
  { intros c Hc. apply list_elem_of_In, T in Hc.
    destruct (FileUtils.yearMap !! [c]) as [y|].
    - apply andb_prop in Hc as [Hc H4]. apply andb_prop in Hc as [Hc H3].
      apply andb_prop in Hc as [H1 H2].
      apply bool_decide_eq_true in H4. apply negb_true_iff in H3.
      apply bool_decide_eq_false in H3. split; [lia|done].
    - apply andb_prop in Hc as [H1 H2].
      by apply bool_decide_eq_true in H1, H2. }
  clear T. unfold FileUtils.getYearFromVIN, FileUtils.validateVIN.
  split; [apply vin_regex_test_identifier|].
  split; [|split; [|split]].
  - intros Hn. destruct (vin_regex_test vin) eqn:E; [|reflexivity].
    apply vin_regex_test_identifier in E. destruct (Hn E).
  - intros y. destruct (vin_regex_test vin) eqn:E; [|intros [=]].
    apply vin_regex_test_identifier in E. cbn [negb].
    destruct (identifier_year_char vin E) as (c & -> & Hc).
    specialize (Tc c Hc). intros Hy. rewrite Hy in Tc.
    split; [exact E|exact (proj1 Tc)].
  - intros Hid. rewrite (proj2 (vin_regex_test_identifier vin) Hid).
    cbn [negb].
    destruct (identifier_year_char vin Hid) as (c & -> & Hc).
    specialize (Tc c Hc). revert Tc.
    generalize (FileUtils.yearMap !! [c]), (Server.yearMap !! [c]).
    intros o1 o2 Tc. split.
    + intros ->. exists c. split; [reflexivity|exact (proj1 Tc)].
    + intros (c' & Hc1 & Hc'). injection Hc1 as <-.
      destruct o1 as [y|]; [|reflexivity].
      destruct (proj1 (proj2 Tc) Hc').
  - intros d y Hvin. unfold Server.extractYear. rewrite Hvin.
    pose proof (server_image_identifier d vin Hvin) as Hid.
    rewrite (identifier_truthy vin Hid),
      (proj2 (vin_regex_test_identifier vin) Hid).
    cbn [negb].
    destruct (identifier_year_char vin Hid) as (c & -> & Hc).
    specialize (Tc c Hc). revert Tc.
    generalize (FileUtils.yearMap !! [c]), (Server.yearMap !! [c]).
    intros o1 o2 Tc ->.
    destruct o1 as [y'|].
    + destruct Tc as (_ & _ & [E|E]); [discriminate E|].
      injection E as ->. reflexivity.
    + destruct Tc as [_ E]. discriminate E.
Qed.

(** ** The analysis card *)

(** X23: what the analysis card shows for a source of 32768 bytes, in
    terms of the number of its 32 sectors that hold data. The button
    that starts the conversion is shown exactly when 17 or more sectors
    hold data, and the notice that repair is not possible exactly when
    it is not shown. The three status values change at 16, 21 and 23
    sectors. *)
Theorem analysis_card_thresholds (d : bytes) (Hd : len d = 32768) :
  exists a,
    Server.analyzeDFlash d = Ok a
    /\ AnalysisResults.convertButton a = (17 <=? Spec.meaningful_sectors d)
    /\ AnalysisResults.repairNotPossible a
       = negb (AnalysisResults.convertButton a)
    /\ AnalysisResults.eepromStatus a
       = (if Spec.meaningful_sectors d <=? 15
          then "corrupted"%string else "readable"%string)
    /\ AnalysisResults.dflashStatus a
       = (if 21 <=? Spec.meaningful_sectors d
          then "readable"%string else "partial"%string)
    /\ AnalysisResults.integrityStatus a
       = (if 23 <=? Spec.meaningful_sectors d
          then "readable"%string else "partial"%string).
Proof.
  eexists. split; [apply (server_analysis_record d Hd)|].
  unfold AnalysisResults.convertButton, AnalysisResults.repairNotPossible,
    AnalysisResults.eepromStatus, AnalysisResults.dflashStatus,
    AnalysisResults.integrityStatus.
  cbn [Server.analysis_corruptionLevel Server.analysis_recoverableSectors].
  pose proof (meaningful_sectors_bound d) as Hb.
  destruct (level_thresholds (Spec.meaningful_sectors d) Hb)
    as (_ & -> & -> & -> & ->).
  split; [done|]. split; [|split; [done|split; [|done]]].
  - destruct (Z.leb_spec 17 (Spec.meaningful_sectors d)),
      (Z.leb_spec (Spec.meaningful_sectors d) 16); cbn [negb]; try done; lia.
  - destruct (Z.ltb_spec 20 (Spec.meaningful_sectors d)),
      (Z.leb_spec 21 (Spec.meaningful_sectors d)); try done; lia.
Qed.

Lemma analysis_card_thresholds_witness :
  exists a,
    Server.analyzeDFlash (Spec.uniform x42) = Ok a
    /\ AnalysisResults.convertButton a = true.
Proof.
  destruct (analysis_card_thresholds (Spec.uniform x42) eq_refl)
    as (a & Ha & Hb & _).
  exists a. split; [exact Ha|]. rewrite Hb. vm_compute. reflexivity.
Defined.

(** ** Intel HEX text *)

(** Two digits as the encoder writes them are read back by
    [parseInt]. *)
Lemma parse_hex2_table :
  forallb
    (fun v => bool_decide (Text.parseInt16 (IntelHex.hex2 v) = Some v))
    (seqZ 0 256) = true.
Proof. vm_compute. reflexivity. Qed.

Lemma parse_hex2 (v : Z) :
  0 <= v < 256 -> Text.parseInt16 (IntelHex.hex2 v) = Some v.
Proof.
  intros Hv. pose proof parse_hex2_table as T.
  rewrite forallb_forall in T.
  specialize (T v ltac:(apply list_elem_of_In, elem_of_seqZ; lia)).
  by apply bool_decide_eq_true in T.
Qed.

Lemma hex_char_text (d : Z) :
  0 <= d < 16 -> IntelHex.is_text (IntelHex.hex_char d) = true.
Proof.
  intros Hd. unfold IntelHex.is_text, IntelHex.hex_char.
  destruct (Z.ltb_spec d 10).
  - replace ((48 <=? 48 + d) && (48 + d <=? 57)) with true by lia.
    by rewrite orb_true_r.
  - replace ((65 <=? 65 + (d - 10)) && (65 + (d - 10) <=? 70)) with true
      by lia.
    by rewrite orb_true_r.
Qed.

Lemma hex2_text (v : Z) : forallb IntelHex.is_text (IntelHex.hex2 v) = true.
Proof.
  unfold IntelHex.hex2. cbn [forallb].
  rewrite !hex_char_text by (apply Z.mod_pos_bound; lia). done.
Qed.

Lemma payload_text (p : bytes) :
  forallb IntelHex.is_text (p ≫= fun b => IntelHex.hex2 (u8 b)) = true.
Proof.
  induction p as [|b p IH]; [done|].
  rewrite bind_cons, forallb_app, hex2_text, IH. done.
Qed.

Lemma line_text (r : IntelHex.record) :
  forallb IntelHex.is_text (IntelHex.line r) = true.
Proof.
  unfold IntelHex.line, IntelHex.hex4.
  rewrite !forallb_app, !hex2_text, payload_text.
  by destruct (IntelHex.cr r).
Qed.

Lemma file_text (rs : list IntelHex.record) :
  forallb (fun c => IntelHex.is_text c || (c =? 10)) (IntelHex.file rs) = true.
Proof.
  unfold IntelHex.file. induction rs as [|r rs IH]; [done|].
  rewrite bind_cons, !forallb_app, IH.
  pose proof (line_text r) as T.
  assert (forallb (fun c => IntelHex.is_text c || (c =? 10)) (IntelHex.line r)
          = true) as ->.
  { apply forallb_forall. intros c Hc.
    rewrite forallb_forall in T. by rewrite (T c Hc). }
  done.
Qed.

Lemma line_no_line_feed (r : IntelHex.record) : 10 ∉ IntelHex.line r.
Proof.
  intros H. pose proof (line_text r) as T. rewrite forallb_forall in T.
  apply list_elem_of_In, T in H. done.
Qed.

Lemma length_payload_text (p : bytes) :
  length (p ≫= fun b => IntelHex.hex2 (u8 b)) = (2 * length p)%nat.
Proof.
  induction p as [|b p IH]; [done|].
  rewrite bind_cons, length_app, IH. unfold IntelHex.hex2. cbn [length]. lia.
Qed.

Lemma len_line (r : IntelHex.record) :
  len (IntelHex.line r)
  = 11 + 2 * len (IntelHex.payload r) + (if IntelHex.cr r then 1 else 0).
Proof.
  unfold IntelHex.line, IntelHex.hex4, len.
  rewrite !length_app, length_payload_text. unfold IntelHex.hex2.
  destruct (IntelHex.cr r); cbn [length]; lia.
Qed.

(** The two digits of byte [i] of the payload. *)
Lemma payload_digits (p : bytes) (rest : jsstring) (i : nat) (b : byte) :
  p !! i = Some b ->
  take 2 (drop (2 * i) ((p ≫= fun b => IntelHex.hex2 (u8 b)) ++ rest))
  = IntelHex.hex2 (u8 b).
Proof.
  revert i. induction p as [|b0 p IH]; intros i Hi; [done|].
  rewrite bind_cons. destruct i as [|i].
  - injection Hi as ->. reflexivity.
  - cbn [lookup list_lookup] in Hi.
    replace (2 * S i)%nat with (S (S (2 * i))) by lia.
    unfold IntelHex.hex2 at 1. cbn [app drop]. by apply IH.
Qed.

Lemma line_digits (r : IntelHex.record) (i : nat) (b : byte) :
  IntelHex.payload r !! i = Some b ->
  substring (IntelHex.line r) (9 + Z.of_nat i * 2) (9 + Z.of_nat i * 2 + 2)
  = IntelHex.hex2 (u8 b).
Proof.
  intros Hi. unfold substring.
  replace (Z.to_nat (9 + Z.of_nat i * 2 + 2 - (9 + Z.of_nat i * 2)))
    with 2%nat by lia.
  replace (Z.to_nat (9 + Z.of_nat i * 2)) with (9 + 2 * i)%nat by lia.
  unfold IntelHex.line, IntelHex.hex4.
  unfold IntelHex.hex2 at 1 2 3 4. cbn [app drop Nat.add].
  by apply payload_digits.
Qed.

Lemma seqZ_bind_lookup {A B} (l : list A) (f : Z -> list B) (h : A -> B)
    (k : Z) :
  (forall i a, l !! i = Some a -> f (k + Z.of_nat i) = [h a]) ->
  seqZ k (len l) ≫= f = h <$> l.
Proof.
  revert k. induction l as [|a l IH]; intros k H; [done|].
  unfold len. rewrite seqZ_cons by (cbn [length]; lia).
  rewrite bind_cons, fmap_cons.
  replace (Z.pred (Z.of_nat (length (a :: l)))) with (len l)
    by (unfold len; cbn [length]; lia).
  rewrite (IH (Z.succ k)).
  - specialize (H 0%nat a eq_refl). rewrite Z.add_0_r in H. by rewrite H.
  - intros i a' Hi. specialize (H (S i) a' Hi).
    by replace (Z.succ k + Z.of_nat i) with (k + Z.of_nat (S i)) by lia.
Qed.

(** What the parser reads out of one line of a file. *)
Lemma line_data_line (r : IntelHex.record) :
  IntelHex.well_formed r ->
  FileUtils.line_data (IntelHex.line r)
  = if IntelHex.kind r =? 0
    then (fun b => Some (u8 b)) <$> IntelHex.payload r else [].
Proof.
  intros [Hk Hn]. unfold FileUtils.line_data.
  pose proof (len_line r) as Hlen.
  assert (0 <= len (IntelHex.payload r)) as H0 by (unfold len; lia).
  destruct (Z.ltb_spec (len (IntelHex.line r)) 11) as [Hs|_].
  { destruct (IntelHex.cr r); lia. }
  assert (substring (IntelHex.line r) 1 3
          = IntelHex.hex2 (len (IntelHex.payload r))) as -> by reflexivity.
  assert (substring (IntelHex.line r) 7 9 = IntelHex.hex2 (IntelHex.kind r))
    as -> by reflexivity.
  rewrite !parse_hex2 by lia. cbn [default].
  destruct (Z.eqb_spec (IntelHex.kind r) 0) as [E|E].
  - rewrite E, bool_decide_eq_true_2 by done.
    apply seqZ_bind_lookup. intros i b Hi. rewrite Z.add_0_l.
    apply lookup_lt_Some in Hi as Hlt.
    destruct (Z.ltb_spec (9 + Z.of_nat i * 2 + 1) (len (IntelHex.line r)))
      as [_|Hbad].
    + rewrite (line_digits r i b Hi), parse_hex2; [done|].
      pose proof (u8_range b). lia.
    + unfold len in *. destruct (IntelHex.cr r); lia.
  - rewrite bool_decide_eq_false_2; [done|]. intros [= H]. by destruct E.
Qed.

(** ** Lines *)

Lemma split_line (l rest : jsstring) (sep : Z) :
  sep ∉ l -> Text.split sep (l ++ sep :: rest) = l :: Text.split sep rest.
Proof.
  induction l as [|c l IH]; intros H; cbn [app Text.split].
  - by rewrite Z.eqb_refl.
  - apply not_elem_of_cons in H as [Hc Hl].
    destruct (Z.eqb_spec c sep) as [->|_]; [done|].
    by rewrite IH.
Qed.

Lemma split_file (rs : list IntelHex.record) :
  Text.split 10 (IntelHex.file rs) = (IntelHex.line <$> rs) ++ [[]].
Proof.
  unfold IntelHex.file. induction rs as [|r rs IH]; [done|].
  rewrite bind_cons, <- app_assoc. cbn [app].
  rewrite split_line by apply line_no_line_feed.
  by rewrite IH.
Qed.

Lemma drop_while_snoc {A} (p : A -> bool) (l : list A) (x : A) :
  p x = false ->
  Text.drop_while p (l ++ [x]) = Text.drop_while p l ++ [x].
Proof.
  intros Hx. induction l as [|y l IH]; cbn [app Text.drop_while].
  - by rewrite Hx.
  - destruct (p y); [exact IH|done].
Qed.

Lemma line_is_kept (r : IntelHex.record) :
  Text.startsWith (Text.trim (IntelHex.line r)) (lit ":") = true.
Proof.
  unfold Text.trim, IntelHex.line. cbn [app Text.drop_while].
  replace (Text.is_space 58) with false by reflexivity.
  rewrite reverse_cons, drop_while_snoc by reflexivity.
  rewrite reverse_snoc. reflexivity.
Qed.

Lemma kept_lines (rs : list IntelHex.record) :
  List.filter (fun line => Text.startsWith (Text.trim line) (lit ":"))
    (Text.split 10 (IntelHex.file rs))
  = IntelHex.line <$> rs.
Proof.
  rewrite split_file, List.filter_app. cbn [List.filter].
  replace (Text.startsWith (Text.trim []) (lit ":")) with false
    by reflexivity.
  rewrite app_nil_r.
  induction rs as [|r rs IH]; [done|].
  cbn [fmap list_fmap List.filter]. rewrite line_is_kept.
  f_equal. exact IH.
Qed.

(** X24: the parser reads the data of an Intel HEX file. For records
    with at most 255 data bytes and a type below 256, written one per
    line as [:LLAAAATTDD...CC] with upper-case digits and ended by a
    line feed, with or without a carriage return before it, the parser
    returns the data bytes of the records of type 0 in file order and
    skips every other record. It uses neither the load address nor the
    check byte of a record: the result is the same whatever they are. *)
Theorem parseHexFile_reads_data_records (rs : list IntelHex.record)
    (Hwf : Forall IntelHex.well_formed rs) :
  FileUtils.parseHexFile (IntelHex.file rs) = IntelHex.data rs.
Proof.
  unfold FileUtils.parseHexFile, IntelHex.data. rewrite kept_lines.
  induction Hwf as [|r rs Hr Hrs IH]; [done|].
  rewrite fmap_cons, !bind_cons, fmap_app, IH.
  f_equal. rewrite (line_data_line r Hr).
  destruct (IntelHex.kind r =? 0); [|done].
  rewrite <- list_fmap_compose.
  rewrite <- (list_fmap_id (IntelHex.payload r)) at 2.
  apply list_fmap_ext. intros i b _. cbn. apply to_u8_u8.
Qed.

Lemma parseHexFile_reads_data_records_witness :
  FileUtils.parseHexFile
    (lit (":0301000001ABFF5A" ++ String "013" (String "010"
          (":00000001FF" ++ String "010" EmptyString))))
  = [x01; xab; xff].
Proof.
  apply (parseHexFile_reads_data_records
           [ {| IntelHex.kind := 0; IntelHex.address := 0x100;
                IntelHex.payload := [x01; xab; xff];
                IntelHex.check := 0x5A; IntelHex.cr := true |};
             {| IntelHex.kind := 1; IntelHex.address := 0;
                IntelHex.payload := []; IntelHex.check := 0xFF;
                IntelHex.cr := false |} ]).
  repeat (apply List.Forall_cons; [split; vm_compute; done|]).
  apply List.Forall_nil.
Defined.

(** ** Telling text from binary *)

(** The comparison [printable < length * 0.7] in binary64 decides
    [10 * printable < 7 * length] for the at most 100 characters that
    are looked at. *)
Lemma seventy_percent_table :
  forallb
    (fun n =>
       forallb
         (fun p =>
            Bool.eqb
              (PrimFloat.ltb (of_Z p)
                 (PrimFloat.mul (of_Z n) 0x1.6666666666666p-1%float))
              (10 * p <? 7 * n))
         (seqZ 0 (n + 1)))
    (seqZ 0 101) = true.
Proof. vm_compute. reflexivity. Qed.

Lemma seventy_percent (p n : Z) :
  0 <= p <= n -> n <= 100 ->
  PrimFloat.ltb (of_Z p) (PrimFloat.mul (of_Z n) 0x1.6666666666666p-1%float)
  = (10 * p <? 7 * n).
Proof.
  intros Hp Hn. pose proof seventy_percent_table as T.
  rewrite forallb_forall in T.
  specialize (T n ltac:(apply list_elem_of_In, elem_of_seqZ; lia)).
  rewrite forallb_forall in T.
  specialize (T p ltac:(apply list_elem_of_In, elem_of_seqZ; lia)).
  by apply Bool.eqb_prop.
Qed.

(** A byte decodes to a printable character exactly when it is one. *)
Lemma printable_decoded (b : byte) :
  (32 <=? windows1252 b) && (windows1252 b <=? 126)
  = (32 <=? u8 b) && (u8 b <=? 126).
Proof. destruct b; vm_compute; reflexivity. Qed.

Lemma len_slice_bound {A} (a : list A) (n : Z) : len (slice a 0 n) <= Z.max n 0.
Proof. rewrite slice_0. unfold len. rewrite length_take. lia. Qed.

Lemma starts_with_nonempty (text : jsstring) :
  Text.startsWith text (lit ":")
  && (negb (bool_decide (text = [])) && forallb FileUtils.hex_text text)
  = Text.startsWith text (lit ":") && forallb FileUtils.hex_text text.
Proof. by destruct text. Qed.

Lemma is_text_hex_text (c : Z) :
  IntelHex.is_text c || (c =? 10) = true ->
  FileUtils.hex_text c = true /\ 0 <= c < 128.
Proof.
  unfold IntelHex.is_text, FileUtils.hex_text. intros H.
  repeat (apply orb_prop in H as [H|H]).
  - apply Z.eqb_eq in H as ->. done.
  - apply Z.eqb_eq in H as ->. done.
  - split; [|lia]. rewrite H. by rewrite !orb_true_r.
  - split; [|lia]. rewrite H. by rewrite !orb_true_r.
  - apply Z.eqb_eq in H as ->. done.
Qed.

Lemma file_is_ascii (rs : list IntelHex.record) :
  Text.is_ascii (IntelHex.file rs)
  /\ forallb FileUtils.hex_text (IntelHex.file rs) = true.
Proof.
  pose proof (file_text rs) as T. rewrite forallb_forall in T. split.
  - apply Forall_forall. intros c Hc.
    apply list_elem_of_In, T in Hc. cbv beta in Hc.
    exact (proj2 (is_text_hex_text c Hc)).
  - apply forallb_forall. intros c Hc.
    apply T in Hc. cbv beta in Hc. exact (proj1 (is_text_hex_text c Hc)).
Qed.

Lemma forallb_take {A} (p : A -> bool) (n : nat) (l : list A) :
  forallb p l = true -> forallb p (take n l) = true.
Proof.
  rewrite !forallb_forall. intros H x Hx. apply H.
  apply list_elem_of_In in Hx. apply list_elem_of_In.
  apply elem_of_take in Hx as (i & Hi & _).
  by apply (list_elem_of_lookup_2 _ i).
Qed.

Lemma detect_integer (data : bytes) :
  FileUtils.detectFileFormat data
  = (if Text.startsWith (TextDecoder_ascii (slice data 0 100)) (lit ":")
        && forallb FileUtils.hex_text (TextDecoder_ascii (slice data 0 100))
     then "hex"%string
     else if 10 * len (List.filter (fun code => (32 <=? code) && (code <=? 126))
                         (TextDecoder_ascii (slice data 0 100)))
             <? 7 * len (TextDecoder_ascii (slice data 0 100))
     then "binary"%string else "unknown"%string).
Proof.
  unfold FileUtils.detectFileFormat. cbv zeta.
  rewrite starts_with_nonempty.
  destruct (_ && _); [done|].
  rewrite seventy_percent; [done| |].
  - pose proof (filter_count_bound
                  (fun code => (32 <=? code) && (code <=? 126))
                  (TextDecoder_ascii (slice data 0 100))). lia.
  - pose proof (len_slice_bound data 100) as H.
    unfold TextDecoder_ascii, len in *. rewrite length_fmap. lia.
Qed.

(** X25: what [detectFileFormat] answers, from the first 100 bytes
    decoded as windows-1252. It answers "hex" when the text starts with
    a colon and holds only colons, hexadecimal digits and white space;
    otherwise "binary" when fewer than 70% of the characters are
    printable ASCII - the comparison in floating point decides exactly
    [10 * printable < 7 * length] - and "unknown" in every other case.
    So empty data are "unknown", the text of an Intel HEX file with at
    least one record is "hex", and data whose first 100 bytes hold no
    printable ASCII byte, such as an erased dump, are "binary". *)
Theorem detectFileFormat_outcomes (data : bytes) :
  FileUtils.detectFileFormat data
  = (if Text.startsWith (TextDecoder_ascii (slice data 0 100)) (lit ":")
        && forallb FileUtils.hex_text (TextDecoder_ascii (slice data 0 100))
     then "hex"%string
     else if 10 * len (List.filter (fun code => (32 <=? code) && (code <=? 126))
                         (TextDecoder_ascii (slice data 0 100)))
             <? 7 * len (TextDecoder_ascii (slice data 0 100))
     then "binary"%string else "unknown"%string)
  /\ (data = [] -> FileUtils.detectFileFormat data = "unknown"%string)
  /\ (forall rs, rs <> [] ->
        data = TextEncoder_encode (IntelHex.file rs) ->
        FileUtils.detectFileFormat data = "hex"%string)
  /\ (data <> [] ->
      Forall (fun b => u8 b < 32 \/ 126 < u8 b) (slice data 0 100) ->
      FileUtils.detectFileFormat data = "binary"%string).
Proof.
  split; [apply detect_integer|]. split; [by intros ->|]. split.
  - intros rs Hrs ->. rewrite detect_integer.
    destruct (file_is_ascii rs) as [Ha Hh].
    rewrite (encode_ascii _ Ha), slice_0, <- fmap_take.
    change (Z.to_nat 100) with 100%nat.
    assert (Text.is_ascii (take 100 (IntelHex.file rs))) as Ha'.
    { unfold Text.is_ascii in *. by apply Forall_take. }
    rewrite (proj1 (decode_ascii_bytes _ Ha')).
    rewrite (forallb_take _ _ _ Hh), andb_true_r.
    destruct rs as [|r rs]; [done|].
    unfold IntelHex.file. rewrite bind_cons.
    unfold IntelHex.line at 1. reflexivity.
  - intros Hne Hall. rewrite detect_integer.
    assert (List.filter (fun code => (32 <=? code) && (code <=? 126))
              (TextDecoder_ascii (slice data 0 100)) = []) as ->.
    { unfold TextDecoder_ascii.
      induction Hall as [|b l Hb Hl IH]; [done|].
      rewrite fmap_cons. cbn [List.filter].
      rewrite printable_decoded.
      replace ((32 <=? u8 b) && (u8 b <=? 126)) with false by lia.
      exact IH. }
    destruct data as [|b data]; [done|].
    rewrite slice_0 in *. change (Z.to_nat 100) with 100%nat in *.
    cbn [take] in *. apply Forall_cons in Hall as [Hb _].
    unfold TextDecoder_ascii. rewrite fmap_cons.
    unfold Text.startsWith. change (lit ":") with [58].
    cbn [starts_with].
    rewrite bool_decide_eq_false_2.
    + cbn [andb]. unfold len. cbn [length]. rewrite length_fmap.
      destruct (Z.ltb_spec (10 * Z.of_nat 0)
                  (7 * Z.of_nat (S (length (take 99 data))))); [done|lia].
    + intros E.
      pose proof (printable_decoded b) as P. rewrite <- E in P.
      change ((32 <=? 58) && (58 <=? 126)) with true in P. lia.
Qed.

(** * Edge cases and invariants *)

(** X26: the client analysis of a buffer shorter than one sector of 1024
    bytes, the empty buffer included: it counts 0 sectors, 0 of them
    recoverable, and the level it reports, 0 / 0 * 100 rounded, is not a
    number. *)
Theorem client_analysis_of_short_buffer (d : bytes) (Hd : len d < 1024) :
  FrmConverter.analyzeDFlashCorruption d =
  {| FrmConverter.corruptionLevel := nan;
     FrmConverter.recoverableSectors := 0;
     FrmConverter.totalSectors := 0 |}
  /\ PrimFloat.is_nan
       (FrmConverter.corruptionLevel (FrmConverter.analyzeDFlashCorruption d))
     = true.
Proof.
  assert (len d / 1024 = 0) as E
    by (apply Z.div_small; unfold len in *; lia).
  unfold FrmConverter.analyzeDFlashCorruption. cbv zeta. rewrite E.
  change (seqZ 0 0) with (@nil Z). cbn [fold_left].
  cbn [FrmConverter.corruptionLevel].
  replace (Math_round
             (PrimFloat.mul (PrimFloat.div (of_Z 0) (of_Z 0)) (of_Z 100)))
    with nan by (vm_compute; reflexivity).
  split; reflexivity.
Qed.

Lemma client_analysis_of_short_buffer_witness :
  PrimFloat.is_nan
    (FrmConverter.corruptionLevel (FrmConverter.analyzeDFlashCorruption []))
  = true.
Proof.
  apply (proj2 (client_analysis_of_short_buffer [] ltac:(reflexivity))).
Defined.

(** ** The keys of the store *)

Lemma Map_set_elem {V} (m : list (list Z * V)) (k : list Z) (v : V)
    (x : list Z * V) :
  x ∈ JsMap.set m k v -> x = (k, v) \/ x ∈ m.
Proof.
  induction m as [|[k0 v0] m IH]; cbn [JsMap.set].
  - intros H. apply list_elem_of_singleton in H. by left.
  - case_bool_decide as E.
    + subst k0. intros H. apply elem_of_cons in H as [->|H]; [by left|].
      right. by apply list_elem_of_further.
    + intros H. apply elem_of_cons in H as [->|H].
      * right. apply list_elem_of_here.
      * destruct (IH H) as [->|Hx]; [by left|].
        right. by apply list_elem_of_further.
Qed.

Lemma well_keyed_set (this : Storage.MemStorage) (k : jsstring)
    (r : Schema.FrmRepair.t) :
  Storage.well_keyed this -> Schema.FrmRepair.id r = k ->
  Storage.well_keyed
    {| Storage.users := Storage.users this;
       Storage.frmRepairs := JsMap.set (Storage.frmRepairs this) k r |}.
Proof.
  intros [Hn Hk] Hr. split; cbn [Storage.frmRepairs].
  - by apply Map_keys_NoDup.
  - intros k' r' H. apply Map_set_elem in H as [[= -> ->]|H]; [done|].
    by apply Hk.
Qed.

Lemma well_keyed_update (this : Storage.MemStorage) (id : jsstring)
    (updates : Schema.PartialFrmRepair.t) :
  Storage.well_keyed this -> Schema.PartialFrmRepair.id updates = None ->
  Storage.well_keyed (Storage.updateFrmRepair this id updates).1.
Proof.
  intros Hw Hu. unfold Storage.updateFrmRepair.
  destruct (JsMap.get (Storage.frmRepairs this) id) as [existing|] eqn:E;
    [|done].
  cbn [fst]. apply well_keyed_set; [done|].
  cbn [Storage.spread Schema.FrmRepair.id]. rewrite Hu. cbn [default].
  destruct Hw as [_ Hk]. by apply Hk, Map_get_Some.
Qed.

(** X27: the store keeps its repairs keyed. When every repair is stored
    under the identifier it carries and no identifier occurs twice, this
    still holds after [createFrmRepair], after an [updateFrmRepair] whose
    update has no [id] key, and after the upload and the conversion
    handlers, whatever the request. *)
Theorem handlers_keep_repairs_keyed (storage : Storage.MemStorage)
    (Hkeyed : Storage.well_keyed storage) :
  (forall uuid now insertRepair,
     Storage.well_keyed
       (Storage.createFrmRepair storage uuid now insertRepair).1)
  /\ (forall id updates,
        Schema.PartialFrmRepair.id updates = None ->
        Storage.well_keyed (Storage.updateFrmRepair storage id updates).1)
  /\ (forall toLowerCase over_limit uuid now file,
        Storage.well_keyed
          (Routes.upload toLowerCase over_limit storage uuid now file).1)
  /\ (forall id, Storage.well_keyed (Routes.convert storage id).1).
Proof.
  split; [|split; [|split]].
  - intros uuid now insertRepair. unfold Storage.createFrmRepair.
    cbn [fst]. by apply well_keyed_set.
  - intros id updates. by apply well_keyed_update.
  - intros toLowerCase over_limit uuid now file. unfold Routes.upload.
    destruct (Routes.upload_single toLowerCase over_limit file)
      as [[file'|]|err]; [|done|done].
    destruct (decide (len (Routes.buffer file') = 32768)) as [Hl|Hl].
    + destruct (upload_result storage uuid now file' Hl) as (a & _ & ->).
      cbn [fst]. by apply well_keyed_set.
    + by rewrite upload_wrong_size.
  - intros id. unfold Routes.convert.
    destruct (Storage.getFrmRepair storage id) as [repair|]; [|done].
    destruct (Schema.FrmRepair.originalData repair) as [d|]; [|done].
    destruct (negb _).
    + pose proof (well_keyed_update storage id (Routes.set_status "failed")
                    Hkeyed eq_refl) as H.
      by destruct (Storage.updateFrmRepair storage id _).
    + pose proof (well_keyed_update storage id
                    (Routes.set_repaired
                       (Server.eepromData
                          (Server.convertDFlashToEEPROM
                             (Routes.Buffer_from_buffer d))))
                    Hkeyed eq_refl) as H.
      destruct (Storage.updateFrmRepair storage id _).
      by destruct (Server.eepromData _).
Qed.

Lemma handlers_keep_repairs_keyed_witness :
  Storage.well_keyed
    (Routes.upload (fmap Text.lower) (Z.ltb Routes.fileSize) Storage.new
       (lit "r1") 0
       (Some {| Routes.originalname := lit "dump.bin";
                Routes.buffer := Spec.uniform xff |})).1.
Proof.
  assert (Storage.well_keyed Storage.new) as Hnew.
  { split; [apply NoDup_nil_2|]. intros k r H. by apply elem_of_nil in H. }
  exact (proj1 (proj2 (proj2 (handlers_keep_repairs_keyed Storage.new Hnew)))
           (fmap Text.lower) (Z.ltb Routes.fileSize) (lit "r1") 0
           (Some {| Routes.originalname := lit "dump.bin";
                    Routes.buffer := Spec.uniform xff |})).
Defined.
